(** * SGLDRunner: the cycle runner of [bnn_priors/inference.py]

    A shallow embedding of the class [SGLDRunner] and of the part of the
    Metropolis-Hastings protocol exercised by [testing/test_verlet_sgld.py].

    Conventions.
    - Python integers are [Z]; [//] and [%] are [Z.div] and [Z.modulo]
      (both round towards minus infinity, as Python does), with the
      [ZeroDivisionError] of a zero divisor written out.
    - Python and torch floating-point scalars are idealised as real numbers
      [R]; a tensor is the list of its elements, shapes are not tracked.
      Rounding and NaN are outside the model.
    - A method of the runner is a computation in a state-and-exception
      monad over the runner object: an exception leaves the object as it
      was when it was raised.
    - The model, the sampler and the learning-rate schedule live in modules
      that are not part of the verified file; they are interfaces here. *)

From Stdlib Require Import ZArith Reals Lra Lia.
From stdpp Require Import base option list gmap strings.

Local Open Scope Z_scope.

(** ** Exceptions and the state-and-exception monad *)

Inductive exn : Type :=
| ZeroDivisionError
| RuntimeError
| ValueError
| IndexError
| KeyError
| AttributeError.

Inductive outcome (A : Type) : Type :=
| Ok (a : A)
| Raise (e : exn).
Arguments Ok {A} a.
Arguments Raise {A} e.

Definition is_ok {A} (o : outcome A) : Prop :=
  match o with Ok _ => True | Raise _ => False end.

Definition M (St A : Type) : Type := St -> outcome A * St.

Definition ret {St A} (a : A) : M St A := fun s => (Ok a, s).

Definition bind {St A B} (m : M St A) (k : A -> M St B) : M St B :=
  fun s => match m s with
           | (Ok a, s') => k a s'
           | (Raise e, s') => (Raise e, s')
           end.

Definition raise {St A} (e : exn) : M St A := fun s => (Raise e, s).

Definition gets {St A} (f : St -> A) : M St A := fun s => (Ok (f s), s).

Definition modify {St} (f : St -> St) : M St unit := fun s => (Ok tt, f s).

Definition lift {St A} (o : outcome A) : M St A := fun s => (o, s).

(** An attribute that is only set later in the object's life. *)
Definition attr {St A} (f : St -> option A) : M St A :=
  fun s => match f s with
           | Some a => (Ok a, s)
           | None => (Raise AttributeError, s)
           end.

Declare Scope runner_scope.
Delimit Scope runner_scope with runner.
Notation "x <- m ;; k" := (bind m (fun x => k))
  (at level 100, m at next level, right associativity) : runner_scope.
Notation "m ;;; k" := (bind m (fun _ => k))
  (at level 100, right associativity) : runner_scope.

(** [for x in l: acc = body(acc, x)] *)
Fixpoint for_acc {St A B} (l : list B) (body : A -> B -> M St A) (acc : A)
  : M St A :=
  match l with
  | [] => ret acc
  | x :: l' => bind (body acc x) (fun acc' => for_acc l' body acc')
  end.

(** [for x in l: body(x)] *)
Definition for_each {St B} (l : list B) (body : B -> M St unit) : M St unit :=
  for_acc l (fun _ x => body x) tt.

(** [range(n)] *)
Definition range (n : Z) : list Z := seqZ 0 n.

(** ** Python integer operators *)

Definition floordiv (a b : Z) : outcome Z :=
  if decide (b = 0) then Raise ZeroDivisionError else Ok (a / b).

Definition pymod (a b : Z) : outcome Z :=
  if decide (b = 0) then Raise ZeroDivisionError else Ok (a mod b).

(** ** Tensors *)

Definition tensor : Type := list R.

Definition zeros_like (t : tensor) : tensor := (fun _ => 0%R) <$> t.

(** [torch.zeros(torch.Size([n]) + shape)]: [n] slots of the given shape;
    torch refuses a negative dimension. *)
Definition torch_zeros (n : Z) (shape_of : tensor) : outcome (list tensor) :=
  if decide (n < 0) then Raise RuntimeError
  else Ok (replicate (Z.to_nat n) (zeros_like shape_of)).

(** [buf[idx] = v] on a tensor indexed along its first dimension: a negative
    index counts from the end, an index out of range raises. *)
Definition setitem (buf : list tensor) (idx : Z) (v : tensor)
  : outcome (list tensor) :=
  let len := Z.of_nat (length buf) in
  if decide (0 <= idx < len) then Ok (<[Z.to_nat idx := v]> buf)
  else if decide (- len <= idx < 0) then Ok (<[Z.to_nat (idx + len) := v]> buf)
  else Raise IndexError.

(** [t.clamp_(min=lo, max=hi)] *)
Definition clamp (lo hi : R) (t : tensor) : tensor :=
  (fun x => Rmin (Rmax x lo) hi) <$> t.

(** A parameter tensor of the model: its value and its [.grad]. The store of
    parameters is shared by the model and by the optimizer's group. *)
Record param : Type := Param {
  p_value : tensor;
  p_grad : tensor
}.

Definition named_params : Type := list (string * param).

(** Hyperparameters of one [param_groups] entry of the optimizer. *)
Record param_group : Type := ParamGroup {
  pg_lr : R;
  pg_num_data : R;
  pg_momentum : R;
  pg_temperature : R
}.

Definition set_temperature (t : R) (g : param_group) : param_group :=
  {| pg_lr := pg_lr g; pg_num_data := pg_num_data g;
     pg_momentum := pg_momentum g; pg_temperature := t |}.

Definition set_lr (lr : R) (g : param_group) : param_group :=
  {| pg_lr := lr; pg_num_data := pg_num_data g;
     pg_momentum := pg_momentum g; pg_temperature := pg_temperature g |}.

(** ** The collaborators of the runner *)

(** The model ([bnn_priors.models]): [potential_avg(x, y, temperature,
    data_mult)] on the current parameter values, and the gradient that
    [loss.backward()] leaves in the [.grad] of the named parameter. *)
Class GradientProvider (batch : Type) : Type := {
  potential_avg : named_params -> batch -> R -> R -> R;
  potential_grad : named_params -> batch -> R -> R -> string -> tensor
}.

(** The sampler ([bnn_priors.sgld.SGLD]). [sgld_update] is the new value
    that [optimizer.step()] gives to the named parameter, [sgld_advance] the
    sampler's own state after the step (momenta, estimators, random
    generator); the three readers are the entries of [optimizer.state[p]]
    that the runner logs. *)
Class Sampler (S : Type) : Type := {
  sgld_new : S;
  sgld_update : list param_group -> S -> named_params -> string -> param -> tensor;
  sgld_advance : list param_group -> named_params -> S -> S;
  estimate_preconditioner : list param_group -> named_params -> S -> S;
  preconditioner : S -> string -> R;
  est_temperature : S -> string -> R;
  est_config_temp : S -> string -> R
}.

(** The arguments of [SGLDRunner.__init__] other than the model, the data
    loader and the summary writer. *)
Record config : Type := Config {
  epochs_per_cycle : Z;
  warmup_epochs : Z;
  sample_epochs : Z;
  learning_rate : R;
  skip : Z;
  temperature : R;
  data_mult : R;
  momentum : R;
  sampling_decay : bool;
  grad_max : R;
  cycles : Z;
  precond_update : option Z
}.

(** The defaults of the signature. *)
Definition default_config (epochs warmup sample : Z) : config :=
  {| epochs_per_cycle := epochs; warmup_epochs := warmup;
     sample_epochs := sample; learning_rate := (1 / 100)%R; skip := 1;
     temperature := 1%R; data_mult := 1%R; momentum := 0%R;
     sampling_decay := true; grad_max := 1000000%R; cycles := 1;
     precond_update := None |}.

Definition with_skip (k : Z) (c : config) : config :=
  {| epochs_per_cycle := epochs_per_cycle c; warmup_epochs := warmup_epochs c;
     sample_epochs := sample_epochs c; learning_rate := learning_rate c;
     skip := k; temperature := temperature c; data_mult := data_mult c;
     momentum := momentum c; sampling_decay := sampling_decay c;
     grad_max := grad_max c; cycles := cycles c;
     precond_update := precond_update c |}.

Definition with_grad_max (x : R) (c : config) : config :=
  {| epochs_per_cycle := epochs_per_cycle c; warmup_epochs := warmup_epochs c;
     sample_epochs := sample_epochs c; learning_rate := learning_rate c;
     skip := skip c; temperature := temperature c; data_mult := data_mult c;
     momentum := momentum c; sampling_decay := sampling_decay c;
     grad_max := x; cycles := cycles c;
     precond_update := precond_update c |}.

Definition with_cycles (n : Z) (c : config) : config :=
  {| epochs_per_cycle := epochs_per_cycle c; warmup_epochs := warmup_epochs c;
     sample_epochs := sample_epochs c; learning_rate := learning_rate c;
     skip := skip c; temperature := temperature c; data_mult := data_mult c;
     momentum := momentum c; sampling_decay := sampling_decay c;
     grad_max := grad_max c; cycles := n;
     precond_update := precond_update c |}.

Definition with_sampling_decay (b : bool) (c : config) : config :=
  {| epochs_per_cycle := epochs_per_cycle c; warmup_epochs := warmup_epochs c;
     sample_epochs := sample_epochs c; learning_rate := learning_rate c;
     skip := skip c; temperature := temperature c; data_mult := data_mult c;
     momentum := momentum c; sampling_decay := b;
     grad_max := grad_max c; cycles := cycles c;
     precond_update := precond_update c |}.

(** The optimizer object and the [LambdaLR] scheduler wrapped around it. *)
Record SGLD (S : Type) : Type := MkSGLD {
  param_groups : list param_group;
  sgld_state : S
}.
Arguments MkSGLD {S} _ _.
Arguments param_groups {S} _.
Arguments sgld_state {S} _.

Record LambdaLR : Type := MkLambdaLR {
  lr_lambda : Z -> R;
  base_lrs : list R;
  last_epoch : Z
}.

(** The calls the runner makes to its collaborators, in order: the
    arguments of each [potential_avg] call, and what each
    [optimizer.step()] call finds in the groups and in the parameters
    (tagged with the step index [i] of the [SGLDRunner.step] making it). *)
Inductive event (batch : Type) : Type :=
| EvPotential (xy : batch) (temperature data_mult : R)
| EvOptStep (i : Z) (groups : list param_group) (params : named_params).
Arguments EvPotential {batch} _ _ _.
Arguments EvOptStep {batch} _ _ _.

(** The runner object. [cfg] holds the attributes copied from the
    arguments; [param_names], [optimizer], [scheduler] and [prev_loss] are
    attributes that only exist once [run] or [step] has set them. *)
Record runner (batch S : Type) : Type := Runner {
  cfg : config;
  descent_epochs : Z;
  num_samples : Z;
  dataloader : list batch;
  dataset_len : Z;
  model : named_params;
  summary_writer : option (list (string * R * Z));
  _samples : gmap string (list tensor);
  metrics : gmap string (list R);
  param_names : option (list string);
  optimizer : option (SGLD S);
  scheduler : option LambdaLR;
  prev_loss : option R;
  trace : list (event batch)
}.
Arguments Runner {batch S}.
Arguments cfg {batch S} _.
Arguments descent_epochs {batch S} _.
Arguments num_samples {batch S} _.
Arguments dataloader {batch S} _.
Arguments dataset_len {batch S} _.
Arguments model {batch S} _.
Arguments summary_writer {batch S} _.
Arguments _samples {batch S} _.
Arguments metrics {batch S} _.
Arguments param_names {batch S} _.
Arguments optimizer {batch S} _.
Arguments scheduler {batch S} _.
Arguments prev_loss {batch S} _.
Arguments trace {batch S} _.

Section Runner.
Context {batch S : Type}.

Abbreviation runner := (runner batch S).

(** *** Attribute assignment *)

Definition set_model (v : named_params) (r : runner) : runner :=
  Runner (cfg r) (descent_epochs r) (num_samples r) (dataloader r)
    (dataset_len r) v (summary_writer r) (_samples r) (metrics r)
    (param_names r) (optimizer r) (scheduler r) (prev_loss r) (trace r).

Definition set_summary_writer (v : option (list (string * R * Z)))
  (r : runner) : runner :=
  Runner (cfg r) (descent_epochs r) (num_samples r) (dataloader r)
    (dataset_len r) (model r) v (_samples r) (metrics r)
    (param_names r) (optimizer r) (scheduler r) (prev_loss r) (trace r).

Definition set_samples (v : gmap string (list tensor)) (r : runner) : runner :=
  Runner (cfg r) (descent_epochs r) (num_samples r) (dataloader r)
    (dataset_len r) (model r) (summary_writer r) v (metrics r)
    (param_names r) (optimizer r) (scheduler r) (prev_loss r) (trace r).

Definition set_metrics (v : gmap string (list R)) (r : runner) : runner :=
  Runner (cfg r) (descent_epochs r) (num_samples r) (dataloader r)
    (dataset_len r) (model r) (summary_writer r) (_samples r) v
    (param_names r) (optimizer r) (scheduler r) (prev_loss r) (trace r).

Definition set_param_names (v : option (list string)) (r : runner) : runner :=
  Runner (cfg r) (descent_epochs r) (num_samples r) (dataloader r)
    (dataset_len r) (model r) (summary_writer r) (_samples r) (metrics r)
    v (optimizer r) (scheduler r) (prev_loss r) (trace r).

Definition set_optimizer (v : option (SGLD S)) (r : runner) : runner :=
  Runner (cfg r) (descent_epochs r) (num_samples r) (dataloader r)
    (dataset_len r) (model r) (summary_writer r) (_samples r) (metrics r)
    (param_names r) v (scheduler r) (prev_loss r) (trace r).

Definition set_scheduler (v : option LambdaLR) (r : runner) : runner :=
  Runner (cfg r) (descent_epochs r) (num_samples r) (dataloader r)
    (dataset_len r) (model r) (summary_writer r) (_samples r) (metrics r)
    (param_names r) (optimizer r) v (prev_loss r) (trace r).

Definition set_prev_loss (v : option R) (r : runner) : runner :=
  Runner (cfg r) (descent_epochs r) (num_samples r) (dataloader r)
    (dataset_len r) (model r) (summary_writer r) (_samples r) (metrics r)
    (param_names r) (optimizer r) (scheduler r) v (trace r).

Definition log_event (ev : event batch) (r : runner) : runner :=
  Runner (cfg r) (descent_epochs r) (num_samples r) (dataloader r)
    (dataset_len r) (model r) (summary_writer r) (_samples r) (metrics r)
    (param_names r) (optimizer r) (scheduler r) (prev_loss r)
    (trace r ++ [ev]).

(** *** [SGLDRunner.__init__] *)

(** The dict comprehension allocating one buffer per tracked parameter,
    under the key [name + ".p"]. *)
Definition alloc_samples (n : Z) (ps : named_params)
  : outcome (gmap string (list tensor)) :=
  fold_left
    (fun acc np =>
       match acc with
       | Raise e => Raise e
       | Ok m =>
           match torch_zeros n (p_value np.2) with
           | Raise e => Raise e
           | Ok z => Ok (<[np.1 +:+ ".p" := z]> m)
           end
       end)
    ps (Ok ∅).

Definition __init__ (model : named_params) (dataloader : list batch)
    (dataset_len : Z) (c : config)
    (summary_writer : option (list (string * R * Z))) : outcome runner :=
  let descent := epochs_per_cycle c - warmup_epochs c - sample_epochs c in
  match floordiv (sample_epochs c) (skip c) with
  | Raise e => Raise e
  | Ok n =>
      match alloc_samples (n * cycles c) model with
      | Raise e => Raise e
      | Ok bufs =>
          match torch_zeros (n * cycles c) [0%R] with
          | Raise e => Raise e
          | Ok lr_buf =>
              Ok (Runner c descent n dataloader dataset_len model
                    summary_writer (<["lr" := lr_buf]> bufs) ∅
                    None None None None [])
          end
      end
  end.

(** [get_samples] *)
Definition get_samples (r : runner) : gmap string (list tensor) := _samples r.


(** *** The optimizer and the scheduler, as the runner drives them *)

Context `{GP : GradientProvider batch} `{SA : Sampler S}.

(** [get_cosine_schedule(period)] of [bnn_priors/utils.py]: the multiplier
    of the base learning rate at a given count of scheduler steps. *)
Variable get_cosine_schedule : Z -> Z -> R.

(** [self.optimizer.zero_grad(); loss = potential_avg(...);
    loss.backward()]: every tracked parameter's [.grad] now holds the
    gradient of the loss just computed. *)
Definition backward (xy : batch) (temperature data_mult : R)
    (ps : named_params) : named_params :=
  (fun np => (np.1, Param (p_value np.2)
                      (potential_grad ps xy temperature data_mult np.1)))
  <$> ps.

(** [p.grad.clamp_(min=-grad_max, max=grad_max)] for the parameters of
    group 0, which are all the tracked parameters. *)
Definition clamp_grads (gmax : R) (ps : named_params) : named_params :=
  (fun np => (np.1, Param (p_value np.2)
                      (clamp (- gmax) gmax (p_grad np.2))))
  <$> ps.

(** [optimizer.step()]: the sampler reads the hyperparameters of the groups
    and the gradients, and writes the parameter values and its own state
    (spec 4.1: the update uses the "current group hyperparameters"). *)
Definition optimizer_step (o : SGLD S) (ps : named_params)
  : SGLD S * named_params :=
  (MkSGLD (param_groups o) (sgld_advance (param_groups o) ps (sgld_state o)),
   (fun np => (np.1, Param (sgld_update (param_groups o) (sgld_state o)
                              ps np.1 np.2)
                       (p_grad np.2)))
   <$> ps).

(** What the scheduler does to the optimizer: each group's rate becomes its
    base rate times the multiplier at the current count of steps. *)
Definition apply_lrs (lam : Z -> R) (count : Z) (bases : list R)
    (groups : list param_group) : list param_group :=
  zip_with (fun g b => set_lr (b * lam count)%R g) groups bases.

(** [torch.optim.lr_scheduler.LambdaLR(optimizer, lr_lambda)]: the base
    rates are the groups' rates at construction, and the constructor
    performs the initial step, which applies the multiplier of count 0. *)
Definition LambdaLR_new (lam : Z -> R) (o : SGLD S) : LambdaLR * SGLD S :=
  let bases := pg_lr <$> param_groups o in
  (MkLambdaLR lam bases 0,
   MkSGLD (apply_lrs lam 0 bases (param_groups o)) (sgld_state o)).

(** [scheduler.step()] *)
Definition scheduler_step (sch : LambdaLR) (o : SGLD S)
  : LambdaLR * SGLD S :=
  let count := last_epoch sch + 1 in
  (MkLambdaLR (lr_lambda sch) (base_lrs sch) count,
   MkSGLD (apply_lrs (lr_lambda sch) count (base_lrs sch) (param_groups o))
          (sgld_state o)).

(** [self.optimizer.param_groups[0]] *)
Definition group0 (o : SGLD S) : outcome param_group :=
  match param_groups o with
  | g :: _ => Ok g
  | [] => Raise IndexError
  end.

(** *** [SGLDRunner.add_scalar] *)

(** [self.metrics[name].append(value)], the list being created on a
    [KeyError]; then the summary writer, when there is one. *)
Definition append_metric (name : string) (value : R)
    (m : gmap string (list R)) : gmap string (list R) :=
  <[name := default [] (m !! name) ++ [value]]> m.

Definition add_scalar_eff (name : string) (value : R) (step : Z)
    (r : runner) : runner :=
  let r1 := set_metrics (append_metric name value (metrics r)) r in
  match summary_writer r1 with
  | Some w => set_summary_writer (Some (w ++ [(name, value, step)])) r1
  | None => r1
  end.

Definition add_scalar (name : string) (value : R) (step : Z)
  : M runner unit :=
  modify (add_scalar_eff name value step).

(** *** [SGLDRunner.step] *)

Definition step (i : Z) (xy : batch) (lr_decay : bool) : M runner R :=
  (o <- attr optimizer ;;
   T <- gets (fun r => temperature (cfg r)) ;;
   dm <- gets (fun r => data_mult (cfg r)) ;;
   ps <- gets model ;;
   let loss := potential_avg ps xy T dm in
   modify (log_event (EvPotential xy T dm)) ;;;
   modify (set_model (backward xy T dm ps)) ;;;
   _ <- lift (group0 o) ;;
   gmax <- gets (fun r => grad_max (cfg r)) ;;
   modify (fun r => set_model (clamp_grads gmax (model r)) r) ;;;
   ps <- gets model ;;
   modify (log_event (EvOptStep i (param_groups o) ps)) ;;;
   let (o', ps') := optimizer_step o ps in
   modify (set_model ps') ;;;
   modify (set_optimizer (Some o')) ;;;
   (if lr_decay then
      sch <- attr scheduler ;;
      let (sch', o'') := scheduler_step sch o' in
      modify (set_scheduler (Some sch')) ;;;
      modify (set_optimizer (Some o''))
    else ret tt) ;;;
   names <- attr param_names ;;
   o <- attr optimizer ;;
   ps <- gets model ;;
   for_each (zip names ps) (fun nnp =>
     let n := nnp.1 in
     let st := sgld_state o in
     add_scalar ("preconditioner/" +:+ n) (preconditioner st nnp.2.1) i ;;;
     add_scalar ("est_temperature/" +:+ n) (est_temperature st nnp.2.1) i ;;;
     add_scalar ("est_config_temp/" +:+ n) (est_config_temp st nnp.2.1) i) ;;;
   g <- lift (group0 o) ;;
   add_scalar "lr" (pg_lr g) i ;;;
   add_scalar "loss" loss i ;;;
   (if decide (i > 0) then
      prev <- attr prev_loss ;;
      add_scalar "log_prob_accept" (prev - loss)%R (i - 1)
    else ret tt) ;;;
   modify (set_prev_loss (Some loss)) ;;;
   ret loss)%runner.


(** *** [SGLDRunner.run] *)

(** Lines 91-92: [for g in self.optimizer.param_groups: g['temperature'] =
    0 if epoch < self.descent_epochs else self.temperature]. *)
Definition phase_temperature (r : runner) (epoch : Z) : R :=
  if decide (epoch < descent_epochs r) then 0%R else temperature (cfg r).

Definition set_phase_temperature (epoch : Z) : M runner unit :=
  (o <- attr optimizer ;;
   t <- gets (fun r => phase_temperature r epoch) ;;
   modify (set_optimizer
     (Some (MkSGLD (set_temperature t <$> param_groups o)
                   (sgld_state o)))))%runner.

(** Lines 94-96: one [step] per batch, the step counter going up by one. *)
Definition run_batches (step0 : Z) : M runner Z :=
  (dl <- gets dataloader ;;
   for_acc dl (fun i xy => _ <- step i xy true ;; ret (i + 1)) step0)%runner.

(** Lines 99-101. *)
Definition maybe_estimate_preconditioner (epoch : Z) : M runner unit :=
  (pu <- gets (fun r => precond_update (cfg r)) ;;
   match pu with
   | None => ret tt
   | Some k =>
       m <- lift (pymod epoch k) ;;
       if decide (m = 0) then
         o <- attr optimizer ;;
         ps <- gets model ;;
         modify (set_optimizer
           (Some (MkSGLD (param_groups o)
                    (estimate_preconditioner (param_groups o) ps
                       (sgld_state o)))))
       else ret tt
   end)%runner.

(** [self._samples[key][idx] = v] *)
Definition write_sample (key : string) (idx : Z) (v : tensor)
  : M runner unit :=
  (bufs <- gets _samples ;;
   match bufs !! key with
   | None => raise KeyError
   | Some buf =>
       buf' <- lift (setitem buf idx v) ;;
       modify (set_samples (<[key := buf']> bufs))
   end)%runner.

(** Lines 103-108. *)
Definition record_sample (cycle epoch : Z) : M runner unit :=
  (d <- gets descent_epochs ;;
   w <- gets (fun r => warmup_epochs (cfg r)) ;;
   k <- gets (fun r => skip (cfg r)) ;;
   n <- gets num_samples ;;
   let sampling_epoch := epoch - (d + w) in
   if decide (0 <= sampling_epoch) then
     m <- lift (pymod sampling_epoch k) ;;
     if decide (m = 0) then
       ps <- gets model ;;
       for_each ps (fun np =>
         q <- lift (floordiv sampling_epoch k) ;;
         write_sample (np.1 +:+ ".p") (n * cycle + q) (p_value np.2)) ;;;
       o <- attr optimizer ;;
       g <- lift (group0 o) ;;
       q <- lift (floordiv sampling_epoch k) ;;
       write_sample "lr" (n * cycle + q) [pg_lr g]
     else ret tt
   else ret tt)%runner.

(** The body of [for epoch in epochs], threading the local [step]. The
    counter [epochs_since_start] is written and never read, and the progress
    bar only displays: neither is modelled. *)
Definition run_epoch (cycle : Z) (step0 : Z) (epoch : Z) : M runner Z :=
  (set_phase_temperature epoch ;;;
   step1 <- run_batches step0 ;;
   maybe_estimate_preconditioner epoch ;;;
   record_sample cycle epoch ;;;
   ret step1)%runner.

(** The body of [for cycle in range(self.cycles)]. *)
Definition run_cycle (cycle : Z) : M runner unit :=
  (E <- gets (fun r => epochs_per_cycle (cfg r)) ;;
   _ <- for_acc (range E) (run_epoch cycle) 0 ;;
   ret tt)%runner.

(** Line 68: the named parameters are transposed by [zip] and unpacked into
    the names and the tensors; with no tracked parameter there is nothing
    to unpack. *)
Definition unzip_named (ps : named_params)
  : outcome (list string * named_params) :=
  match ps with
  | [] => Raise ValueError
  | _ => Ok (fst <$> ps, ps)
  end.

Definition run : M runner unit :=
  (ps <- gets model ;;
   names_params <- lift (unzip_named ps) ;;
   modify (set_param_names (Some names_params.1)) ;;;
   c <- gets cfg ;;
   len <- gets dataset_len ;;
   let o := MkSGLD [ParamGroup (learning_rate c)
                      (IZR len * data_mult c)%R (momentum c)
                      (temperature c)] sgld_new in
   modify (set_optimizer (Some o)) ;;;
   dl <- gets dataloader ;;
   let schedule :=
     get_cosine_schedule (Z.of_nat (length dl) * epochs_per_cycle c) in
   let (sch, o') := LambdaLR_new schedule o in
   modify (set_optimizer (Some o')) ;;;
   modify (set_scheduler (Some sch)) ;;;
   for_each (range (cycles c)) run_cycle)%runner.

End Runner.

(** ** Specification vocabulary *)

Section Spec.
Context {batch S : Type} `{GP : GradientProvider batch} `{SA : Sampler S}.

Abbreviation runner := (runner batch S).

(** The loss that [step] computes on a batch. *)
Definition step_loss (r : runner) (xy : batch) : R :=
  potential_avg (model r) xy (temperature (cfg r)) (data_mult (cfg r)).

(** The parameters as [optimizer.step()] finds them. *)
Definition step_grads (r : runner) (xy : batch) : named_params :=
  clamp_grads (grad_max (cfg r))
    (backward xy (temperature (cfg r)) (data_mult (cfg r)) (model r)).

(** The three per-parameter series logged for one parameter. *)
Definition log_param (i : Z) (st : S) (nnp : string * (string * param))
    (r : runner) : runner :=
  add_scalar_eff ("est_config_temp/" +:+ nnp.1) (est_config_temp st nnp.2.1) i
    (add_scalar_eff ("est_temperature/" +:+ nnp.1)
       (est_temperature st nnp.2.1) i
       (add_scalar_eff ("preconditioner/" +:+ nnp.1)
          (preconditioner st nnp.2.1) i r)).

(** The same on the metrics alone. *)
Definition log_param_metrics (st : S) (nnp : string * (string * param))
    (m : gmap string (list R)) : gmap string (list R) :=
  append_metric ("est_config_temp/" +:+ nnp.1) (est_config_temp st nnp.2.1)
    (append_metric ("est_temperature/" +:+ nnp.1) (est_temperature st nnp.2.1)
       (append_metric ("preconditioner/" +:+ nnp.1)
          (preconditioner st nnp.2.1) m)).

(** The metrics after one [step]: [prev] is the loss of the step before
    when the step index is positive, and nothing otherwise. *)
Definition step_metrics (loss : R) (prev : option R) (lr : R) (st : S)
    (nps : list (string * (string * param))) (m : gmap string (list R))
  : gmap string (list R) :=
  let m1 := fold_left (fun m x => log_param_metrics st x m) nps m in
  let m2 := append_metric "loss" loss (append_metric "lr" lr m1) in
  match prev with
  | Some pl => append_metric "log_prob_accept" (pl - loss)%R m2
  | None => m2
  end.

(** The scheduler and the optimizer after the optional [scheduler.step()]. *)
Definition after_scheduler (lr_decay : bool) (sch : LambdaLR) (o : SGLD S)
  : LambdaLR * SGLD S :=
  if lr_decay then scheduler_step sch o else (sch, o).

(** The runner after one [step], metrics and summary writer apart. *)
Definition step_core (i : Z) (xy : batch) (lr_decay : bool) (o : SGLD S)
    (sch : LambdaLR) (r : runner) : runner :=
  let ps := step_grads r xy in
  let o' := (optimizer_step o ps).1 in
  set_prev_loss (Some (step_loss r xy))
    (set_optimizer (Some (after_scheduler lr_decay sch o').2)
       (set_scheduler (Some (after_scheduler lr_decay sch o').1)
          (set_model (optimizer_step o ps).2
             (log_event (EvOptStep i (param_groups o) ps)
                (log_event (EvPotential xy (temperature (cfg r))
                              (data_mult (cfg r))) r))))).

(** The learning rate of group 0 that [step] logs. *)
Definition logged_lr (lr_decay : bool) (sch : LambdaLR) (g : param_group)
    (b : R) : R :=
  if lr_decay then (b * lr_lambda sch (last_epoch sch + 1))%R else pg_lr g.

(** A metric series, empty while the name is unknown. *)
Definition mseries (m : gmap string (list R)) (name : string) : list R :=
  default [] (m !! name).

Definition series (r : runner) (name : string) : list R :=
  mseries (metrics r) name.

(** *** Vocabulary for [run] *)

(** Batches per epoch and scheduler steps per cycle. *)
Definition batches (r0 : runner) : Z := Z.of_nat (length (dataloader r0)).

Definition period (r0 : runner) : Z :=
  batches r0 * epochs_per_cycle (cfg r0).

(** What every call to a collaborator satisfies during [run] on the runner
    [r0] whose scheduler was built on the multiplier [lam]: the potential is
    asked at the configured temperature; the optimizer steps on a single
    group whose rate is the base rate times the multiplier at the count of
    steps taken so far (the steps of the [c] cycles done and the [i] steps of
    this one), whose temperature is that of the phase of the epoch [i]
    falls in, and on gradients that are those of the potential at the
    configured temperature, clamped. *)
Definition event_ok (r0 : runner) (lam : Z -> R) (ev : event batch) : Prop :=
  match ev with
  | EvPotential _ t dm =>
      t = temperature (cfg r0) /\ dm = data_mult (cfg r0)
  | EvOptStep i groups ps =>
      (exists c g,
          0 <= c < cycles (cfg r0) /\ 0 <= i < period r0 /\ groups = [g]
          /\ pg_lr g = (learning_rate (cfg r0) * lam (c * period r0 + i)%Z)%R
          /\ pg_temperature g = phase_temperature r0 (i / batches r0))
      /\ (exists xy ps0,
            fst <$> ps0 = fst <$> model r0
            /\ ps = clamp_grads (grad_max (cfg r0))
                      (backward xy (temperature (cfg r0))
                         (data_mult (cfg r0)) ps0))
  end.

(** Lines 103-104 and 107: whether an epoch records a sample, and where. *)
Definition sampling_epoch (r0 : runner) (epoch : Z) : Z :=
  epoch - (descent_epochs r0 + warmup_epochs (cfg r0)).

Definition records (r0 : runner) (epoch : Z) : Prop :=
  0 <= sampling_epoch r0 epoch
  /\ sampling_epoch r0 epoch mod skip (cfg r0) = 0.

Definition sample_index (r0 : runner) (cycle epoch : Z) : Z :=
  num_samples r0 * cycle + sampling_epoch r0 epoch / skip (cfg r0).

(** The index of the epoch's sample, if it records one, is one that a
    buffer of [N] slots accepts. *)
Definition write_ok (r0 : runner) (N : Z) (cycle epoch : Z) : Prop :=
  records r0 epoch -> - N <= sample_index r0 cycle epoch < N.

(** The keys of [_samples]. *)
Definition sample_keys (r0 : runner) : list string :=
  ((fun n => n +:+ ".p") <$> (fst <$> model r0)) ++ ["lr"].

Definition buffers_ok (r0 : runner) (N : Z) (r : runner) : Prop :=
  forall key, key ∈ sample_keys r0 ->
    exists buf, _samples r !! key = Some buf /\ Z.of_nat (length buf) = N.

(** The runner between two statements of [run]: [k] scheduler steps taken,
    the group at temperature [t]. *)
Definition run_inv (r0 : runner) (lam : Z -> R) (N : Z) (k : Z) (t : R)
    (r : runner) : Prop :=
  cfg r = cfg r0 /\ descent_epochs r = descent_epochs r0
  /\ num_samples r = num_samples r0 /\ dataloader r = dataloader r0
  /\ dataset_len r = dataset_len r0
  /\ fst <$> model r = fst <$> model r0
  /\ param_names r = Some (fst <$> model r0)
  /\ (exists g s, optimizer r = Some (MkSGLD [g] s)
                  /\ pg_lr g = (learning_rate (cfg r0) * lam k)%R
                  /\ pg_temperature g = t)
  /\ scheduler r = Some (MkLambdaLR lam [learning_rate (cfg r0)] k)
  /\ Forall (event_ok r0 lam) (trace r)
  /\ buffers_ok r0 N r.

(** Scheduler steps that a cycle really takes: none when there is no
    epoch to run. *)
Definition steps_per_cycle (r0 : runner) : Z :=
  batches r0 * Z.max 0 (epochs_per_cycle (cfg r0)).

(** Every sample that the cycles [0 .. n) record finds its slot. *)
Definition writes_ok (r0 : runner) (N : Z) (n : Z) : Prop :=
  forall c e, 0 <= c < n -> 0 <= e < epochs_per_cycle (cfg r0) ->
    write_ok r0 N c e.

(** A runner as [__init__] leaves it, with buffers of [N] slots. *)
Definition constructed (r0 : runner) (lam : Z -> R) (N : Z) : Prop :=
  buffers_ok r0 N r0 /\ skip (cfg r0) <> 0
  /\ Forall (event_ok r0 lam) (trace r0).

(** Why [run] may raise. *)
Definition exn_cause (r0 : runner) (N : Z) (e : exn) : Prop :=
  (e = ValueError /\ model r0 = [])
  \/ (e = ZeroDivisionError /\ precond_update (cfg r0) = Some 0)
  \/ (e = IndexError
      /\ exists c ep, 0 <= c < cycles (cfg r0)
                      /\ 0 <= ep < epochs_per_cycle (cfg r0)
                      /\ ~ write_ok r0 N c ep).

(** Modelled from the spec: [get_cosine_schedule] of [bnn_priors/utils.py]
    is not among the verified sources. The spec (4.3) describes the
    multiplier it returns for a period of [T] steps as a "cosine decay from 1
    to 0 over the full [epochs_per_cycle x batches_per_epoch] steps, reset at
    the start of every cycle": it is 1 at step 0, decreases strictly within
    a period, and starts again every [T] steps. *)
Definition cosine_schedule_spec (T : Z) (lam : Z -> R) : Prop :=
  lam 0 = 1%R
  /\ (forall j k, 0 <= j < k -> k < T -> (lam k < lam j)%R)
  /\ (forall k, 0 <= k -> lam (k + T) = lam k).

(** The learning rate in force at an optimizer step of index [i]. *)
Definition lr_at (tr : list (event batch)) (i : Z) (lr : R) : Prop :=
  exists g ps, EvOptStep i [g] ps ∈ tr /\ pg_lr g = lr.

(** What holds of the runner when [run] has raised. *)
Definition run_exn (r0 : runner) (lam : Z -> R) (N : Z) (ex : exn)
    (r : runner) : Prop :=
  cfg r = cfg r0 /\ Forall (event_ok r0 lam) (trace r) /\ exn_cause r0 N ex.

(** Hoare triples of the state-and-exception monad, with a postcondition
    for each kind of outcome. *)
Definition hoare {A} (P : runner -> Prop) (m : M runner A)
    (Q : A -> runner -> Prop) (X : exn -> runner -> Prop) : Prop :=
  forall r, P r ->
    match m r with
    | (Ok a, r') => Q a r'
    | (Raise e, r') => X e r'
    end.

(** [r'] differs from [r] in the metrics and the summary writer only. *)
Definition only_metrics (r r' : runner) : Prop :=
  exists m w, r' = set_summary_writer w (set_metrics m r).

End Spec.

(** ** A concrete schedule and concrete collaborators *)

(** Modelled from the spec: [get_cosine_schedule] of [bnn_priors/utils.py]
    is not among the verified sources; this is one multiplier that is a
    "cosine decay from 1 to 0 over the full [T] steps, reset at the start of
    every cycle" (spec 4.3): half a cosine wave over the position of the
    step in its period. *)
Definition cosine_schedule (T : Z) (k : Z) : R :=
  ((1 + cos (PI * IZR (k mod T) / IZR T)) / 2)%R.

(** A model of one scalar weight with a constant potential and gradient,
    and a sampler that leaves the weight where it is: enough to run the
    runner on concrete inputs. *)
Definition toy_params : named_params := [("w", Param [1%R] [])].

#[export] Instance toy_model : GradientProvider unit := {|
  potential_avg := fun _ _ _ _ => 7%R;
  potential_grad := fun _ _ _ _ _ => [5%R]
|}.

#[export] Instance toy_sampler : Sampler unit := {|
  sgld_new := tt;
  sgld_update := fun _ _ _ _ p => p_value p;
  sgld_advance := fun _ _ s => s;
  estimate_preconditioner := fun _ _ s => s;
  preconditioner := fun _ _ => 1%R;
  est_temperature := fun _ _ => 2%R;
  est_config_temp := fun _ _ => 3%R
|}.

(** The runner built on the toy model with one batch per epoch, and what
    construction makes of it. *)
Definition toy_init (c : config) : outcome (runner unit unit) :=
  __init__ toy_params [tt] 1 c None.

Definition toy_runner (c : config) : runner unit unit :=
  let n := Z.to_nat (sample_epochs c / skip c * cycles c) in
  Runner c (epochs_per_cycle c - warmup_epochs c - sample_epochs c)
    (sample_epochs c / skip c) [tt] 1 toy_params None
    (<["lr" := replicate n [0%R]]> (<["w.p" := replicate n [0%R]]> ∅))
    ∅ None None None None [].

(** The toy runner as [run] has set it up, one step done with loss 7. *)
Definition toy_running (c : config) : runner unit unit :=
  set_prev_loss (Some 7%R)
    (set_scheduler (Some (MkLambdaLR (cosine_schedule 4) [learning_rate c] 1))
       (set_optimizer
          (Some (MkSGLD [ParamGroup (learning_rate c) 1 (momentum c)
                           (temperature c)] tt))
          (set_param_names (Some ["w"]) (toy_runner c)))).

(** ** The Metropolis-Hastings protocol of the sampler *)

Module VerletSGLD.
Section Model.

(** [bnn_priors.mcmc.VerletSGLD] is not among the verified sources, only
    its test [testing/test_verlet_sgld.py] is: the sampler is written from
    spec 4.1. What the half steps and the full step do to the values, the
    momenta and the random generator is left open ([dynamics]), and so are
    the potential closure and the uniform draw. *)
Variable G : Type.
Variable potential : list tensor -> R.
Variable uniform : G -> R * G.

Inductive kind : Type := Initial | Interior | Final.

Variable dynamics :
  kind -> list tensor * list tensor * G -> list tensor * list tensor * G.

(** Modelled from the spec: the state of [VerletSGLD], which is missing
    from the sources. Spec 3, SamplerState: a momentum buffer per parameter;
    spec 4.1: the copy of "all parameter values and momenta" that
    [initial_step] may store. *)
Record sampler : Type := MkSampler {
  params : list tensor;
  momentum_buffer : list tensor;
  rng : G;
  temperature : R;
  saved_state : option (list tensor * list tensor)
}.

(** Modelled from the spec: the update of a step of [VerletSGLD], which is
    missing; it changes values, momenta and generator, and neither the
    temperature nor the stored copy (a "deep copy", spec 4.1). *)
Definition evolve (k : kind) (s : sampler) : sampler :=
  let '(p, m, g) := dynamics k (params s, momentum_buffer s, rng s) in
  MkSampler p m g (temperature s) (saved_state s).

(** Modelled from the spec: the snapshot taken by the missing
    [VerletSGLD.initial_step], "a deep copy of all parameter values and
    momenta before mutating" (spec 4.1). *)
Definition save (s : sampler) : sampler :=
  MkSampler (params s) (momentum_buffer s) (rng s) (temperature s)
    (Some (params s, momentum_buffer s)).

(** Modelled from the spec: [VerletSGLD.initial_step(potential_fn,
    save_state) -> loss], missing from the sources: it "optionally stores a
    deep copy of all parameter values and momenta before mutating, to allow
    restoration on rejection" (spec 4.1). As the test uses it, the loss
    returned is the potential at the values the step starts from. *)
Definition initial_step (save_state : bool) (s : sampler) : R * sampler :=
  (potential (params s), evolve Initial (if save_state then save s else s)).

(** Modelled from the spec: [VerletSGLD.step(potential_fn) -> loss], missing
    from the sources: "one full discretized Langevin update" (spec 4.1). *)
Definition step (s : sampler) : R * sampler :=
  (potential (params s), evolve Interior s).

(** Modelled from the spec: [VerletSGLD.final_step(potential_fn) -> loss],
    missing from the sources: it "completes the paired half-step begun by
    [initial_step]" (spec 4.1). *)
Definition final_step (s : sampler) : R * sampler :=
  (potential (params s), evolve Final s).

(** Modelled from the spec: [VerletSGLD.maybe_reject(delta_energy) -> bool],
    missing from the sources: it "draws u~Uniform(0,1); rejects (restoring
    saved state from [initial_step]) iff u > exp(-delta_energy/temperature);
    returns whether rejected" (spec 4.1). Rejecting with nothing saved is a
    violation of the protocol, which "must fail loudly" (spec 7). *)
Definition maybe_reject (delta_energy : R) (s : sampler)
  : outcome (bool * sampler) :=
  let (u, g) := uniform (rng s) in
  if Rlt_dec (exp (- delta_energy / temperature s)) u then
    match saved_state s with
    | Some (p, m) => Ok (true, MkSampler p m g (temperature s) (saved_state s))
    | None => Raise RuntimeError
    end
  else
    Ok (false, MkSampler (params s) (momentum_buffer s) g (temperature s)
                 (saved_state s)).

(** The trajectory of [test_distribution_preservation] between two
    Metropolis-Hastings decisions (lines 78-101 of the test):
    [initial_step(save_state=True)], [n] full steps, [final_step]. *)
Definition trajectory (n : nat) (s : sampler) : R * sampler :=
  let (prev_loss, s1) := initial_step true s in
  (prev_loss, (final_step (Nat.iter n (fun s => (step s).2) s1)).2).

End Model.

Arguments MkSampler {G} _ _ _ _ _.
Arguments params {G} _.
Arguments momentum_buffer {G} _.
Arguments rng {G} _.
Arguments temperature {G} _.
Arguments saved_state {G} _.
Arguments evolve {G} _ _ _.
Arguments save {G} _.
Arguments initial_step {G} _ _ _ _.
Arguments step {G} _ _ _.
Arguments final_step {G} _ _ _.
Arguments maybe_reject {G} _ _ _.
Arguments trajectory {G} _ _ _ _.

End VerletSGLD.

(** A further change of one argument of a configuration. *)
Definition with_precond_update (k : option Z) (c : config) : config :=
  {| epochs_per_cycle := epochs_per_cycle c; warmup_epochs := warmup_epochs c;
     sample_epochs := sample_epochs c; learning_rate := learning_rate c;
     skip := skip c; temperature := temperature c; data_mult := data_mult c;
     momentum := momentum c; sampling_decay := sampling_decay c;
     grad_max := grad_max c; cycles := cycles c;
     precond_update := k |}.

(** ** Vocabulary for what a method never does *)

Section Frame.
Context {batch S : Type}.

Abbreviation runner := (runner batch S).

(** [m] keeps [P], whether it returns or raises. *)
Definition preserves {A} (P : runner -> Prop) (m : M runner A) : Prop :=
  forall r, P r -> P (m r).2.

(** The attributes that only [__init__] assigns. *)
Definition same_setup (r r' : runner) : Prop :=
  cfg r' = cfg r /\ descent_epochs r' = descent_epochs r
  /\ num_samples r' = num_samples r /\ dataloader r' = dataloader r
  /\ dataset_len r' = dataset_len r.

(** Every metric series of [r] is the beginning of that of [r']. *)
Definition metrics_grow (r r' : runner) : Prop :=
  forall name, series r name `prefix_of` series r' name.

(** The sample buffers of [r'] have the keys and the numbers of slots of
    those of [r]. *)
Definition same_slots (r r' : runner) : Prop :=
  forall key,
    length <$> (_samples r' !! key) = length <$> (_samples r !! key).

End Frame.

(** ** What [run] leaves in the metrics and in the "lr" buffer *)

Section Logs.
Context {batch S : Type} `{GP : GradientProvider batch} `{SA : Sampler S}.

Abbreviation runner := (runner batch S).

(** The rates that the first [k] steps of [run] log, the scheduler having
    been built on the multiplier [lam]: the step of count [j] logs the rate
    that the scheduler has just set for the step after it. *)
Definition logged_lrs (r0 : runner) (lam : Z -> R) (k : Z) : list R :=
  (fun j => (learning_rate (cfg r0) * lam j)%R) <$> seqZ 1 k.

(** The metrics after [k] steps, [a] of them of positive index. *)
Definition metrics_after (r0 : runner) (lam : Z -> R) (k a : Z)
    (r : runner) : Prop :=
  series r "lr" = logged_lrs r0 lam k
  /\ Z.of_nat (length (series r "loss")) = k
  /\ Z.of_nat (length (series r "log_prob_accept")) = a.

(** The rate in force when the epoch [e] of the cycle [c] has run its
    batches. *)
Definition lr_after_epoch (r0 : runner) (lam : Z -> R) (c e : Z) : R :=
  (learning_rate (cfg r0) * lam (c * period r0 + (e + 1) * batches r0)%Z)%R.

(** A configuration in which the samples of a cycle fill its slots: [skip]
    is positive and divides [sample_epochs], and [num_samples] and
    [descent_epochs] are as [__init__] computes them. *)
Definition slots_regular (r0 : runner) : Prop :=
  0 < skip (cfg r0) /\ (skip (cfg r0) | sample_epochs (cfg r0))
  /\ num_samples r0 = sample_epochs (cfg r0) / skip (cfg r0)
  /\ descent_epochs r0
     = epochs_per_cycle (cfg r0) - warmup_epochs (cfg r0)
       - sample_epochs (cfg r0).

(** The "lr" buffer when the cycles before [c] and the epochs before [e] of
    the cycle [c] are done: every epoch among them that records has left
    the rate then in force in its slot. *)
Definition lr_buffer_ok (r0 : runner) (lam : Z -> R) (c e : Z)
    (bufs : gmap string (list tensor)) : Prop :=
  slots_regular r0 ->
  exists buf, bufs !! "lr" = Some buf
    /\ forall c' e', 0 <= c' -> 0 <= e' < epochs_per_cycle (cfg r0) ->
         c' < c \/ (c' = c /\ e' < e) -> records r0 e' ->
         buf !! Z.to_nat (sample_index r0 c' e')
         = Some [lr_after_epoch r0 lam c' e'].

(** The parameter buffers just after the epoch [e] of the cycle [c], when
    that epoch records: its slot holds the current value of every tracked
    parameter. *)
Definition snapshot_ok (r0 : runner) (c e : Z) (r : runner) : Prop :=
  slots_regular r0 -> NoDup (fst <$> model r0) -> records r0 e ->
  forall name p, (name, p) ∈ model r ->
    exists buf, _samples r !! (name +:+ ".p") = Some buf
      /\ buf !! Z.to_nat (sample_index r0 c e) = Some (p_value p).

End Logs.

(** ** The summary writer *)

Section Writer.
Context {batch S : Type}.

Abbreviation runner := (runner batch S).

(** The values that a summary writer has received under a name, in the
    order of the calls. *)
Definition writer_values (name : string) (w : list (string * R * Z))
  : list R :=
  (fun x => x.1.2) <$> filter (fun x => x.1.1 = name) w.

(** The summary writer, when there is one, has received under every name
    the values of the metric of that name. *)
Definition writer_agrees (r : runner) : Prop :=
  forall w, summary_writer r = Some w ->
    forall name, writer_values name w = default [] (metrics r !! name).

End Writer.

Section Proofs.
Context {batch S : Type} `{GP : GradientProvider batch} `{SA : Sampler S}.
Variable get_cosine_schedule : Z -> Z -> R.

Abbreviation runner := (runner batch S).

Lemma bind_gets {A B} (f : runner -> A) (k : A -> M runner B) r :
  bind (gets f) k r = k (f r) r.
Proof. reflexivity. Qed.

Lemma bind_modify {B} (f : runner -> runner) (k : unit -> M runner B) r :
  bind (modify f) k r = k tt (f r).
Proof. reflexivity. Qed.

Lemma bind_ret {A B} (a : A) (k : A -> M runner B) r :
  bind (ret a) k r = k a r.
Proof. reflexivity. Qed.

Lemma bind_lift_ok {A B} (a : A) (k : A -> M runner B) r :
  bind (lift (Ok a)) k r = k a r.
Proof. reflexivity. Qed.

Lemma bind_lift_raise {A B} e (k : A -> M runner B) r :
  bind (lift (Raise e)) k r = (Raise e, r).
Proof. reflexivity. Qed.

Lemma bind_attr_some {A B} (f : runner -> option A) (k : A -> M runner B) r a :
  f r = Some a -> bind (attr f) k r = k a r.
Proof. intros H. unfold bind, attr. by rewrite H. Qed.

Lemma bind_attr_none {A B} (f : runner -> option A) (k : A -> M runner B) r :
  f r = None -> bind (attr f) k r = (Raise AttributeError, r).
Proof. intros H. unfold bind, attr. by rewrite H. Qed.

Lemma bind_assoc {A B C} (m : M runner A) (k : A -> M runner B)
    (k' : B -> M runner C) r :
  bind (bind m k) k' r = bind m (fun a => bind (k a) k') r.
Proof. unfold bind. destruct (m r) as [[a|e] r']; reflexivity. Qed.

Lemma bind_add_scalar {B} n v s (k : unit -> M runner B) r :
  bind (add_scalar n v s) k r = k tt (add_scalar_eff n v s r).
Proof. reflexivity. Qed.

Lemma for_each_eff {B} (l : list B) (body : B -> M runner unit)
    (eff : B -> runner -> runner) r :
  (forall x r, body x r = (Ok tt, eff x r)) ->
  for_each l body r = (Ok tt, fold_left (fun r x => eff x r) l r).
Proof.
  intros Hb. unfold for_each. revert r.
  induction l as [|x l IH]; intros r; [reflexivity|].
  cbn [for_acc fold_left]. unfold bind at 1. rewrite Hb. apply IH.
Qed.

(** [only_metrics] is a preorder, and the logging functions respect it. *)
Lemma only_metrics_refl (r : runner) : only_metrics r r.
Proof. exists (metrics r), (summary_writer r). by destruct r. Qed.

Lemma only_metrics_trans (r1 r2 r3 : runner) :
  only_metrics r1 r2 -> only_metrics r2 r3 -> only_metrics r1 r3.
Proof. intros (m & w & ->) (m' & w' & ->). by exists m', w'. Qed.

Lemma add_scalar_only_metrics n v s (r : runner) :
  only_metrics r (add_scalar_eff n v s r).
Proof.
  unfold add_scalar_eff. cbn.
  destruct (summary_writer r) as [w|]; eexists _, _; reflexivity.
Qed.

Lemma log_param_only_metrics i st nnp (r : runner) :
  only_metrics r (log_param i st nnp r).
Proof.
  unfold log_param.
  eapply only_metrics_trans; [|apply add_scalar_only_metrics].
  eapply only_metrics_trans; [|apply add_scalar_only_metrics].
  apply add_scalar_only_metrics.
Qed.

Lemma fold_only_metrics {B} (eff : B -> runner -> runner) l (r : runner) :
  (forall x r, only_metrics r (eff x r)) ->
  only_metrics r (fold_left (fun r x => eff x r) l r).
Proof.
  intros H. revert r. induction l as [|x l IH]; intros r; cbn.
  - apply only_metrics_refl.
  - eapply only_metrics_trans; [apply H | apply IH].
Qed.

(** Normal form of a state after logging. *)
Lemma add_scalar_nf n v s (r : runner) m w :
  exists w', add_scalar_eff n v s (set_summary_writer w (set_metrics m r))
             = set_summary_writer w' (set_metrics (append_metric n v m) r).
Proof. unfold add_scalar_eff. cbn. destruct w; eexists; reflexivity. Qed.

Lemma log_param_nf i st nnp (r : runner) m w :
  exists w', log_param i st nnp (set_summary_writer w (set_metrics m r))
             = set_summary_writer w' (set_metrics (log_param_metrics st nnp m) r).
Proof.
  unfold log_param, log_param_metrics.
  destruct (add_scalar_nf ("preconditioner/" +:+ nnp.1)
              (preconditioner st nnp.2.1) i r m w) as [w1 ->].
  destruct (add_scalar_nf ("est_temperature/" +:+ nnp.1)
              (est_temperature st nnp.2.1) i r
              (append_metric ("preconditioner/" +:+ nnp.1)
                 (preconditioner st nnp.2.1) m) w1) as [w2 ->].
  apply add_scalar_nf.
Qed.

Lemma fold_log_param_nf i st nps (r : runner) m w :
  exists w', fold_left (fun r x => log_param i st x r) nps
               (set_summary_writer w (set_metrics m r))
             = set_summary_writer w'
                 (set_metrics (fold_left (fun m x => log_param_metrics st x m)
                                 nps m) r).
Proof.
  revert m w. induction nps as [|x nps IH]; intros m w; cbn [fold_left].
  - by exists w.
  - destruct (log_param_nf i st x r m w) as [w1 ->]. apply IH.
Qed.

Lemma runner_nf (r : runner) :
  r = set_summary_writer (summary_writer r) (set_metrics (metrics r) r).
Proof. by destruct r. Qed.

Lemma set_scheduler_id (r : runner) sch :
  scheduler r = Some sch -> set_scheduler (Some sch) r = r.
Proof. destruct r; cbn; by intros ->. Qed.

Lemma step_spec r i xy lr_decay o g gs sch b bs names pl :
  optimizer r = Some o -> param_groups o = g :: gs ->
  scheduler r = Some sch -> base_lrs sch = b :: bs ->
  param_names r = Some names ->
  (i > 0 -> prev_loss r = Some pl) ->
  exists w,
    step i xy lr_decay r
    = (Ok (step_loss r xy),
       set_summary_writer w
         (set_metrics
            (step_metrics (step_loss r xy)
               (if decide (i > 0) then Some pl else None)
               (logged_lr lr_decay sch g b)
               (sgld_advance (param_groups o) (step_grads r xy) (sgld_state o))
               (zip names (optimizer_step o (step_grads r xy)).2)
               (metrics r))
            (step_core i xy lr_decay o sch r))).
Proof.
  intros Ho Hg Hs Hb Hn Hp.
  unfold step.
  rewrite (bind_attr_some _ _ _ _ Ho).
  rewrite !bind_gets, !bind_modify.
  unfold group0 at 1. rewrite Hg, bind_lift_ok.
  rewrite !bind_gets, !bind_modify, !bind_gets. cbn [model set_model log_event cfg].
  rewrite bind_modify.
  unfold step_core, step_grads, step_loss.
  set (ps := clamp_grads _ _).
  set (loss := potential_avg _ _ _ _).
  destruct (optimizer_step o ps) as [o' ps'] eqn:Eo.
  assert (Hgo' : param_groups o' = g :: gs).
  { unfold optimizer_step in Eo. injection Eo as <- _. cbn. by rewrite Hg. }
  assert (Hso' : sgld_state o' = sgld_advance (g :: gs) ps (sgld_state o)).
  { unfold optimizer_step in Eo. injection Eo as <- _. cbn. by rewrite Hg. }
  rewrite !bind_modify.
  match goal with
  | |- context [bind (if lr_decay then ?m else _) ?k ?r0] =>
      assert (Hsched : exists sch' o'',
                after_scheduler lr_decay sch o' = (sch', o'')
                /\ param_groups o'' =
                     set_lr (logged_lr lr_decay sch g b) g
                     :: match lr_decay with
                        | true => apply_lrs (lr_lambda sch) (last_epoch sch + 1) bs gs
                        | false => gs
                        end
                /\ sgld_state o'' = sgld_state o'
                /\ bind (if lr_decay then m else ret tt) k r0
                   = k tt (set_optimizer (Some o'') (set_scheduler (Some sch') r0)))
  end.
  { destruct lr_decay; cbn [after_scheduler logged_lr].
    - exists (scheduler_step sch o').1, (scheduler_step sch o').2.
      split; [by destruct (scheduler_step sch o')|].
      rewrite (bind_assoc (attr scheduler)).
      rewrite (bind_attr_some _ _ _ sch) by (cbn; exact Hs).
      unfold scheduler_step. cbn [fst snd param_groups sgld_state].
      rewrite (bind_assoc (modify _)), !bind_modify.
      rewrite Hgo', Hb. repeat split.
    - exists sch, o'. split; [reflexivity|]. rewrite Hgo'. repeat split.
      + by destruct g.
      + rewrite bind_ret. rewrite set_scheduler_id by (cbn; exact Hs).
        reflexivity. }
  destruct Hsched as (sch' & o'' & Es & Hgo'' & Hso'' & ->).
  rewrite (bind_attr_some _ _ _ names) by (cbn; exact Hn).
  rewrite (bind_attr_some _ _ _ o'') by reflexivity.
  rewrite bind_gets. cbn [model set_model set_optimizer set_scheduler].
  unfold bind at 1.
  rewrite (for_each_eff _ _ (log_param i (sgld_state o''))) by reflexivity.
  cbn [fst snd].
  match goal with |- context [fold_left _ _ ?r0] => set (r1 := r0) end.
  rewrite (runner_nf r1).
  destruct (fold_log_param_nf i (sgld_state o'') (zip names ps') r1
              (metrics r1) (summary_writer r1)) as [w1 ->].
  unfold group0. rewrite Hgo'', bind_lift_ok, !bind_add_scalar.
  cbn [pg_lr set_lr].
  destruct (add_scalar_nf "lr" (logged_lr lr_decay sch g b) i r1
              (fold_left (fun m x => log_param_metrics (sgld_state o'') x m)
                 (zip names ps') (metrics r1)) w1) as [w2 ->].
  match goal with |- context [add_scalar_eff "loss" _ _ (set_summary_writer _ (set_metrics ?m _))] =>
    destruct (add_scalar_nf "loss" loss i r1 m w2) as [w3 ->] end.
  unfold step_metrics. rewrite Hso'', Hso'.
  destruct (decide (i > 0)) as [Hi|Hi].
  - rewrite (bind_assoc (attr prev_loss)).
    rewrite (bind_attr_some _ _ _ pl) by (cbn; auto).
    rewrite bind_add_scalar.
    match goal with |- context [add_scalar_eff "log_prob_accept" _ _ (set_summary_writer _ (set_metrics ?m _))] =>
      destruct (add_scalar_nf "log_prob_accept" (pl - loss)%R (i - 1) r1 m w3) as [w4 ->] end.
    rewrite bind_modify, Es, Hg. exists w4. subst r1. reflexivity.
  - rewrite bind_ret, bind_modify, Es, Hg. exists w3. subst r1. reflexivity.
Qed.

(** *** Metric series *)

Lemma mseries_append_eq m n v :
  mseries (append_metric n v m) n = mseries m n ++ [v].
Proof. unfold mseries, append_metric. by rewrite lookup_insert_eq. Qed.

Lemma mseries_append_ne m n k v :
  n <> k -> mseries (append_metric n v m) k = mseries m k.
Proof. intros H. unfold mseries, append_metric. by rewrite lookup_insert_ne. Qed.

Lemma mseries_append_prefix m n k v :
  mseries m k `prefix_of` mseries (append_metric n v m) k.
Proof.
  destruct (decide (n = k)) as [->|Hne].
  - rewrite mseries_append_eq. by apply prefix_app_r.
  - by rewrite mseries_append_ne.
Qed.

Ltac name_neq := let H := fresh in intros H; simplify_eq/=; done.

Lemma log_param_metrics_other st x m k :
  k <> "preconditioner/" +:+ x.1 -> k <> "est_temperature/" +:+ x.1 ->
  k <> "est_config_temp/" +:+ x.1 ->
  mseries (log_param_metrics st x m) k = mseries m k.
Proof.
  intros H1 H2 H3. unfold log_param_metrics.
  rewrite !mseries_append_ne; auto.
Qed.

Lemma log_param_metrics_pre st x m :
  mseries (log_param_metrics st x m) ("preconditioner/" +:+ x.1)
  = mseries m ("preconditioner/" +:+ x.1) ++ [preconditioner st x.2.1].
Proof.
  unfold log_param_metrics.
  do 2 (rewrite mseries_append_ne by name_neq). apply mseries_append_eq.
Qed.

Lemma log_param_metrics_et st x m :
  mseries (log_param_metrics st x m) ("est_temperature/" +:+ x.1)
  = mseries m ("est_temperature/" +:+ x.1) ++ [est_temperature st x.2.1].
Proof.
  unfold log_param_metrics.
  rewrite mseries_append_ne by name_neq. rewrite mseries_append_eq.
  by rewrite mseries_append_ne by name_neq.
Qed.

Lemma log_param_metrics_ec st x m :
  mseries (log_param_metrics st x m) ("est_config_temp/" +:+ x.1)
  = mseries m ("est_config_temp/" +:+ x.1) ++ [est_config_temp st x.2.1].
Proof.
  unfold log_param_metrics. rewrite mseries_append_eq.
  by do 2 (rewrite mseries_append_ne by name_neq).
Qed.

Lemma log_param_metrics_prefix st x m k :
  mseries m k `prefix_of` mseries (log_param_metrics st x m) k.
Proof.
  unfold log_param_metrics.
  etrans; [|apply mseries_append_prefix].
  etrans; [|apply mseries_append_prefix].
  apply mseries_append_prefix.
Qed.

Lemma fold_log_other st nps m k :
  (forall x, x ∈ nps ->
     k <> "preconditioner/" +:+ x.1 /\ k <> "est_temperature/" +:+ x.1
     /\ k <> "est_config_temp/" +:+ x.1) ->
  mseries (fold_left (fun m x => log_param_metrics st x m) nps m) k
  = mseries m k.
Proof.
  revert m. induction nps as [|x nps IH]; intros m H; [reflexivity|].
  cbn [fold_left]. rewrite IH.
  - destruct (H x) as (? & ? & ?); [left|]. by apply log_param_metrics_other.
  - intros y Hy. apply H. by right.
Qed.

Lemma fold_log_prefix st nps m k :
  mseries m k
  `prefix_of` mseries (fold_left (fun m x => log_param_metrics st x m) nps m) k.
Proof.
  revert m. induction nps as [|x nps IH]; intros m; [reflexivity|].
  cbn [fold_left]. etrans; [apply (log_param_metrics_prefix st x)|apply IH].
Qed.

(** With distinct parameter names, each parameter's three series grow by
    exactly the value read for that parameter. *)
Lemma fold_log_param st (nps : list (string * (string * param))) m x :
  NoDup (fst <$> nps) -> x ∈ nps ->
  let m' := fold_left (fun m x => log_param_metrics st x m) nps m in
  mseries m' ("preconditioner/" +:+ x.1)
  = mseries m ("preconditioner/" +:+ x.1) ++ [preconditioner st x.2.1]
  /\ mseries m' ("est_temperature/" +:+ x.1)
    = mseries m ("est_temperature/" +:+ x.1) ++ [est_temperature st x.2.1]
  /\ mseries m' ("est_config_temp/" +:+ x.1)
    = mseries m ("est_config_temp/" +:+ x.1) ++ [est_config_temp st x.2.1].
Proof.
  revert m. induction nps as [|y nps IH]; intros m Hnd Hx; cbn zeta.
  { by apply elem_of_nil in Hx. }
  rewrite fmap_cons in Hnd. apply NoDup_cons in Hnd as [Hy Hnd].
  cbn [fold_left].
  apply elem_of_cons in Hx as [->|Hx].
  - rewrite !fold_log_other.
    + rewrite log_param_metrics_pre, log_param_metrics_et,
        log_param_metrics_ec. done.
    + intros z Hz. assert (z.1 <> y.1).
      { intros E. apply Hy. rewrite <- E. by apply list_elem_of_fmap_2. }
      repeat split; name_neq.
    + intros z Hz. assert (z.1 <> y.1).
      { intros E. apply Hy. rewrite <- E. by apply list_elem_of_fmap_2. }
      repeat split; name_neq.
    + intros z Hz. assert (z.1 <> y.1).
      { intros E. apply Hy. rewrite <- E. by apply list_elem_of_fmap_2. }
      repeat split; name_neq.
  - assert (x.1 <> y.1).
    { intros E. apply Hy. rewrite <- E. by apply list_elem_of_fmap_2. }
    destruct (IH (log_param_metrics st y m) Hnd Hx) as (-> & -> & ->).
    rewrite !log_param_metrics_other by name_neq. done.
Qed.

(** The parameter names are those of the model throughout a step. *)
Lemma backward_names xy T dm (ps : named_params) :
  fst <$> backward xy T dm ps = fst <$> ps.
Proof. unfold backward. rewrite <- list_fmap_compose. by apply list_fmap_ext. Qed.

Lemma clamp_grads_names gmax (ps : named_params) :
  fst <$> clamp_grads gmax ps = fst <$> ps.
Proof.
  unfold clamp_grads. rewrite <- list_fmap_compose. by apply list_fmap_ext.
Qed.

Lemma optimizer_step_names (o : SGLD S) (ps : named_params) :
  fst <$> (optimizer_step o ps).2 = fst <$> ps.
Proof.
  unfold optimizer_step. cbn [snd].
  rewrite <- list_fmap_compose. by apply list_fmap_ext.
Qed.

Lemma step_grads_names (r : runner) xy :
  fst <$> step_grads r xy = fst <$> model r.
Proof. unfold step_grads. by rewrite clamp_grads_names, backward_names. Qed.

Lemma zip_names {A} (l : list (string * A)) :
  zip (fst <$> l) l = (fun x => (x.1, x)) <$> l.
Proof. induction l as [|x l IH]; [done|]. cbn. by rewrite <- IH. Qed.

Lemma step_metrics_prefix loss prev lr st nps m k :
  mseries m k `prefix_of` mseries (step_metrics loss prev lr st nps m) k.
Proof.
  unfold step_metrics.
  assert (mseries m k `prefix_of`
          mseries (append_metric "loss" loss (append_metric "lr" lr
            (fold_left (fun m x => log_param_metrics st x m) nps m))) k) as H.
  { etrans; [apply (fold_log_prefix st nps)|].
    etrans; [|apply mseries_append_prefix]. apply mseries_append_prefix. }
  destruct prev; [|done].
  etrans; [exact H | apply mseries_append_prefix].
Qed.

(** C9: every call of [step] on a runner that [run] has set up succeeds and
    appends exactly one value to the series "lr" and "loss" and to the three
    series of every tracked parameter; it appends the previous loss minus the
    current one to "log_prob_accept" when the step index is positive and
    nothing there otherwise; every series keeps what it had as a prefix. *)
Theorem step_appends_metrics (r : runner) i xy lr_decay o g gs sch b bs pl :
  optimizer r = Some o -> param_groups o = g :: gs ->
  scheduler r = Some sch -> base_lrs sch = b :: bs ->
  param_names r = Some (fst <$> model r) -> NoDup (fst <$> model r) ->
  (i > 0 -> prev_loss r = Some pl) ->
  exists r',
    let loss := step_loss r xy in
    let st := sgld_advance (param_groups o) (step_grads r xy) (sgld_state o) in
    step i xy lr_decay r = (Ok loss, r')
    /\ series r' "lr" = series r "lr" ++ [logged_lr lr_decay sch g b]
    /\ series r' "loss" = series r "loss" ++ [loss]
    /\ (forall n, n ∈ fst <$> model r ->
          series r' ("preconditioner/" +:+ n)
          = series r ("preconditioner/" +:+ n) ++ [preconditioner st n]
          /\ series r' ("est_temperature/" +:+ n)
            = series r ("est_temperature/" +:+ n) ++ [est_temperature st n]
          /\ series r' ("est_config_temp/" +:+ n)
            = series r ("est_config_temp/" +:+ n) ++ [est_config_temp st n])
    /\ (i > 0 ->
          series r' "log_prob_accept"
          = series r "log_prob_accept" ++ [(pl - loss)%R])
    /\ (i <= 0 -> series r' "log_prob_accept" = series r "log_prob_accept")
    /\ (forall k, series r k `prefix_of` series r' k)
    /\ prev_loss r' = Some loss.
Proof.
  intros Ho Hg Hs Hb Hn Hnd Hp.
  destruct (step_spec r i xy lr_decay o g gs sch b bs _ pl Ho Hg Hs Hb Hn Hp)
    as [w Hstep].
  eexists. cbn zeta. split; [exact Hstep|].
  unfold series. cbn [metrics set_summary_writer set_metrics prev_loss
                      step_core set_prev_loss].
  set (st := sgld_advance _ _ _).
  set (ps' := (optimizer_step o (step_grads r xy)).2).
  assert (Hnames : fst <$> ps' = fst <$> model r).
  { unfold ps'. by rewrite optimizer_step_names, step_grads_names. }
  rewrite <- Hnames, zip_names.
  set (nps := (fun x : string * param => (x.1, x)) <$> ps').
  assert (Hnps : fst <$> nps = fst <$> model r).
  { unfold nps. rewrite <- list_fmap_compose. exact Hnames. }
  assert (Hother : forall k,
            (forall n, k <> "preconditioner/" +:+ n
                       /\ k <> "est_temperature/" +:+ n
                       /\ k <> "est_config_temp/" +:+ n) ->
            mseries (fold_left (fun m x => log_param_metrics st x m) nps
                       (metrics r)) k = mseries (metrics r) k).
  { intros k Hk. apply fold_log_other. intros x _. apply Hk. }
  assert (Hlpa : forall v,
            mseries (append_metric "loss" (step_loss r xy)
                       (append_metric "lr" v
                          (fold_left (fun m x => log_param_metrics st x m) nps
                             (metrics r)))) "log_prob_accept"
            = mseries (metrics r) "log_prob_accept").
  { intros v. do 2 (rewrite mseries_append_ne by name_neq).
    apply Hother. intros n. repeat split; name_neq. }
  repeat split.
  - unfold step_metrics.
    assert (mseries (append_metric "loss" (step_loss r xy)
              (append_metric "lr" (logged_lr lr_decay sch g b)
                 (fold_left (fun m x => log_param_metrics st x m) nps
                    (metrics r)))) "lr"
            = mseries (metrics r) "lr" ++ [logged_lr lr_decay sch g b]) as H.
    { rewrite mseries_append_ne by name_neq. rewrite mseries_append_eq.
      rewrite Hother; [done|]. intros n. repeat split; name_neq. }
    destruct (decide (i > 0)); [|exact H].
    by rewrite mseries_append_ne by name_neq.
  - unfold step_metrics.
    assert (mseries (append_metric "loss" (step_loss r xy)
              (append_metric "lr" (logged_lr lr_decay sch g b)
                 (fold_left (fun m x => log_param_metrics st x m) nps
                    (metrics r)))) "loss"
            = mseries (metrics r) "loss" ++ [step_loss r xy]) as H.
    { rewrite mseries_append_eq. rewrite mseries_append_ne by name_neq.
      rewrite Hother; [done|]. intros n. repeat split; name_neq. }
    destruct (decide (i > 0)); [|exact H].
    by rewrite mseries_append_ne by name_neq.
  - rename H into Hin. rewrite <- Hnps in Hnd. rewrite Hnames, <- Hnps in Hin.
    apply list_elem_of_fmap_1 in Hin as (x & -> & Hx).
    destruct (fold_log_param st nps (metrics r) x Hnd Hx) as (H1 & _ & _).
    assert (x.2.1 = x.1) as Hx1.
    { unfold nps in Hx. by apply list_elem_of_fmap_1 in Hx as (y & -> & _). }
    rewrite Hx1 in H1. unfold step_metrics.
    destruct (decide (i > 0));
      repeat (rewrite mseries_append_ne by name_neq); exact H1.
  - rename H into Hin. rewrite <- Hnps in Hnd. rewrite Hnames, <- Hnps in Hin.
    apply list_elem_of_fmap_1 in Hin as (x & -> & Hx).
    destruct (fold_log_param st nps (metrics r) x Hnd Hx) as (_ & H1 & _).
    assert (x.2.1 = x.1) as Hx1.
    { unfold nps in Hx. by apply list_elem_of_fmap_1 in Hx as (y & -> & _). }
    rewrite Hx1 in H1. unfold step_metrics.
    destruct (decide (i > 0));
      repeat (rewrite mseries_append_ne by name_neq); exact H1.
  - rename H into Hin. rewrite <- Hnps in Hnd. rewrite Hnames, <- Hnps in Hin.
    apply list_elem_of_fmap_1 in Hin as (x & -> & Hx).
    destruct (fold_log_param st nps (metrics r) x Hnd Hx) as (_ & _ & H1).
    assert (x.2.1 = x.1) as Hx1.
    { unfold nps in Hx. by apply list_elem_of_fmap_1 in Hx as (y & -> & _). }
    rewrite Hx1 in H1. unfold step_metrics.
    destruct (decide (i > 0));
      repeat (rewrite mseries_append_ne by name_neq); exact H1.
  - intros Hi. unfold step_metrics. rewrite decide_True by exact Hi.
    by rewrite mseries_append_eq, Hlpa.
  - intros Hi. unfold step_metrics. rewrite decide_False by lia. apply Hlpa.
  - intros k. apply step_metrics_prefix.
Qed.

(** *** Hoare rules *)

Lemma hoare_bind {A B} P (m : M runner A) (k : A -> M runner B) Q' Q X :
  hoare P m Q' X -> (forall a, hoare (Q' a) (k a) Q X) ->
  hoare P (bind m k) Q X.
Proof.
  intros Hm Hk r HP. specialize (Hm r HP). unfold bind.
  destruct (m r) as [[a|e] r']; [by apply Hk | exact Hm].
Qed.

Lemma hoare_conseq {A} (P P' : runner -> Prop) (m : M runner A)
    (Q Q' : A -> runner -> Prop) (X X' : exn -> runner -> Prop) :
  hoare P' m Q' X' ->
  (forall r, P r -> P' r) -> (forall a r, Q' a r -> Q a r) ->
  (forall e r, X' e r -> X e r) ->
  hoare P m Q X.
Proof.
  intros H HP HQ HX r Hr. specialize (H r (HP r Hr)).
  destruct (m r) as [[a|e] r']; auto.
Qed.

Lemma hoare_ret {A} (P : runner -> Prop) (a : A) (Q : A -> runner -> Prop) X :
  (forall r, P r -> Q a r) -> hoare P (ret a) Q X.
Proof. intros H r Hr. by apply H. Qed.

Lemma hoare_for_acc {A B} (I : nat -> A -> runner -> Prop) (l : list B)
    (body : A -> B -> M runner A) X acc0 :
  (forall n x acc, l !! n = Some x ->
     hoare (I n acc) (body acc x) (I (Datatypes.S n)) X) ->
  hoare (I 0%nat acc0) (for_acc l body acc0) (I (length l)) X.
Proof.
  revert I acc0. induction l as [|x l IH]; intros I acc0 Hb.
  - by apply hoare_ret.
  - cbn [for_acc]. eapply hoare_bind.
    + apply (Hb 0%nat x acc0). reflexivity.
    + intros acc. apply (IH (fun n => I (Datatypes.S n))).
      intros n y acc' Hy. apply (Hb (Datatypes.S n)). exact Hy.
Qed.

(** *** The parts of [run] *)

Ltac proj_simpl :=
  cbn [cfg descent_epochs num_samples dataloader dataset_len model
       summary_writer _samples metrics param_names optimizer scheduler
       prev_loss trace set_model set_summary_writer set_samples set_metrics
       set_param_names set_optimizer set_scheduler set_prev_loss log_event
       step_core].

Lemma step_hoare (r0 : runner) lam N i c xy :
  0 <= c < cycles (cfg r0) -> 0 <= i < period r0 ->
  hoare
    (fun r => run_inv r0 lam N (c * period r0 + i)
                (phase_temperature r0 (i / batches r0)) r
              /\ (i > 0 -> is_Some (prev_loss r)))
    (step i xy true)
    (fun _ r' => run_inv r0 lam N (c * period r0 + i + 1)
                   (phase_temperature r0 (i / batches r0)) r'
                 /\ is_Some (prev_loss r'))
    (fun _ _ => False).
Proof.
  intros Hc Hi r [Hinv Hprev].
  destruct Hinv as (Hcfg & Hd & Hn & Hdl & Hlen & Hnames & Hpn & Hopt & Hsch
                    & Htr & Hbuf).
  destruct Hopt as (g & s & Ho & Hlr & Ht).
  assert (exists pl, i > 0 -> prev_loss r = Some pl) as [pl Hpl].
  { destruct (decide (i > 0)) as [H|H].
    - destruct (Hprev H) as [pl Hpl]. by exists pl.
    - exists 0%R. intros; lia. }
  destruct (step_spec r i xy true (MkSGLD [g] s) g [] _ _ []
              (fst <$> model r0) pl Ho eq_refl Hsch eq_refl Hpn Hpl)
    as [w ->].
  split; [|by eexists].
  unfold run_inv. proj_simpl.
  split_and!; try assumption.
  - by rewrite optimizer_step_names, step_grads_names.
  - eexists _, _. split; [reflexivity|]. cbn. by rewrite Ht.
  - reflexivity.
  - rewrite Hcfg. apply Forall_app. split; [apply Forall_app; split|].
    + exact Htr.
    + by repeat constructor.
    + repeat constructor.
      * exists c, g. split_and!; try lia; done.
      * eexists _, _. unfold step_grads. by rewrite Hcfg.
Qed.

Lemma run_inv_eq (r0 : runner) lam N k k' t t' r :
  k = k' -> t = t' -> run_inv r0 lam N k t r -> run_inv r0 lam N k' t' r.
Proof. by intros -> ->. Qed.

Lemma batch_index_epoch B e n : 0 <= e -> 0 <= n < B -> (e * B + n) / B = e.
Proof.
  intros He Hn. rewrite Z.div_add_l by lia. rewrite Z.div_small by lia. lia.
Qed.

Lemma run_batches_hoare (r0 : runner) lam N c e :
  0 <= c < cycles (cfg r0) -> 0 <= e < epochs_per_cycle (cfg r0) ->
  hoare
    (fun r => run_inv r0 lam N (c * period r0 + e * batches r0)
                (phase_temperature r0 e) r
              /\ (e * batches r0 > 0 -> is_Some (prev_loss r)))
    (run_batches (e * batches r0))
    (fun i r' => i = (e + 1) * batches r0
                 /\ run_inv r0 lam N (c * period r0 + (e + 1) * batches r0)
                      (phase_temperature r0 e) r'
                 /\ ((e + 1) * batches r0 > 0 -> is_Some (prev_loss r')))
    (fun _ _ => False).
Proof.
  intros Hc He r [Hinv Hprev]. unfold run_batches. rewrite bind_gets.
  assert (Hdl : dataloader r = dataloader r0) by apply Hinv.
  rewrite Hdl.
  pose (I := fun (n : nat) (acc : Z) (r : runner) =>
    acc = e * batches r0 + Z.of_nat n
    /\ run_inv r0 lam N (c * period r0 + (e * batches r0 + Z.of_nat n))
         (phase_temperature r0 e) r
    /\ (acc > 0 -> is_Some (prev_loss r))).
  assert (HI : hoare (I 0%nat (e * batches r0))
                 (for_acc (dataloader r0)
                    (fun i xy => bind (step i xy true) (fun _ => ret (i + 1)))
                    (e * batches r0))
                 (I (length (dataloader r0))) (fun _ _ => False)).
  { apply hoare_for_acc. intros n xy acc Hxy.
    apply lookup_lt_Some in Hxy.
    assert (Hn : 0 <= Z.of_nat n < batches r0) by (unfold batches; lia).
    intros r1 (-> & Hinv1 & Hprev1).
    assert (Hi : 0 <= e * batches r0 + Z.of_nat n < period r0).
    { unfold period. nia. }
    pose proof (step_hoare r0 lam N (e * batches r0 + Z.of_nat n) c xy Hc Hi r1)
      as Hstep.
    unfold bind. rewrite batch_index_epoch in Hstep by lia.
    specialize (Hstep (conj Hinv1 Hprev1)).
    destruct (step _ xy true r1) as [[loss|ex] r2]; [|done].
    destruct Hstep as [Hinv2 Hprev2]. unfold ret, I. split_and!.
    - lia.
    - eapply run_inv_eq; [| reflexivity | exact Hinv2]. lia.
    - done. }
  specialize (HI r). unfold I in HI at 1.
  assert (Hpre : e * batches r0 = e * batches r0 + Z.of_nat 0
                 /\ run_inv r0 lam N
                      (c * period r0 + (e * batches r0 + Z.of_nat 0))
                      (phase_temperature r0 e) r
                 /\ (e * batches r0 > 0 -> is_Some (prev_loss r))).
  { split_and!; [lia | | done].
    eapply run_inv_eq; [| reflexivity | exact Hinv]. lia. }
  specialize (HI Hpre).
  destruct (for_acc _ _ _ r) as [[i|ex] r']; [|done].
  destruct HI as (-> & Hinv' & Hprev'). fold (batches r0) in *. split_and!.
  - lia.
  - eapply run_inv_eq; [| reflexivity | exact Hinv']. lia.
  - intros H. apply Hprev'. nia.
Qed.

Lemma set_phase_temperature_spec (r0 : runner) lam N k t e r :
  run_inv r0 lam N k t r ->
  exists r', set_phase_temperature e r = (Ok tt, r')
             /\ run_inv r0 lam N k (phase_temperature r0 e) r'
             /\ prev_loss r' = prev_loss r.
Proof.
  intros (Hcfg & Hd & Hn & Hdl & Hlen & Hnames & Hpn & Hopt & Hsch & Htr & Hbuf).
  destruct Hopt as (g & s & Ho & Hlr & Ht).
  unfold set_phase_temperature.
  rewrite (bind_attr_some _ _ _ _ Ho), bind_gets.
  eexists. split; [reflexivity|]. split; [|reflexivity].
  unfold run_inv. proj_simpl. split_and!; try assumption.
  eexists _, _. split; [reflexivity|]. cbn. split; [exact Hlr|].
  unfold phase_temperature. by rewrite Hd, Hcfg.
Qed.

Lemma maybe_estimate_preconditioner_spec (r0 : runner) lam N k t e r :
  run_inv r0 lam N k t r ->
  match maybe_estimate_preconditioner e r with
  | (Ok _, r') => run_inv r0 lam N k t r' /\ prev_loss r' = prev_loss r
  | (Raise ex, r') =>
      cfg r' = cfg r0 /\ Forall (event_ok r0 lam) (trace r')
      /\ ex = ZeroDivisionError /\ precond_update (cfg r0) = Some 0
  end.
Proof.
  intros Hinv.
  pose proof Hinv as (Hcfg & Hd & Hn & Hdl & Hlen & Hnames & Hpn & Hopt & Hsch
                      & Htr & Hbuf).
  destruct Hopt as (g & s & Ho & Hlr & Ht).
  unfold maybe_estimate_preconditioner. rewrite bind_gets, Hcfg.
  destruct (precond_update (cfg r0)) as [pu|]; [|by split].
  unfold pymod. destruct (decide (pu = 0)) as [->|Hpu].
  { rewrite bind_lift_raise. by split_and!. }
  rewrite bind_lift_ok. destruct (decide (e mod pu = 0)); [|by split].
  rewrite (bind_attr_some _ _ _ _ Ho), bind_gets.
  split; [|reflexivity].
  unfold run_inv. proj_simpl. split_and!; try assumption.
  by eexists _, _.
Qed.

(** Writing one slot of one buffer. *)
Lemma setitem_spec (buf : list tensor) idx v :
  let N := Z.of_nat (length buf) in
  if decide (- N <= idx < N)
  then exists buf', setitem buf idx v = Ok buf' /\ length buf' = length buf
  else setitem buf idx v = Raise IndexError.
Proof.
  cbn zeta. unfold setitem.
  destruct (decide (- Z.of_nat (length buf) <= idx < Z.of_nat (length buf)))
    as [H|H].
  - destruct (decide (0 <= idx < Z.of_nat (length buf))).
    + eexists. split; [reflexivity|]. apply length_insert.
    + rewrite decide_True by lia.
      eexists. split; [reflexivity|]. apply length_insert.
  - rewrite decide_False by lia. by rewrite decide_False by lia.
Qed.

Lemma write_sample_spec (r0 : runner) N key idx v r :
  buffers_ok r0 N r -> key ∈ sample_keys r0 ->
  if decide (- N <= idx < N)
  then exists bufs, write_sample key idx v r = (Ok tt, set_samples bufs r)
                    /\ buffers_ok r0 N (set_samples bufs r)
  else write_sample key idx v r = (Raise IndexError, r).
Proof.
  intros Hbuf Hkey. destruct (Hbuf key Hkey) as (buf & Hlook & Hlen).
  unfold write_sample. rewrite bind_gets, Hlook.
  pose proof (setitem_spec buf idx v) as Hset. cbn zeta in Hset.
  rewrite Hlen in Hset.
  destruct (decide (- N <= idx < N)).
  - destruct Hset as (buf' & -> & Hlen').
    rewrite bind_lift_ok. eexists. split; [reflexivity|].
    intros key' Hkey'. cbn [_samples set_samples].
    destruct (decide (key = key')) as [->|Hne].
    + exists buf'. rewrite lookup_insert_eq. split; [done|]. lia.
    + rewrite lookup_insert_ne by done. by apply Hbuf.
  - rewrite Hset. reflexivity.
Qed.

Lemma write_params_spec (r0 : runner) N se k nn cc (ps : named_params) r :
  buffers_ok r0 N r -> k <> 0 ->
  (forall np, np ∈ ps -> np.1 +:+ ".p" ∈ sample_keys r0) ->
  let body := fun np : string * param =>
    bind (lift (floordiv se k)) (fun q =>
      write_sample (np.1 +:+ ".p") (nn * cc + q) (p_value np.2)) in
  if decide (- N <= nn * cc + se / k < N)
  then exists bufs, for_each ps body r = (Ok tt, set_samples bufs r)
                    /\ buffers_ok r0 N (set_samples bufs r)
  else ps <> [] -> for_each ps body r = (Raise IndexError, r).
Proof.
  intros Hbuf Hk Hkeys. cbn zeta.
  assert (Hdiv : floordiv se k = Ok (se / k)).
  { unfold floordiv. by rewrite decide_False. }
  rewrite Hdiv.
  destruct (decide (- N <= nn * cc + se / k < N)) as [Hin|Hout].
  - revert r Hbuf. induction ps as [|np ps IH]; intros r Hbuf.
    + exists (_samples r). split; [|by destruct r]. by destruct r.
    + unfold for_each. cbn [for_acc]. rewrite bind_assoc, bind_lift_ok.
      pose proof (write_sample_spec r0 N (np.1 +:+ ".p") (nn * cc + se / k)
                    (p_value np.2) r Hbuf) as Hw.
      rewrite decide_True in Hw by done.
      destruct Hw as (bufs & Hw & Hbuf'). { apply Hkeys. by left. }
      unfold bind at 1. rewrite Hw.
      destruct (IH (fun x Hx => Hkeys x (list_elem_of_further _ _ _ Hx))
                  (set_samples bufs r) Hbuf') as (bufs' & Hrest & Hbuf'').
      exists bufs'. split; [|exact Hbuf''].
      unfold for_each in Hrest. rewrite Hrest. reflexivity.
  - intros Hne. destruct ps as [|np ps]; [done|].
    unfold for_each. cbn [for_acc]. rewrite bind_assoc, bind_lift_ok.
    pose proof (write_sample_spec r0 N (np.1 +:+ ".p") (nn * cc + se / k)
                  (p_value np.2) r Hbuf) as Hw.
    rewrite decide_False in Hw by done.
    unfold bind at 1. rewrite Hw; [reflexivity|]. apply Hkeys. by left.
Qed.

Lemma run_inv_set_samples (r0 : runner) lam N k t bufs r :
  run_inv r0 lam N k t r -> buffers_ok r0 N (set_samples bufs r) ->
  run_inv r0 lam N k t (set_samples bufs r).
Proof.
  intros (Hcfg & Hd & Hn & Hdl & Hlen & Hnames & Hpn & Hopt & Hsch & Htr & _) Hb.
  unfold run_inv. proj_simpl. by split_and!.
Qed.

Lemma record_sample_spec (r0 : runner) lam N k t c e r :
  run_inv r0 lam N k t r -> skip (cfg r0) <> 0 ->
  match record_sample c e r with
  | (Ok _, r') =>
      run_inv r0 lam N k t r' /\ prev_loss r' = prev_loss r
      /\ write_ok r0 N c e
  | (Raise ex, r') =>
      cfg r' = cfg r0 /\ Forall (event_ok r0 lam) (trace r')
      /\ ex = IndexError /\ ~ write_ok r0 N c e
  end.
Proof.
  intros Hinv Hskip.
  pose proof Hinv as (Hcfg & Hd & Hn & Hdl & Hlen & Hnames & Hpn & Hopt & Hsch
                      & Htr & Hbuf).
  destruct Hopt as (g & s & Ho & Hlr & Ht).
  unfold record_sample. rewrite !bind_gets, Hd, Hn, Hcfg.
  fold (sampling_epoch r0 e).
  destruct (decide (0 <= sampling_epoch r0 e)) as [Hse|Hse];
    [|split_and!; [done..|intros [? _]; lia]].
  unfold pymod. rewrite decide_False by done. rewrite bind_lift_ok.
  destruct (decide (sampling_epoch r0 e mod skip (cfg r0) = 0)) as [Hm|Hm];
    [|split_and!; [done..|intros [_ ?]; lia]].
  rewrite bind_gets.
  assert (Hkeys : forall np, np ∈ model r -> np.1 +:+ ".p" ∈ sample_keys r0).
  { intros np Hnp. unfold sample_keys. apply elem_of_app. left.
    apply (list_elem_of_fmap_2 (fun n => n +:+ ".p")).
    rewrite <- Hnames. by apply list_elem_of_fmap_2. }
  pose proof (write_params_spec r0 N (sampling_epoch r0 e) (skip (cfg r0))
                (num_samples r0) c (model r) r Hbuf Hskip Hkeys) as Hps.
  cbn zeta in Hps. fold (sample_index r0 c e) in Hps.
  assert (Hdiv : floordiv (sampling_epoch r0 e) (skip (cfg r0))
                 = Ok (sampling_epoch r0 e / skip (cfg r0))).
  { unfold floordiv. by rewrite decide_False. }
  assert (Hlr_key : "lr" ∈ sample_keys r0).
  { unfold sample_keys. apply elem_of_app. right. by left. }
  destruct (decide (- N <= sample_index r0 c e < N)) as [Hin|Hout].
  - destruct Hps as (bufs & Hps & Hbuf').
    unfold bind at 1. rewrite Hps.
    rewrite (bind_attr_some _ _ _ (MkSGLD [g] s)) by exact Ho.
    cbn [group0 param_groups]. rewrite bind_lift_ok, Hdiv, bind_lift_ok.
    pose proof (write_sample_spec r0 N "lr" (sample_index r0 c e) [pg_lr g]
                  (set_samples bufs r) Hbuf' Hlr_key) as Hw.
    rewrite decide_True in Hw by done.
    destruct Hw as (bufs' & Hw & Hbuf'').
    unfold sample_index in Hw. rewrite Hw.
    split_and!; [|done|by intros _].
    by apply (run_inv_set_samples r0 lam N k t bufs' r).
  - destruct (model r) as [|np ps] eqn:Hmodel.
    + unfold for_each. cbn [for_acc]. rewrite bind_ret.
      rewrite (bind_attr_some _ _ _ (MkSGLD [g] s)) by exact Ho.
      cbn [group0 param_groups]. rewrite bind_lift_ok, Hdiv, bind_lift_ok.
      pose proof (write_sample_spec r0 N "lr" (sample_index r0 c e) [pg_lr g]
                    r Hbuf Hlr_key) as Hw.
      rewrite decide_False in Hw by done.
      unfold sample_index in Hw. rewrite Hw.
      split_and!; [done..|]. intros H. apply Hout, H. by split.
    + unfold bind at 1. rewrite Hps by done.
      split_and!; [done..|]. intros H. apply Hout, H. by split.
Qed.

Lemma run_epoch_hoare (r0 : runner) lam N c e :
  skip (cfg r0) <> 0 ->
  0 <= c < cycles (cfg r0) -> 0 <= e < epochs_per_cycle (cfg r0) ->
  hoare
    (fun r => (exists t, run_inv r0 lam N (c * period r0 + e * batches r0) t r)
              /\ (e * batches r0 > 0 -> is_Some (prev_loss r)))
    (run_epoch c (e * batches r0) e)
    (fun i r' =>
       i = (e + 1) * batches r0
       /\ (exists t, run_inv r0 lam N (c * period r0 + (e + 1) * batches r0)
                       t r')
       /\ ((e + 1) * batches r0 > 0 -> is_Some (prev_loss r'))
       /\ write_ok r0 N c e)
    (run_exn r0 lam N).
Proof.
  intros Hskip Hc He r [[t Hinv] Hprev]. unfold run_epoch.
  destruct (set_phase_temperature_spec r0 lam N _ t e r Hinv)
    as (r1 & Hset & Hinv1 & Hprev1).
  unfold bind at 1. rewrite Hset.
  pose proof (run_batches_hoare r0 lam N c e Hc He r1) as Hb.
  unfold bind at 1.
  destruct (run_batches (e * batches r0) r1) as [[i|ex] r2];
    [|exfalso; apply Hb; split; [done|by rewrite Hprev1]].
  destruct Hb as (-> & Hinv2 & Hprev2); [split; [done|by rewrite Hprev1]|].
  pose proof (maybe_estimate_preconditioner_spec r0 lam N _ _ e r2 Hinv2) as Hp.
  unfold bind at 1.
  destruct (maybe_estimate_preconditioner e r2) as [[[]|ex] r3].
  2:{ destruct Hp as (Hcfg & Htr & -> & Hpu). split_and!; [done..|].
      right. left. done. }
  destruct Hp as [Hinv3 Hprev3].
  pose proof (record_sample_spec r0 lam N _ _ c e r3 Hinv3 Hskip) as Hr.
  unfold bind at 1.
  destruct (record_sample c e r3) as [[[]|ex] r4].
  - destruct Hr as (Hinv4 & Hprev4 & Hw). unfold ret. split_and!; try done.
    + by eexists.
    + rewrite Hprev4, Hprev3. done.
  - destruct Hr as (Hcfg & Htr & -> & Hw). split_and!; [done..|].
    right. right. split; [done|]. by exists c, e.
Qed.

Lemma run_cycle_hoare (r0 : runner) lam N c :
  skip (cfg r0) <> 0 -> 0 <= c < cycles (cfg r0) ->
  hoare
    (fun r => exists t, run_inv r0 lam N (c * steps_per_cycle r0) t r)
    (run_cycle c)
    (fun _ r' =>
       (exists t, run_inv r0 lam N ((c + 1) * steps_per_cycle r0) t r')
       /\ forall e, 0 <= e < epochs_per_cycle (cfg r0) -> write_ok r0 N c e)
    (run_exn r0 lam N).
Proof.
  intros Hskip Hc r [t Hinv]. unfold run_cycle. rewrite bind_gets.
  assert (Hcfg : cfg r = cfg r0) by apply Hinv. rewrite Hcfg.
  set (E := epochs_per_cycle (cfg r0)).
  destruct (decide (E <= 0)) as [HE|HE].
  { unfold range. rewrite seqZ_nil by done. cbn [for_acc].
    rewrite !bind_ret. unfold ret. split; [|intros; lia].
    exists t. eapply run_inv_eq; [| reflexivity | exact Hinv].
    unfold steps_per_cycle. fold E. lia. }
  assert (HT : steps_per_cycle r0 = period r0).
  { unfold steps_per_cycle, period. fold E. f_equal. lia. }
  rewrite HT in *.
  pose (I := fun (n : nat) (acc : Z) (r : runner) =>
    acc = Z.of_nat n * batches r0
    /\ (exists t, run_inv r0 lam N (c * period r0 + Z.of_nat n * batches r0)
                    t r)
    /\ (Z.of_nat n * batches r0 > 0 -> is_Some (prev_loss r))
    /\ forall e, 0 <= e < Z.of_nat n -> write_ok r0 N c e).
  assert (HI : hoare (I 0%nat 0) (for_acc (range E) (run_epoch c) 0)
                 (I (length (range E))) (run_exn r0 lam N)).
  { apply hoare_for_acc. intros n e acc Hlook.
    apply lookup_seqZ in Hlook as [-> Hn]. rewrite Z.add_0_l.
    intros r1 (-> & Hinv1 & Hprev1 & Hw1).
    pose proof (run_epoch_hoare r0 lam N c (Z.of_nat n) Hskip Hc
                  ltac:(fold E; lia) r1 (conj Hinv1 Hprev1)) as Hep.
    destruct (run_epoch c _ (Z.of_nat n) r1) as [[i|ex] r2]; [|exact Hep].
    destruct Hep as (-> & Hinv2 & Hprev2 & Hw2). unfold I.
    replace (Z.of_nat (Datatypes.S n)) with (Z.of_nat n + 1) by lia.
    split_and!; try done.
    intros e He. destruct (decide (e = Z.of_nat n)) as [->|]; [done|].
    apply Hw1. lia. }
  specialize (HI r). unfold I in HI at 1.
  assert (Hpre : 0 = Z.of_nat 0 * batches r0
                 /\ (exists t, run_inv r0 lam N
                                 (c * period r0 + Z.of_nat 0 * batches r0) t r)
                 /\ (Z.of_nat 0 * batches r0 > 0 -> is_Some (prev_loss r))
                 /\ forall e, 0 <= e < Z.of_nat 0 -> write_ok r0 N c e).
  { split_and!; [lia| |lia|lia].
    exists t. eapply run_inv_eq; [| reflexivity | exact Hinv]. lia. }
  specialize (HI Hpre). unfold bind.
  destruct (for_acc (range E) (run_epoch c) 0 r) as [[i|ex] r']; [|exact HI].
  destruct HI as (_ & [t' Hinv'] & _ & Hw). unfold ret.
  unfold range in *. rewrite length_seqZ in *.
  split.
  - exists t'. eapply run_inv_eq; [| reflexivity | exact Hinv'].
    unfold period. fold E. lia.
  - intros e He. apply Hw. lia.
Qed.

(** The whole of [run]: it returns when every sample finds its slot, and
    what it raises otherwise has one of the causes listed; the calls made
    until then are as [event_ok] says, whatever the outcome. *)
Lemma run_spec (r0 : runner) N :
  let lam := get_cosine_schedule (period r0) in
  constructed r0 lam N ->
  match run get_cosine_schedule r0 with
  | (Ok _, r') =>
      (exists k t, run_inv r0 lam N k t r')
      /\ writes_ok r0 N (cycles (cfg r0))
  | (Raise ex, r') => run_exn r0 lam N ex r'
  end.
Proof.
  intros lam (Hbuf & Hskip & Htr). unfold run. rewrite bind_gets.
  destruct (model r0) as [|np0 ps0] eqn:Hmodel.
  { cbn [unzip_named]. rewrite bind_lift_raise. split_and!; [done..|].
    by left. }
  cbn [unzip_named]. rewrite <- Hmodel. rewrite bind_lift_ok, bind_modify.
  rewrite !bind_gets. proj_simpl. rewrite bind_modify, bind_gets. proj_simpl.
  unfold LambdaLR_new. cbn [param_groups sgld_state fmap list_fmap pg_lr].
  rewrite !bind_modify. fold (batches r0). fold (period r0). fold lam.
  match goal with |- context [for_each _ _ ?r] => set (r1 := r) end.
  assert (Hinv1 : run_inv r0 lam N (0 * steps_per_cycle r0)
                    (temperature (cfg r0)) r1).
  { unfold run_inv, r1. proj_simpl. split_and!; try done.
    eexists _, _. split; [reflexivity|]. by cbn. }
  clearbody r1.
  pose (I := fun (n : nat) (_ : unit) (r : runner) =>
    (exists t, run_inv r0 lam N (Z.of_nat n * steps_per_cycle r0) t r)
    /\ writes_ok r0 N (Z.of_nat n)).
  assert (HI : hoare (I 0%nat tt)
                 (for_each (range (cycles (cfg r0))) run_cycle)
                 (I (length (range (cycles (cfg r0))))) (run_exn r0 lam N)).
  { unfold for_each. apply hoare_for_acc. intros n c [] Hlook.
    apply lookup_seqZ in Hlook as [-> Hn]. rewrite Z.add_0_l.
    intros r2 [Hinv2 Hw2].
    pose proof (run_cycle_hoare r0 lam N (Z.of_nat n) Hskip ltac:(lia) r2 Hinv2)
      as Hcy.
    destruct (run_cycle (Z.of_nat n) r2) as [[[]|ex] r3]; [|exact Hcy].
    destruct Hcy as [Hinv3 Hw3]. unfold I.
    replace (Z.of_nat (Datatypes.S n)) with (Z.of_nat n + 1) by lia.
    split; [done|]. intros c e Hc He.
    destruct (decide (c = Z.of_nat n)) as [->|]; [by apply Hw3|].
    apply Hw2; [lia|done]. }
  specialize (HI r1). unfold I in HI at 1.
  assert (Hpre : (exists t, run_inv r0 lam N (Z.of_nat 0 * steps_per_cycle r0)
                              t r1)
                 /\ writes_ok r0 N (Z.of_nat 0)).
  { split; [by eexists|]. intros c e Hc. lia. }
  specialize (HI Hpre).
  destruct (for_each _ run_cycle r1) as [[[]|ex] r']; [|exact HI].
  destruct HI as [[t Hinv'] Hw]. split; [by eexists _, _|].
  unfold range in Hw. rewrite length_seqZ in Hw.
  intros c e Hc He. apply Hw; [lia|done].
Qed.

(** *** [__init__] *)

Lemma alloc_samples_snoc n (ps : named_params) np :
  alloc_samples n (ps ++ [np])
  = match alloc_samples n ps with
    | Raise e => Raise e
    | Ok m =>
        match torch_zeros n (p_value np.2) with
        | Raise e => Raise e
        | Ok z => Ok (<[np.1 +:+ ".p" := z]> m)
        end
    end.
Proof. unfold alloc_samples. by rewrite fold_left_app. Qed.

Lemma torch_zeros_ok n t :
  0 <= n ->
  exists z, torch_zeros n t = Ok z /\ Z.of_nat (length z) = n.
Proof.
  intros Hn. unfold torch_zeros. rewrite decide_False by lia.
  eexists. split; [reflexivity|]. rewrite length_replicate. lia.
Qed.

Lemma alloc_samples_ok n (ps : named_params) :
  0 <= n ->
  exists m, alloc_samples n ps = Ok m
            /\ forall np, np ∈ ps ->
                 exists buf, m !! (np.1 +:+ ".p") = Some buf
                             /\ Z.of_nat (length buf) = n.
Proof.
  intros Hn. induction ps as [|np ps IH] using rev_ind.
  - exists ∅. split; [done|]. intros np Hnp. by apply elem_of_nil in Hnp.
  - destruct IH as (m & Hm & Hkeys).
    destruct (torch_zeros_ok n (p_value np.2) Hn) as (z & Hz & Hlen).
    rewrite alloc_samples_snoc, Hm, Hz. eexists. split; [reflexivity|].
    intros np' Hnp'.
    destruct (decide (np.1 +:+ ".p" = np'.1 +:+ ".p")) as [->|Hne].
    + exists z. by rewrite lookup_insert_eq.
    + rewrite lookup_insert_ne by done. apply Hkeys.
      apply elem_of_app in Hnp' as [?|Hin]; [done|].
      apply list_elem_of_singleton in Hin. by subst.
Qed.

Lemma alloc_samples_negative n (ps : named_params) :
  n < 0 -> alloc_samples n ps = Ok ∅ \/ alloc_samples n ps = Raise RuntimeError.
Proof.
  intros Hn. induction ps as [|np ps IH] using rev_ind; [by left|].
  right. rewrite alloc_samples_snoc.
  destruct IH as [->| ->]; [|done].
  unfold torch_zeros. by rewrite decide_True.
Qed.

Lemma key_p_not_lr (n : string) : "lr" <> n +:+ ".p".
Proof.
  destruct n as [|a [|b n]]; [done..|].
  intros H. simplify_eq/=. by destruct n.
Qed.

(** What construction leaves behind. *)
Lemma init_spec (ps : named_params) (dl : list batch) len c sw (r0 : runner) :
  __init__ ps dl len c sw = Ok r0 ->
  cfg r0 = c
  /\ descent_epochs r0
     = epochs_per_cycle c - warmup_epochs c - sample_epochs c
  /\ num_samples r0 = sample_epochs c / skip c
  /\ dataloader r0 = dl /\ dataset_len r0 = len /\ model r0 = ps
  /\ metrics r0 = ∅ /\ trace r0 = [] /\ prev_loss r0 = None
  /\ skip c <> 0 /\ 0 <= num_samples r0 * cycles c
  /\ buffers_ok r0 (num_samples r0 * cycles c) r0.
Proof.
  unfold __init__, floordiv.
  destruct (decide (skip c = 0)) as [|Hskip]; [done|].
  set (n := sample_epochs c / skip c * cycles c).
  destruct (decide (n < 0)) as [Hn|Hn].
  { destruct (alloc_samples_negative n ps Hn) as [-> | ->]; [|done].
    unfold torch_zeros. by rewrite decide_True. }
  destruct (alloc_samples_ok n ps ltac:(lia)) as (m & -> & Hkeys).
  destruct (torch_zeros_ok n [0%R] ltac:(lia)) as (z & -> & Hz).
  intros [= <-]. cbn. split_and!; try done; [lia|].
  intros key Hkey. cbn. unfold sample_keys in Hkey. cbn in Hkey.
  apply elem_of_app in Hkey as [Hkey|Hkey].
  - apply list_elem_of_fmap_1 in Hkey as (name & -> & Hname).
    apply list_elem_of_fmap_1 in Hname as (np & -> & Hnp).
    rewrite lookup_insert_ne by apply key_p_not_lr. by apply Hkeys.
  - apply list_elem_of_singleton in Hkey as ->.
    exists z. by rewrite lookup_insert_eq.
Qed.

(** C2, as the code has it: construction validates nothing itself. It
    raises exactly when [skip] is zero (the division [sample_epochs // skip])
    or when the number of slots [(sample_epochs // skip) * cycles] is
    negative (the allocation of the buffers); every other configuration is
    accepted, with [descent_epochs] and [num_samples] stored as computed. *)
Theorem init_raises_iff (ps : named_params) (dl : list batch) len c sw :
  (~ is_ok (__init__ (S:=S) ps dl len c sw)
   <-> skip c = 0 \/ sample_epochs c / skip c * cycles c < 0)
  /\ (forall r0 : runner, __init__ ps dl len c sw = Ok r0 ->
        descent_epochs r0
        = epochs_per_cycle c - warmup_epochs c - sample_epochs c
        /\ num_samples r0 = sample_epochs c / skip c).
Proof.
  split.
  - split.
    + intros Hraise.
      destruct (decide (skip c = 0)) as [|Hskip]; [by left|]. right.
      destruct (decide (sample_epochs c / skip c * cycles c < 0)) as [|Hn];
        [done|].
      exfalso. apply Hraise. unfold __init__, floordiv.
      rewrite decide_False by done.
      destruct (alloc_samples_ok (sample_epochs c / skip c * cycles c) ps
                  ltac:(lia)) as (m & -> & _).
      destruct (torch_zeros_ok (sample_epochs c / skip c * cycles c) [0%R]
                  ltac:(lia)) as (z & -> & _).
      exact I.
    + intros Hbad Hok.
      destruct (__init__ (S:=S) ps dl len c sw) as [r0|] eqn:Hinit; [|done].
      apply init_spec in Hinit
        as (_ & _ & Hn & _ & _ & _ & _ & _ & _ & Hskip & Hpos & _).
      rewrite Hn in Hpos. destruct Hbad; [done|lia].
  - intros r0 Hinit. apply init_spec in Hinit. by destruct Hinit as (_ & ? & ? & _).
Qed.

(** *** The calls made during [run] *)

Lemma run_trace_ok (ps : named_params) (dl : list batch) len c sw
    (r0 : runner) :
  __init__ ps dl len c sw = Ok r0 ->
  Forall (event_ok r0 (get_cosine_schedule (period r0)))
    (trace (run get_cosine_schedule r0).2).
Proof.
  intros Hinit.
  apply init_spec
    in Hinit as (Hc & _ & _ & _ & _ & _ & _ & Htr & _ & Hskip & _ & Hbuf).
  pose proof (run_spec r0 (num_samples r0 * cycles c)) as Hrun.
  cbn zeta in Hrun.
  destruct (run get_cosine_schedule r0) as [[[]|ex] r'].
  - destruct Hrun as [(k & t & Hinv) _].
    + split_and!; [done|by rewrite Hc|by rewrite Htr].
    + apply Hinv.
  - destruct Hrun as (_ & Htr' & _); [|done].
    split_and!; [done|by rewrite Hc|by rewrite Htr].
Qed.


Lemma run_event_ok (ps : named_params) (dl : list batch) len c sw
    (r0 : runner) ev :
  __init__ ps dl len c sw = Ok r0 ->
  ev ∈ trace (run get_cosine_schedule r0).2 ->
  event_ok r0 (get_cosine_schedule (period r0)) ev.
Proof.
  intros Hinit Hev. pose proof (run_trace_ok _ _ _ _ _ _ Hinit) as H.
  rewrite Forall_forall in H. by apply H.
Qed.


(** C5: in every cycle, a step that is batch [b] of epoch [e] finds every
    group's temperature field at 0 when [e] is less than [descent_epochs =
    epochs_per_cycle - warmup_epochs - sample_epochs], and at the configured
    temperature in every later epoch: the field was set before the first
    batch step of the epoch and stays so for all of them. *)
Theorem run_phase_temperature (ps : named_params) (dl : list batch) len c sw
    (r0 : runner) :
  __init__ ps dl len c sw = Ok r0 ->
  forall i groups params e b,
    EvOptStep i groups params ∈ trace (run get_cosine_schedule r0).2 ->
    0 <= e -> 0 <= b < Z.of_nat (length dl) ->
    i = e * Z.of_nat (length dl) + b ->
    Forall (fun g => pg_temperature g =
                     if decide (e < epochs_per_cycle c - warmup_epochs c
                                    - sample_epochs c)
                     then 0%R else temperature c)
      groups.
Proof.
  intros Hinit i groups params e b Hev He Hb ->.
  pose proof (init_spec _ _ _ _ _ _ Hinit) as (Hc & Hd & _ & Hdl & _).
  apply (run_event_ok _ _ _ _ _ _ _ Hinit) in Hev
    as [(cy & g & _ & _ & -> & _ & Ht) _].
  constructor; [|constructor]. rewrite Ht.
  unfold batches. rewrite Hdl, batch_index_epoch by done.
  unfold phase_temperature. by rewrite Hd, Hc.
Qed.

Lemma clamp_in_range lo hi (t : tensor) x :
  (lo <= hi)%R -> x ∈ clamp lo hi t -> (lo <= x <= hi)%R.
Proof.
  intros Hlh Hx. unfold clamp in Hx.
  apply list_elem_of_fmap_1 in Hx as (y & -> & _). split.
  - apply Rmin_glb; [apply Rmax_r | exact Hlh].
  - apply Rmin_r.
Qed.

(** *** The learning rate during [run] *)

Lemma schedule_periodic T lam cy i :
  cosine_schedule_spec T lam -> 0 <= T -> 0 <= cy -> 0 <= i ->
  lam (cy * T + i) = lam i.
Proof.
  intros (_ & _ & Hper) HT Hcy Hi. revert cy Hcy.
  apply natlike_ind; [by rewrite Z.mul_0_l, Z.add_0_l|].
  intros cy Hcy IH.
  replace (Z.succ cy * T + i) with ((cy * T + i) + T) by lia.
  rewrite Hper by nia. exact IH.
Qed.

Lemma run_lr_at (ps : named_params) (dl : list batch) len c sw (r0 : runner)
    i groups params :
  __init__ ps dl len c sw = Ok r0 ->
  cosine_schedule_spec (period r0) (get_cosine_schedule (period r0)) ->
  EvOptStep i groups params ∈ trace (run get_cosine_schedule r0).2 ->
  0 <= i < period r0
  /\ exists g, groups = [g]
     /\ pg_lr g = (learning_rate c * get_cosine_schedule (period r0) i)%R.
Proof.
  intros Hinit Hsched Hev.
  pose proof (init_spec _ _ _ _ _ _ Hinit) as (Hc & _).
  apply (run_event_ok _ _ _ _ _ _ _ Hinit) in Hev
    as [(cy & g & Hcy & Hi & -> & Hlr & _) _].
  split; [done|]. exists g. split; [done|].
  rewrite Hlr, Hc. f_equal. apply schedule_periodic; [done|lia..].
Qed.

(** C4, as the code has it: the runner never resets the scheduler; with a
    multiplier as the spec describes it (1 at step 0, strictly decreasing
    within a period of [epochs_per_cycle * batches] steps, periodic), the
    rate in force at the first step of every cycle is the initial learning
    rate, and, when at least one descent or warmup epoch precedes the
    sampling phase and the initial rate is positive, the rate in force at
    the first step of the first sampling epoch is strictly less. *)
Theorem run_lr_first_step_and_first_sampling_epoch (ps : named_params)
    (dl : list batch) len c sw (r0 : runner) :
  __init__ ps dl len c sw = Ok r0 ->
  cosine_schedule_spec (period r0) (get_cosine_schedule (period r0)) ->
  forall i lr,
    lr_at (trace (run get_cosine_schedule r0).2) i lr ->
    (i = 0 -> lr = learning_rate c)
    /\ (0 < epochs_per_cycle c - sample_epochs c ->
        (0 < learning_rate c)%R ->
        i = (epochs_per_cycle c - sample_epochs c) * Z.of_nat (length dl) ->
        (lr < learning_rate c)%R).
Proof.
  intros Hinit Hsched i lr (g & params & Hev & <-).
  destruct (run_lr_at _ _ _ _ _ _ _ _ _ Hinit Hsched Hev)
    as (Hi & g' & [= <-] & ->).
  destruct Hsched as (H0 & Hdec & _).
  split.
  - intros ->. rewrite H0. lra.
  - intros Hpre Hlr ->.
    assert (0 < (epochs_per_cycle c - sample_epochs c) * Z.of_nat (length dl))
      as Hpos.
    { pose proof (init_spec _ _ _ _ _ _ Hinit) as (Hc & _ & _ & Hdl & _).
      unfold period, batches in Hi. rewrite Hdl in Hi.
      destruct (decide (Z.of_nat (length dl) = 0)) as [E0|]; [|nia].
      rewrite E0 in Hi. lia. }
    specialize (Hdec 0 _ (conj (Z.le_refl 0) Hpos) (proj2 Hi)).
    rewrite H0 in Hdec. nra.
Qed.

(** *** When [run] returns *)

Lemma run_returns (ps : named_params) (dl : list batch) len c sw
    (r0 : runner) :
  __init__ ps dl len c sw = Ok r0 ->
  ps <> [] -> precond_update c <> Some 0 ->
  writes_ok r0 (num_samples r0 * cycles c) (cycles c) ->
  (run get_cosine_schedule r0).1 = Ok tt.
Proof.
  intros Hinit Hps Hpu Hw.
  apply init_spec
    in Hinit as (Hc & _ & _ & _ & _ & Hm & _ & Htr & _ & Hskip & _ & Hbuf).
  pose proof (run_spec r0 (num_samples r0 * cycles c)) as Hrun.
  cbn zeta in Hrun.
  destruct (run get_cosine_schedule r0) as [[[]|ex] r']; [done|].
  destruct Hrun as (_ & _ & [[_ ?]|[[_ ?]|(_ & cy & e & Hcy & He & Hbad)]]).
  - split_and!; [done|by rewrite Hc|by rewrite Htr].
  - congruence.
  - congruence.
  - exfalso. apply Hbad. apply Hw; [by rewrite <- Hc|done].
Qed.

Lemma run_raises_index_error (ps : named_params) (dl : list batch) len c sw
    (r0 : runner) cy e :
  __init__ ps dl len c sw = Ok r0 ->
  ps <> [] -> precond_update c <> Some 0 ->
  0 <= cy < cycles c -> 0 <= e < epochs_per_cycle c ->
  ~ write_ok r0 (num_samples r0 * cycles c) cy e ->
  (run get_cosine_schedule r0).1 = Raise IndexError.
Proof.
  intros Hinit Hps Hpu Hcy He Hbad.
  apply init_spec
    in Hinit as (Hc & _ & _ & _ & _ & Hm & _ & Htr & _ & Hskip & _ & Hbuf).
  pose proof (run_spec r0 (num_samples r0 * cycles c)) as Hrun.
  cbn zeta in Hrun.
  destruct (run get_cosine_schedule r0) as [[[]|ex] r'].
  - destruct Hrun as [_ Hw].
    + split_and!; [done|by rewrite Hc|by rewrite Htr].
    + exfalso. apply Hbad. apply Hw; [by rewrite Hc|by rewrite Hc].
  - destruct Hrun as (_ & _ & [[_ ?]|[[_ ?]|[-> _]]]).
    + split_and!; [done|by rewrite Hc|by rewrite Htr].
    + congruence.
    + congruence.
    + done.
Qed.

(** The part of C1 that holds: when [skip] divides [sample_epochs], every
    sample goes to a slot of its own cycle, and [run] returns. *)
Lemma sample_index_in_cycle_range (ps : named_params) (dl : list batch) len
    c sw (r0 : runner) cy e :
  __init__ ps dl len c sw = Ok r0 ->
  0 < skip c -> (skip c | sample_epochs c) ->
  0 <= e < epochs_per_cycle c -> records r0 e ->
  num_samples r0 * cy <= sample_index r0 cy e < num_samples r0 * (cy + 1).
Proof.
  intros Hinit Hskip [n Hn] He [Hse _].
  pose proof (init_spec _ _ _ _ _ _ Hinit) as (Hc & Hd & Hns & _).
  unfold sample_index. unfold sampling_epoch in *. rewrite Hd, Hc in *.
  set (se := e - (epochs_per_cycle c - warmup_epochs c - sample_epochs c
                  + warmup_epochs c)) in *.
  assert (Hq : sample_epochs c / skip c = n)
    by (rewrite Hn; apply Z.div_mul; lia).
  rewrite Hns, Hq.
  assert (0 <= se / skip c) by (apply Z.div_pos; lia).
  assert (se / skip c < n) by (apply Z.div_lt_upper_bound; lia).
  lia.
Qed.

Lemma run_returns_when_skip_divides (ps : named_params) (dl : list batch) len
    c sw (r0 : runner) :
  __init__ ps dl len c sw = Ok r0 ->
  ps <> [] -> precond_update c <> Some 0 ->
  0 < skip c -> (skip c | sample_epochs c) ->
  (run get_cosine_schedule r0).1 = Ok tt.
Proof.
  intros Hinit Hps Hpu Hskip Hdiv.
  apply (run_returns _ _ _ _ _ _ Hinit Hps Hpu).
  pose proof (init_spec _ _ _ _ _ _ Hinit) as (Hc & _).
  intros cy e Hcy He Hrec. rewrite Hc in He.
  pose proof (sample_index_in_cycle_range _ _ _ _ _ _ cy e Hinit Hskip Hdiv
                He Hrec) as Hidx.
  nia.
Qed.

(** C1, at an input where the code departs from it: with
    [epochs_per_cycle=10, warmup_epochs=3, sample_epochs=5, skip=2,
    cycles=1] the buffers have [num_samples = 2] slots, the sampling epochs
    of offset 0, 2 and 4 record a sample, and the last of them is sent to
    index 2, past the range of its cycle: [run] ends in an [IndexError]
    there, whatever the model, the sampler and the data. *)
Theorem run_skip2_index_error (ps : named_params) (dl : list batch) len sw
    (r0 : runner) :
  __init__ ps dl len (with_skip 2 (default_config 10 3 5)) sw = Ok r0 ->
  ps <> [] ->
  num_samples r0 = 2
  /\ records r0 9
  /\ sample_index r0 0 9 = 2
  /\ (run get_cosine_schedule r0).1 = Raise IndexError.
Proof.
  intros Hinit Hps.
  pose proof (init_spec _ _ _ _ _ _ Hinit) as (Hc & Hd & Hn & _).
  cbn in Hd, Hn.
  assert (Hrec : records r0 9).
  { unfold records, sampling_epoch. rewrite Hd, Hc. cbn. done. }
  assert (Hidx : sample_index r0 0 9 = 2).
  { unfold sample_index, sampling_epoch. rewrite Hd, Hn, Hc. cbn. done. }
  split_and!; try done.
  eapply (run_raises_index_error _ _ _ _ _ _ 0 9 Hinit); cbn; try done.
  intros Hw. specialize (Hw Hrec). rewrite Hidx, Hn in Hw.
  change (5 / 2) with 2 in Hw. lia.
Qed.

(** C3, where the code departs from it: the attribute [sampling_decay] is
    stored and never read, and [run] always calls [step] with [lr_decay]
    left at its default. With [sampling_decay=False] and a multiplier as the
    spec describes it, the rate in force keeps going down inside the
    sampling phase: of two steps of the sampling phase, the later one has a
    strictly smaller rate than the earlier one. *)
Theorem run_sampling_decay_false_still_decays (ps : named_params)
    (dl : list batch) len c sw (r0 : runner) :
  __init__ ps dl len c sw = Ok r0 ->
  sampling_decay c = false ->
  cosine_schedule_spec (period r0) (get_cosine_schedule (period r0)) ->
  (0 < learning_rate c)%R ->
  forall i j lr_i lr_j,
    lr_at (trace (run get_cosine_schedule r0).2) i lr_i ->
    lr_at (trace (run get_cosine_schedule r0).2) j lr_j ->
    (epochs_per_cycle c - sample_epochs c) * Z.of_nat (length dl) <= i < j ->
    (lr_j < lr_i)%R.
Proof.
  intros Hinit _ Hsched Hlr i j lr_i lr_j (gi & pi & Hi & <-)
    (gj & pj & Hj & <-) Hij.
  destruct (run_lr_at _ _ _ _ _ _ _ _ _ Hinit Hsched Hi)
    as (Hir & g & [= <-] & ->).
  destruct (run_lr_at _ _ _ _ _ _ _ _ _ Hinit Hsched Hj)
    as (Hjr & g' & [= <-] & ->).
  destruct Hsched as (_ & Hdec & _).
  specialize (Hdec i j ltac:(lia) ltac:(lia)).
  by apply Rmult_lt_compat_l.
Qed.

End Proofs.

(** ** The concrete schedule *)

Lemma cosine_schedule_ok T :
  0 < T -> cosine_schedule_spec T (cosine_schedule T).
Proof.
  intros HT. unfold cosine_schedule. split_and!.
  - rewrite Z.mod_0_l by lia. replace (PI * 0 / IZR T)%R with 0%R.
    + rewrite cos_0. lra.
    + unfold Rdiv. ring.
  - intros j k Hj Hk. rewrite !Z.mod_small by lia.
    assert (HTr : (0 < IZR T)%R) by (apply IZR_lt; lia).
    assert (Hjr : (0 <= IZR j)%R) by (apply IZR_le; lia).
    assert (Hjk : (IZR j < IZR k)%R) by (apply IZR_lt; lia).
    assert (HkT : (IZR k < IZR T)%R) by (apply IZR_lt; lia).
    pose proof PI_RGT_0 as Hpi.
    assert (Hinv : (0 < / IZR T)%R) by (by apply Rinv_0_lt_compat).
    assert (Hone : (IZR T * / IZR T = 1)%R) by (apply Rinv_r; lra).
    assert (cos (PI * IZR k / IZR T) < cos (PI * IZR j / IZR T))%R; [|lra].
    unfold Rdiv. apply cos_decreasing_1.
    + apply Rmult_le_pos; [|lra]. apply Rmult_le_pos; lra.
    + replace PI with (PI * IZR T * / IZR T)%R at 2
        by (rewrite Rmult_assoc, Hone; ring).
      apply Rmult_le_compat_r; [lra|]. apply Rmult_le_compat_l; lra.
    + apply Rmult_le_pos; [|lra]. apply Rmult_le_pos; lra.
    + replace PI with (PI * IZR T * / IZR T)%R at 2
        by (rewrite Rmult_assoc, Hone; ring).
      apply Rmult_le_compat_r; [lra|]. apply Rmult_le_compat_l; lra.
    + apply Rmult_lt_compat_r; [lra|]. apply Rmult_lt_compat_l; lra.
  - intros k Hk. replace (k + T) with (k + 1 * T) by lia.
    by rewrite Z.mod_add by lia.
Qed.


Lemma toy_init_ok c :
  skip c <> 0 -> 0 <= sample_epochs c / skip c * cycles c ->
  toy_init c = Ok (toy_runner c).
Proof.
  intros Hs Hn. unfold toy_init, __init__, floordiv, torch_zeros.
  rewrite decide_False by done. cbn.
  unfold torch_zeros. rewrite !decide_False by lia. reflexivity.
Qed.

(** ** The Metropolis-Hastings protocol *)

Section VerletProofs.
Import VerletSGLD.
Context {G : Type} (potential : list tensor -> R) (uniform : G -> R * G)
  (dynamics : kind -> list tensor * list tensor * G
              -> list tensor * list tensor * G).

Abbreviation sampler := (sampler G).

Lemma evolve_keeps k (s : sampler) :
  saved_state (evolve dynamics k s) = saved_state s
  /\ temperature (evolve dynamics k s) = temperature s.
Proof.
  unfold evolve. by destruct (dynamics k _) as [[p m] g].
Qed.

Lemma steps_keep n (s : sampler) :
  let s' := Nat.iter n (fun s => (step potential dynamics s).2) s in
  saved_state s' = saved_state s /\ temperature s' = temperature s.
Proof.
  induction n as [|n [IHs IHt]]; [done|]. cbn zeta.
  rewrite Nat.iter_succ. unfold step at 1 3. cbn [snd].
  destruct (evolve_keeps Interior
              (Nat.iter n (fun s => (step potential dynamics s).2) s))
    as [-> ->].
  done.
Qed.

(** C6: after [initial_step(save_state=True)], any number of full steps and
    [final_step], [maybe_reject] rejects exactly when the number drawn is
    greater than [exp(-delta_energy/temperature)]; whenever it rejects, the
    values and the momenta are those that [initial_step] found, and the
    potential computed again is the loss that [initial_step] returned. *)
Theorem maybe_reject_restores (s : sampler) (n : nat) (delta_energy : R) :
  let (prev_loss, s3) := trajectory potential dynamics n s in
  let u := (uniform (rng s3)).1 in
  exists rejected s4,
    maybe_reject uniform delta_energy s3 = Ok (rejected, s4)
    /\ (rejected = true <-> (u > exp (- delta_energy / temperature s))%R)
    /\ (rejected = true ->
        params s4 = params s /\ momentum_buffer s4 = momentum_buffer s
        /\ potential (params s4) = prev_loss).
Proof.
  unfold trajectory, initial_step, final_step. cbn [snd].
  set (s1 := evolve dynamics Initial (save s)).
  set (s2 := Nat.iter n (fun s => (step potential dynamics s).2) s1).
  set (s3 := evolve dynamics Final s2).
  assert (Hs : saved_state s3 = Some (params s, momentum_buffer s)
               /\ temperature s3 = temperature s).
  { destruct (evolve_keeps Final s2) as [Hs3 Ht3].
    destruct (steps_keep n s1) as [Hs2 Ht2]. cbn zeta in Hs2, Ht2.
    destruct (evolve_keeps Initial (save s)) as [Hs1 Ht1].
    unfold s3. rewrite Hs3, Ht3. unfold s2. rewrite Hs2, Ht2.
    unfold s1. by rewrite Hs1, Ht1. }
  destruct Hs as [Hsaved Htemp]. unfold maybe_reject.
  destruct (uniform (rng s3)) as [u g]. cbn [fst]. rewrite Hsaved, Htemp.
  destruct (Rlt_dec (exp (- delta_energy / temperature s)) u) as [Hu|Hu].
  - eexists _, _. split; [reflexivity|]. by split.
  - eexists _, _. split; [reflexivity|]. split; [|done].
    split; [done|]. intros Hgt. by apply Rgt_lt in Hgt.
Qed.

End VerletProofs.

(** ** The theorems at concrete inputs *)

(** The optimizer step found at position [k] of a concrete trace. *)
Tactic Notation "pose_event" constr(tr) constr(k) ident(g) ident(ps)
    ident(H) :=
  let t := eval vm_compute in (tr !! k) in
  match t with
  | Some (EvOptStep ?i [?g0] ?ps0) =>
      pose (g := g0); pose (ps := ps0);
      assert (H : EvOptStep i [g] ps ∈ tr)
        by (apply (list_elem_of_lookup_2 _ k); vm_compute; reflexivity)
  end.

Lemma run_skip2_index_error_witness :
  let c := with_skip 2 (default_config 10 3 5) in
  toy_init c = Ok (toy_runner c)
  /\ toy_params <> []
  /\ (run cosine_schedule (toy_runner c)).1 = Raise IndexError.
Proof.
  cbn zeta.
  assert (Hinit : toy_init (with_skip 2 (default_config 10 3 5))
                  = Ok (toy_runner (with_skip 2 (default_config 10 3 5))))
    by (vm_compute; reflexivity).
  assert (Hps : toy_params <> []) by discriminate.
  split_and!; [exact Hinit | exact Hps |].
  apply (run_skip2_index_error cosine_schedule toy_params [tt] 1 None _
           Hinit Hps).
Defined.

(** The same outcome by plain evaluation of the model. *)
Example toy_run_skip2_raises :
  (run cosine_schedule (toy_runner (with_skip 2 (default_config 10 3 5)))).1
  = Raise IndexError.
Proof. vm_compute. reflexivity. Qed.

(** With two cycles the spilled sample of the first cycle takes slot 0 of
    the second, and [run] raises all the same in the last cycle. *)
Example toy_run_skip2_two_cycles_raises :
  (run cosine_schedule
     (toy_runner (with_cycles 2 (with_skip 2 (default_config 10 3 5))))).1
  = Raise IndexError.
Proof. vm_compute. reflexivity. Qed.

(** With [skip=1], the scenario of the spec, [run] returns and each buffer
    has five slots. *)
Example toy_run_skip1_returns :
  let r := (run cosine_schedule (toy_runner (default_config 10 3 5))) in
  r.1 = Ok tt
  /\ length <$> get_samples r.2 !! "w.p" = Some 5%nat
  /\ length <$> get_samples r.2 !! "lr" = Some 5%nat.
Proof. vm_compute. done. Qed.

Lemma init_accepts_invalid_configurations :
  (let c := default_config 1 1 1 in
   epochs_per_cycle c < warmup_epochs c + sample_epochs c
   /\ is_ok (toy_init c))
  /\ (let c := with_skip (-1) (default_config 1 0 0) in
      skip c <= 0 /\ is_ok (toy_init c))
  /\ (let c := with_skip 2 (default_config 1 0 1) in
      sample_epochs c / skip c = 0 /\ is_ok (toy_init c)).
Proof. cbn zeta. split_and!; by vm_compute. Qed.

Lemma init_raises_iff_witness :
  ~ is_ok (toy_init (with_skip 0 (default_config 10 3 5)))
  /\ is_ok (toy_init (default_config 1 1 1)).
Proof.
  pose proof (init_raises_iff (batch:=unit) (S:=unit) toy_params [tt] 1
                (with_skip 0 (default_config 10 3 5)) None) as [H0 _].
  pose proof (init_raises_iff (batch:=unit) (S:=unit) toy_params [tt] 1
                (default_config 1 1 1) None) as [H1 _].
  split.
  - apply H0. left. reflexivity.
  - destruct (toy_init (default_config 1 1 1)) eqn:E; [exact I|].
    exfalso. unfold toy_init in E.
    assert (Hbad : ~ is_ok (__init__ (S:=unit) toy_params [tt] 1
                              (default_config 1 1 1) None))
      by (rewrite E; intros []).
    apply H1 in Hbad. cbn in Hbad. destruct Hbad as [Hb|Hb].
    + discriminate Hb.
    + vm_compute in Hb. discriminate Hb.
Defined.

Lemma run_phase_temperature_witness :
  let c := default_config 3 1 1 in
  let tr := trace (run cosine_schedule (toy_runner c)).2 in
  toy_init c = Ok (toy_runner c)
  /\ (exists g ps, EvOptStep 0 [g] ps ∈ tr /\ pg_temperature g = 0%R)
  /\ (exists g ps, EvOptStep 1 [g] ps ∈ tr
                   /\ pg_temperature g = temperature c).
Proof.
  cbn zeta.
  assert (Hinit : toy_init (default_config 3 1 1)
                  = Ok (toy_runner (default_config 3 1 1)))
    by (vm_compute; reflexivity).
  split_and!; [exact Hinit| |].
  - pose_event (trace (run cosine_schedule
                         (toy_runner (default_config 3 1 1))).2)
      1%nat g ps Hev.
    exists g, ps. split; [exact Hev|].
    pose proof (run_phase_temperature cosine_schedule toy_params [tt] 1 _ None
                  _ Hinit 0 [g] ps 0 0 Hev ltac:(lia) ltac:(cbn; lia)
                  eq_refl) as H.
    apply Forall_cons in H as [H _]. exact H.
  - pose_event (trace (run cosine_schedule
                         (toy_runner (default_config 3 1 1))).2)
      3%nat g ps Hev.
    exists g, ps. split; [exact Hev|].
    pose proof (run_phase_temperature cosine_schedule toy_params [tt] 1 _ None
                  _ Hinit 1 [g] ps 1 0 Hev ltac:(lia) ltac:(cbn; lia)
                  eq_refl) as H.
    apply Forall_cons in H as [H _]. exact H.
Defined.


Lemma step_appends_metrics_witness :
  let r := toy_running (default_config 4 1 1) in
  exists r',
    step 1 tt true r = (Ok 7%R, r')
    /\ series r' "lr" = [(1 / 100 * cosine_schedule 4 2)%R]
    /\ series r' "loss" = [7%R]
    /\ series r' "preconditioner/w" = [1%R]
    /\ series r' "est_temperature/w" = [2%R]
    /\ series r' "est_config_temp/w" = [3%R]
    /\ series r' "log_prob_accept" = [(7 - 7)%R]
    /\ prev_loss r' = Some 7%R.
Proof.
  cbn zeta.
  destruct (step_appends_metrics (toy_running (default_config 4 1 1)) 1 tt
              true _ _ [] _ _ [] 7%R eq_refl eq_refl eq_refl eq_refl eq_refl
              ltac:(apply NoDup_singleton) ltac:(intros _; reflexivity))
    as (r' & Hstep & Hlr & Hloss & Hpar & Hlpa & _ & _ & Hprev).
  exists r'. destruct (Hpar "w" ltac:(by left)) as (Hp & Het & Hec).
  split_and!.
  - exact Hstep.
  - exact Hlr.
  - exact Hloss.
  - exact Hp.
  - exact Het.
  - exact Hec.
  - apply Hlpa. lia.
  - exact Hprev.
Defined.

Lemma cosine_schedule_full_period T : 0 < T -> cosine_schedule T T = 1%R.
Proof.
  intros HT. destruct (cosine_schedule_ok T HT) as (H0 & _ & Hper).
  specialize (Hper 0 ltac:(lia)). rewrite Z.add_0_l in Hper.
  by rewrite Hper.
Qed.

(** With no descent and no warmup epoch the first sampling epoch is epoch 0
    of its cycle: the rate in force there is the rate at epoch 0, not a
    smaller one; and with a single epoch in the cycle the rate recorded
    with the sample, one period later, is the initial rate again. *)
Lemma first_sampling_epoch_can_be_epoch_0 :
  let c := default_config 1 0 1 in
  let r := (run cosine_schedule (toy_runner c)).2 in
  toy_init c = Ok (toy_runner c)
  /\ sampling_decay c = true
  /\ cosine_schedule_spec (period (toy_runner c))
       (cosine_schedule (period (toy_runner c)))
  /\ (epochs_per_cycle c - sample_epochs c) * 1 = 0
  /\ ~ (forall lr_s lr_0,
          lr_at (trace r) ((epochs_per_cycle c - sample_epochs c) * 1) lr_s ->
          lr_at (trace r) 0 lr_0 -> (lr_s < lr_0)%R)
  /\ exists x, get_samples r !! "lr" = Some [[x]] /\ x = learning_rate c.
Proof.
  cbn zeta. split_and!.
  - vm_compute. reflexivity.
  - reflexivity.
  - apply (cosine_schedule_ok 1). lia.
  - reflexivity.
  - intros Hclaim.
    pose_event (trace (run cosine_schedule
                         (toy_runner (default_config 1 0 1))).2)
      1%nat g ps Hev.
    assert (Hat : lr_at (trace (run cosine_schedule
                                  (toy_runner (default_config 1 0 1))).2)
                    0 (pg_lr g)) by (exists g, ps; split; [exact Hev|done]).
    apply (Rlt_irrefl (pg_lr g)). exact (Hclaim _ _ Hat Hat).
  - exists (learning_rate (default_config 1 0 1) * cosine_schedule 1 1)%R.
    split; [vm_compute; reflexivity|].
    rewrite cosine_schedule_full_period by lia. lra.
Qed.

Lemma run_lr_first_step_and_first_sampling_epoch_witness :
  let c := default_config 3 1 1 in
  let tr := trace (run cosine_schedule (toy_runner c)).2 in
  toy_init c = Ok (toy_runner c)
  /\ cosine_schedule_spec (period (toy_runner c))
       (cosine_schedule (period (toy_runner c)))
  /\ exists lr_0 lr_s,
       lr_at tr 0 lr_0 /\ lr_at tr 2 lr_s
       /\ lr_0 = learning_rate c /\ (lr_s < learning_rate c)%R.
Proof.
  cbn zeta.
  assert (Hinit : toy_init (default_config 3 1 1)
                  = Ok (toy_runner (default_config 3 1 1)))
    by (vm_compute; reflexivity).
  assert (Hsched : cosine_schedule_spec
                     (period (toy_runner (default_config 3 1 1)))
                     (cosine_schedule
                        (period (toy_runner (default_config 3 1 1)))))
    by (apply (cosine_schedule_ok 3); lia).
  split_and!; [exact Hinit | exact Hsched |].
  pose_event (trace (run cosine_schedule
                       (toy_runner (default_config 3 1 1))).2)
    1%nat g0 ps0 Hev0.
  pose_event (trace (run cosine_schedule
                       (toy_runner (default_config 3 1 1))).2)
    5%nat g2 ps2 Hev2.
  assert (Hat0 : lr_at (trace (run cosine_schedule
                                 (toy_runner (default_config 3 1 1))).2)
                   0 (pg_lr g0)) by (exists g0, ps0; split; [exact Hev0|done]).
  assert (Hat2 : lr_at (trace (run cosine_schedule
                                 (toy_runner (default_config 3 1 1))).2)
                   2 (pg_lr g2)) by (exists g2, ps2; split; [exact Hev2|done]).
  exists (pg_lr g0), (pg_lr g2). split_and!; [exact Hat0 | exact Hat2 | |].
  - exact (proj1 (run_lr_first_step_and_first_sampling_epoch cosine_schedule
                    toy_params [tt] 1 _ None _ Hinit Hsched 0 _ Hat0)
             eq_refl).
  - apply (proj2 (run_lr_first_step_and_first_sampling_epoch cosine_schedule
                    toy_params [tt] 1 _ None _ Hinit Hsched 2 _ Hat2)).
    + cbn. lia.
    + cbn. lra.
    + reflexivity.
Defined.

Lemma run_sampling_decay_false_still_decays_witness :
  let c := with_sampling_decay false (default_config 2 0 2) in
  let tr := trace (run cosine_schedule (toy_runner c)).2 in
  toy_init c = Ok (toy_runner c)
  /\ sampling_decay c = false
  /\ (epochs_per_cycle c - warmup_epochs c - sample_epochs c) + warmup_epochs c
     = 0
  /\ exists lr_0 lr_1,
       lr_at tr 0 lr_0 /\ lr_at tr 1 lr_1 /\ (lr_1 < lr_0)%R.
Proof.
  cbn zeta.
  assert (Hinit : toy_init (with_sampling_decay false (default_config 2 0 2))
                  = Ok (toy_runner
                          (with_sampling_decay false (default_config 2 0 2))))
    by (vm_compute; reflexivity).
  assert (Hsched : cosine_schedule_spec
                     (period (toy_runner (with_sampling_decay false
                                            (default_config 2 0 2))))
                     (cosine_schedule
                        (period (toy_runner (with_sampling_decay false
                                               (default_config 2 0 2))))))
    by (apply (cosine_schedule_ok 2); lia).
  split_and!; [exact Hinit | reflexivity | reflexivity |].
  pose_event (trace (run cosine_schedule
                       (toy_runner (with_sampling_decay false
                                      (default_config 2 0 2)))).2)
    1%nat g0 ps0 Hev0.
  pose_event (trace (run cosine_schedule
                       (toy_runner (with_sampling_decay false
                                      (default_config 2 0 2)))).2)
    3%nat g1 ps1 Hev1.
  assert (Hat0 : lr_at (trace (run cosine_schedule
                                 (toy_runner (with_sampling_decay false
                                                (default_config 2 0 2)))).2)
                   0 (pg_lr g0)) by (exists g0, ps0; split; [exact Hev0|done]).
  assert (Hat1 : lr_at (trace (run cosine_schedule
                                 (toy_runner (with_sampling_decay false
                                                (default_config 2 0 2)))).2)
                   1 (pg_lr g1)) by (exists g1, ps1; split; [exact Hev1|done]).
  exists (pg_lr g0), (pg_lr g1). split_and!; [exact Hat0 | exact Hat1 |].
  apply (run_sampling_decay_false_still_decays cosine_schedule toy_params
           [tt] 1 _ None _ Hinit eq_refl Hsched ltac:(cbn; lra) 0 1 _ _
           Hat0 Hat1).
  cbn. lia.
Defined.


(** ** What the methods never do *)

Section PreservesRules.
Context {batch S : Type}.

Abbreviation runner := (runner batch S).

Lemma preserves_ret {A} (P : runner -> Prop) (a : A) : preserves P (ret a).
Proof. by intros r. Qed.

Lemma preserves_raise {A} (P : runner -> Prop) e :
  preserves P (raise (A:=A) e).
Proof. by intros r. Qed.

Lemma preserves_gets {A} (P : runner -> Prop) (f : runner -> A) :
  preserves P (gets f).
Proof. by intros r. Qed.

Lemma preserves_attr {A} (P : runner -> Prop) (f : runner -> option A) :
  preserves P (attr f).
Proof. intros r Hr. unfold attr. by destruct (f r). Qed.

Lemma preserves_lift {A} (P : runner -> Prop) (o : outcome A) :
  preserves P (lift o).
Proof. by intros r. Qed.

Lemma preserves_modify (P : runner -> Prop) (f : runner -> runner) :
  (forall r, P r -> P (f r)) -> preserves P (modify f).
Proof. intros H r Hr. by apply H. Qed.

Lemma preserves_bind {A B} (P : runner -> Prop) (m : M runner A)
    (k : A -> M runner B) :
  preserves P m -> (forall a, preserves P (k a)) -> preserves P (bind m k).
Proof.
  intros Hm Hk r Hr. specialize (Hm r Hr). unfold bind.
  destruct (m r) as [[a|e] r']; [by apply Hk | exact Hm].
Qed.

Lemma preserves_for_acc {A B} (P : runner -> Prop) (l : list B)
    (body : A -> B -> M runner A) acc :
  (forall acc x, preserves P (body acc x)) ->
  preserves P (for_acc l body acc).
Proof.
  intros Hb. revert acc. induction l as [|x l IH]; intros acc.
  - apply preserves_ret.
  - cbn [for_acc]. apply preserves_bind; [apply Hb | apply IH].
Qed.

Lemma preserves_for_each {B} (P : runner -> Prop) (l : list B)
    (body : B -> M runner unit) :
  (forall x, preserves P (body x)) -> preserves P (for_each l body).
Proof. intros Hb. apply preserves_for_acc. intros _ x. apply Hb. Qed.

End PreservesRules.

(** One step of a proof that a computation keeps a property. *)
Ltac preserves_step :=
  lazymatch goal with
  | |- preserves _ (bind _ _) => apply preserves_bind; [|intros]
  | |- preserves _ (ret _) => apply preserves_ret
  | |- preserves _ (raise _) => apply preserves_raise
  | |- preserves _ (gets _) => apply preserves_gets
  | |- preserves _ (attr _) => apply preserves_attr
  | |- preserves _ (lift _) => apply preserves_lift
  | |- preserves _ (modify _) => apply preserves_modify
  | |- preserves _ (add_scalar _ _ _) => apply preserves_modify
  | |- preserves _ (for_each _ _) => apply preserves_for_each; intros
  | |- preserves _ (for_acc _ _ _) => apply preserves_for_acc; intros
  | |- preserves _ (let (_, _) := ?x in _) => destruct x
  | |- preserves _ (if ?b then _ else _) => destruct b
  | |- preserves _ (match ?x with _ => _ end) => destruct x
  end.

Ltac name_neq := let H := fresh in intros H; simplify_eq/=; done.

Ltac proj_simpl :=
  cbn [cfg descent_epochs num_samples dataloader dataset_len model
       summary_writer _samples metrics param_names optimizer scheduler
       prev_loss trace set_model set_summary_writer set_samples set_metrics
       set_param_names set_optimizer set_scheduler set_prev_loss log_event
       step_core].

Section FrameProofs.
Context {batch S : Type} `{GP : GradientProvider batch} `{SA : Sampler S}.
Variable get_cosine_schedule : Z -> Z -> R.

Abbreviation runner := (runner batch S).

(** A property that every assignment and every logging keeps is kept by
    [step]. *)
Lemma step_preserves (P : runner -> Prop) i xy lr_decay :
  (forall ev r, P r -> P (log_event ev r)) ->
  (forall v r, P r -> P (set_model v r)) ->
  (forall v r, P r -> P (set_optimizer v r)) ->
  (forall v r, P r -> P (set_scheduler v r)) ->
  (forall v r, P r -> P (set_prev_loss v r)) ->
  (forall n v s r, P r -> P (add_scalar_eff n v s r)) ->
  preserves P (step i xy lr_decay).
Proof.
  intros Hlog Hmodel Hopt Hsch Hprev Hadd. unfold step.
  repeat preserves_step; auto.
Qed.

Lemma run_preserves (P : runner -> Prop) :
  (forall ev r, P r -> P (log_event ev r)) ->
  (forall v r, P r -> P (set_model v r)) ->
  (forall v r, P r -> P (set_optimizer v r)) ->
  (forall v r, P r -> P (set_scheduler v r)) ->
  (forall v r, P r -> P (set_prev_loss v r)) ->
  (forall v r, P r -> P (set_param_names v r)) ->
  (forall n v s r, P r -> P (add_scalar_eff n v s r)) ->
  (forall key idx v, preserves P (write_sample key idx v)) ->
  preserves P (run get_cosine_schedule).
Proof.
  intros Hlog Hmodel Hopt Hsch Hprev Hnames Hadd Hwrite.
  pose proof (fun i xy b =>
                step_preserves P i xy b Hlog Hmodel Hopt Hsch Hprev Hadd)
    as Hstep.
  unfold run, run_cycle, run_epoch, set_phase_temperature, run_batches,
    maybe_estimate_preconditioner, record_sample.
  repeat first [ apply Hstep | apply Hwrite | preserves_step ]; auto.
Qed.

(** *** The setup *)

Lemma same_setup_refl (r : runner) : same_setup r r.
Proof. by repeat split. Qed.

Lemma add_scalar_eff_setup (r0 : runner) n v s r :
  same_setup r0 r -> same_setup r0 (add_scalar_eff n v s r).
Proof.
  unfold add_scalar_eff. cbn. by destruct (summary_writer r).
Qed.

Lemma write_sample_setup (r0 : runner) key idx v :
  preserves (same_setup r0) (write_sample key idx v).
Proof.
  unfold write_sample. repeat preserves_step; auto.
Qed.

(** X1: [step] and [run] leave the attributes of the setup as [__init__]
    assigned them, from any state and whether they return or raise. *)
Theorem step_and_run_keep_setup (r : runner) i xy lr_decay :
  same_setup r (step i xy lr_decay r).2
  /\ same_setup r (run get_cosine_schedule r).2.
Proof.
  split.
  - apply (step_preserves (same_setup r));
      first [done | apply add_scalar_eff_setup | apply same_setup_refl].
  - apply (run_preserves (same_setup r));
      first [done | apply add_scalar_eff_setup | apply write_sample_setup
            | apply same_setup_refl].
Qed.

(** *** The metrics *)

Lemma metrics_grow_refl (r : runner) : metrics_grow r r.
Proof. by intros name. Qed.

Lemma add_scalar_eff_metrics_grow (r0 : runner) n v s r :
  metrics_grow r0 r -> metrics_grow r0 (add_scalar_eff n v s r).
Proof.
  intros H name. etrans; [apply H|].
  unfold add_scalar_eff, series. cbn.
  destruct (summary_writer r); cbn; apply mseries_append_prefix.
Qed.

Lemma write_sample_metrics_grow (r0 : runner) key idx v :
  preserves (metrics_grow r0) (write_sample key idx v).
Proof.
  unfold write_sample. repeat preserves_step; auto.
Qed.

(** X2: the metrics are append-only: whatever the state [step] or [run] starts
    from and whether it returns or raises, every series it finds is still
    there afterwards, as the beginning of the series it leaves. *)
Theorem step_and_run_only_append_metrics (r : runner) i xy lr_decay name :
  series r name `prefix_of` series (step i xy lr_decay r).2 name
  /\ series r name `prefix_of` series (run get_cosine_schedule r).2 name.
Proof.
  split.
  - apply (step_preserves (metrics_grow r));
      first [done | apply add_scalar_eff_metrics_grow
            | apply metrics_grow_refl].
  - apply (run_preserves (metrics_grow r));
      first [done | apply add_scalar_eff_metrics_grow
            | apply write_sample_metrics_grow | apply metrics_grow_refl].
Qed.

(** *** The sample buffers *)

Lemma same_slots_refl (r : runner) : same_slots r r.
Proof. by intros key. Qed.

Lemma setitem_length (buf buf' : list tensor) idx v :
  setitem buf idx v = Ok buf' -> length buf' = length buf.
Proof.
  unfold setitem. repeat case_decide; intros [= <-]; apply length_insert.
Qed.

Lemma add_scalar_eff_slots (r0 : runner) n v s r :
  same_slots r0 r -> same_slots r0 (add_scalar_eff n v s r).
Proof.
  unfold add_scalar_eff. cbn. by destruct (summary_writer r).
Qed.

Lemma write_sample_slots (r0 : runner) key idx v :
  preserves (same_slots r0) (write_sample key idx v).
Proof.
  intros r Hr. unfold write_sample. rewrite bind_gets.
  destruct (_samples r !! key) as [buf|] eqn:Hbuf; [|exact Hr].
  destruct (setitem buf idx v) as [buf'|e] eqn:Hset; [|exact Hr].
  rewrite bind_lift_ok. unfold modify. cbn [snd]. intros key'.
  cbn [_samples set_samples].
  destruct (decide (key = key')) as [<-|Hne].
  - rewrite lookup_insert_eq, <- Hr, Hbuf. cbn.
    by rewrite (setitem_length _ _ _ _ Hset).
  - rewrite lookup_insert_ne by done. apply Hr.
Qed.

(** X3: [step] does not touch the sample buffers, and [run] neither adds nor
    removes a buffer nor changes the number of slots of one, from any state
    and whether they return or raise. *)
Theorem step_and_run_keep_sample_slots (r : runner) i xy lr_decay :
  _samples (step i xy lr_decay r).2 = _samples r
  /\ forall key,
       length <$> (get_samples (run get_cosine_schedule r).2 !! key)
       = length <$> (get_samples r !! key).
Proof.
  split.
  - by apply (step_preserves (fun r' => _samples r' = _samples r));
      try done; intros; unfold add_scalar_eff; cbn;
      destruct (summary_writer _).
  - apply (run_preserves (same_slots r));
      first [done | apply add_scalar_eff_slots | apply write_sample_slots
            | apply same_slots_refl].
Qed.

End FrameProofs.

(** ** The buffers that [__init__] allocates *)

Section InitProofs.
Context {batch S : Type}.

Abbreviation runner := (runner batch S).

Lemma string_length_app s1 s2 :
  String.length (s1 +:+ s2) = (String.length s1 + String.length s2)%nat.
Proof. induction s1 as [|a s1 IH]; simpl; [done|]. by f_equal. Qed.

Lemma string_app_inj_r s1 s2 t : s1 +:+ t = s2 +:+ t -> s1 = s2.
Proof.
  revert s2. induction s1 as [|a s1 IH]; intros [|b s2] H.
  - done.
  - apply (f_equal String.length) in H.
    rewrite !string_length_app in H. simpl in H. lia.
  - apply (f_equal String.length) in H.
    rewrite !string_length_app in H. simpl in H. lia.
  - change (String a (s1 +:+ t) = String b (s2 +:+ t)) in H.
    injection H as -> H. f_equal. by apply IH.
Qed.

Lemma alloc_samples_lookup n (ps : named_params) :
  0 <= n -> NoDup (fst <$> ps) ->
  exists m, alloc_samples n ps = Ok m
    /\ (forall name p, (name, p) ∈ ps ->
          m !! (name +:+ ".p")
          = Some (replicate (Z.to_nat n) (zeros_like (p_value p))))
    /\ (forall key, is_Some (m !! key) ->
          exists name, name ∈ fst <$> ps /\ key = name +:+ ".p").
Proof.
  intros Hn. induction ps as [|np ps IH] using rev_ind; intros Hnd.
  - exists ∅. split_and!; [done| |].
    + intros name p Hin. by apply elem_of_nil in Hin.
    + intros key [x Hx]. by rewrite lookup_empty in Hx.
  - rewrite fmap_app in Hnd. apply NoDup_app in Hnd as (Hnd & Hfresh & _).
    destruct (IH Hnd) as (m & Hm & Hin & Hdom).
    rewrite alloc_samples_snoc, Hm. unfold torch_zeros.
    rewrite decide_False by lia. eexists. split_and!; [reflexivity| |].
    + intros name p Hp. apply elem_of_app in Hp as [Hp|Hp].
      * rewrite lookup_insert_ne; [by apply Hin|].
        intros Heq. apply string_app_inj_r in Heq.
        apply (Hfresh name).
        -- by apply (list_elem_of_fmap_2 fst _ (name, p)).
        -- rewrite <- Heq. cbn. by left.
      * apply list_elem_of_singleton in Hp as <-. cbn.
        by rewrite lookup_insert_eq.
    + intros key Hkey.
      destruct (decide (np.1 +:+ ".p" = key)) as [<-|Hne].
      * exists np.1. split; [|done]. rewrite fmap_app. apply elem_of_app.
        right. cbn. by left.
      * rewrite lookup_insert_ne in Hkey by done.
        destruct (Hdom key Hkey) as (name & Hname & ->).
        exists name. split; [|done]. rewrite fmap_app. apply elem_of_app.
        by left.
Qed.

(** X4: [__init__] allocates exactly one buffer per tracked parameter, under
    the parameter's name followed by ".p", and one under "lr"; each has
    [num_samples * cycles] slots, all zero; and the metrics start empty. *)
Theorem init_buffers_zero (ps : named_params) (dl : list batch) len c sw
    (r0 : runner) :
  __init__ ps dl len c sw = Ok r0 -> NoDup (fst <$> ps) ->
  let N := Z.to_nat (num_samples r0 * cycles c) in
  (forall name p, (name, p) ∈ ps ->
     get_samples r0 !! (name +:+ ".p")
     = Some (replicate N (zeros_like (p_value p))))
  /\ get_samples r0 !! "lr" = Some (replicate N [0%R])
  /\ (forall key, is_Some (get_samples r0 !! key) ->
        key = "lr" \/ exists name, name ∈ fst <$> ps /\ key = name +:+ ".p")
  /\ metrics r0 = ∅.
Proof.
  unfold __init__, floordiv. intros Hinit Hnd.
  destruct (decide (skip c = 0)) as [|Hskip]; [done|].
  set (n := sample_epochs c / skip c * cycles c) in *.
  destruct (decide (n < 0)) as [Hn|Hn].
  { destruct (alloc_samples_negative n ps Hn) as [E|E]; rewrite E in Hinit;
      [|done].
    unfold torch_zeros in Hinit. by rewrite decide_True in Hinit. }
  destruct (alloc_samples_lookup n ps ltac:(lia) Hnd) as (m & E & Hin & Hdom).
  rewrite E in Hinit. unfold torch_zeros in Hinit.
  rewrite decide_False in Hinit by done. injection Hinit as <-.
  cbn. fold n. split_and!.
  - intros name p Hp. rewrite lookup_insert_ne by apply key_p_not_lr.
    by apply Hin.
  - by rewrite lookup_insert_eq.
  - intros key Hkey. destruct (decide ("lr" = key)) as [<-|Hne]; [by left|].
    right. rewrite lookup_insert_ne in Hkey by done. by apply Hdom.
  - done.
Qed.

(** X5: [__init__] raises a [ZeroDivisionError] exactly when [skip] is 0, a
    [RuntimeError] exactly when [skip] is not 0 and the number of slots is
    negative, and nothing else. *)
Theorem init_exceptions (ps : named_params) (dl : list batch) len c sw e :
  __init__ (S:=S) ps dl len c sw = Raise e <->
  (e = ZeroDivisionError /\ skip c = 0)
  \/ (e = RuntimeError /\ skip c <> 0
      /\ sample_epochs c / skip c * cycles c < 0).
Proof.
  unfold __init__, floordiv.
  destruct (decide (skip c = 0)) as [Hskip|Hskip].
  { split; [intros [= <-]; by left|].
    intros [[-> _]|(_ & ? & _)]; done. }
  set (n := sample_epochs c / skip c * cycles c).
  destruct (decide (n < 0)) as [Hn|Hn].
  - assert (Hraise : match alloc_samples n ps with
                     | Raise e => Raise e
                     | Ok bufs =>
                         match torch_zeros n [0%R] with
                         | Raise e => Raise e
                         | Ok lr_buf =>
                             Ok (Runner (S:=S) c
                                   (epochs_per_cycle c - warmup_epochs c
                                    - sample_epochs c)
                                   (sample_epochs c / skip c) dl len ps sw
                                   (<["lr" := lr_buf]> bufs) ∅ None None None
                                   None [])
                         end
                     end = Raise RuntimeError).
    { destruct (alloc_samples_negative n ps Hn) as [-> | ->]; [|done].
      unfold torch_zeros. by rewrite decide_True. }
    rewrite Hraise. split.
    + intros [= <-]. right. done.
    + intros [[_ ?]|(-> & _)]; done.
  - destruct (alloc_samples_ok n ps ltac:(lia)) as (m & -> & _).
    unfold torch_zeros. rewrite decide_False by done. split; [done|].
    intros [[_ ?]|(_ & _ & ?)]; done.
Qed.

End InitProofs.
(** ** More on [add_scalar] and [step] *)

Section StepProofs.
Context {batch S : Type} `{GP : GradientProvider batch} `{SA : Sampler S}.

Abbreviation runner := (runner batch S).

(** X6: [add_scalar] always returns; afterwards the name is a key of the
    metrics, its series is the one before (empty for a new name) with the
    value at the end, no other series has changed, the summary writer, when
    there is one, has received the name, the value and the step, and nothing
    else of the runner has changed. *)
Theorem add_scalar_appends (name : string) (value : R) (step : Z)
    (r : runner) :
  let r' := (add_scalar name value step r).2 in
  (add_scalar name value step r).1 = Ok tt
  /\ metrics r' !! name = Some (series r name ++ [value])
  /\ (forall other, other <> name -> metrics r' !! other = metrics r !! other)
  /\ summary_writer r'
     = (fun w => w ++ [(name, value, step)]) <$> summary_writer r
  /\ only_metrics r r'.
Proof.
  cbn zeta. unfold add_scalar, modify. cbn [fst snd].
  split_and!; [done| | | |apply add_scalar_only_metrics];
    unfold add_scalar_eff; cbn; destruct (summary_writer r) eqn:Hw; cbn.
  - unfold append_metric. by rewrite lookup_insert_eq.
  - unfold append_metric. by rewrite lookup_insert_eq.
  - intros other Hne. unfold append_metric. by rewrite lookup_insert_ne.
  - intros other Hne. unfold append_metric. by rewrite lookup_insert_ne.
  - done.
  - done.
Qed.

Lemma step_metrics_lr loss prev lr st nps m :
  mseries (step_metrics loss prev lr st nps m) "lr" = mseries m "lr" ++ [lr].
Proof.
  unfold step_metrics.
  assert (mseries (append_metric "loss" loss (append_metric "lr" lr
            (fold_left (fun m x => log_param_metrics st x m) nps m))) "lr"
          = mseries m "lr" ++ [lr]) as H.
  { rewrite mseries_append_ne by name_neq. rewrite mseries_append_eq.
    rewrite fold_log_other; [done|]. intros x _. repeat split; name_neq. }
  destruct prev; [|exact H]. by rewrite mseries_append_ne by name_neq.
Qed.

Lemma step_metrics_loss loss prev lr st nps m :
  mseries (step_metrics loss prev lr st nps m) "loss"
  = mseries m "loss" ++ [loss].
Proof.
  unfold step_metrics.
  assert (mseries (append_metric "loss" loss (append_metric "lr" lr
            (fold_left (fun m x => log_param_metrics st x m) nps m))) "loss"
          = mseries m "loss" ++ [loss]) as H.
  { rewrite mseries_append_eq. rewrite mseries_append_ne by name_neq.
    rewrite fold_log_other; [done|]. intros x _. repeat split; name_neq. }
  destruct prev; [|exact H]. by rewrite mseries_append_ne by name_neq.
Qed.

Lemma step_metrics_lpa_none loss lr st nps m :
  mseries (step_metrics loss None lr st nps m) "log_prob_accept"
  = mseries m "log_prob_accept".
Proof.
  unfold step_metrics. do 2 (rewrite mseries_append_ne by name_neq).
  rewrite fold_log_other; [done|]. intros x _. repeat split; name_neq.
Qed.

(** X7: on a runner that [run] has set up (one group, one base rate), a [step]
    with [lr_decay=False] leaves the scheduler and the group's
    hyperparameters, the rate among them, as they were, and logs the
    current rate; with [lr_decay=True] the scheduler's count goes up by one,
    the group's rate becomes the base rate times the multiplier at the new
    count, which is the rate logged, and the other hyperparameters stay. *)
Theorem step_lr_decay_switch (r : runner) i xy o g sch b pl :
  optimizer r = Some o -> param_groups o = [g] ->
  scheduler r = Some sch -> base_lrs sch = [b] ->
  is_Some (param_names r) ->
  (i > 0 -> prev_loss r = Some pl) ->
  (let r' := (step i xy false r).2 in
   (step i xy false r).1 = Ok (step_loss r xy)
   /\ scheduler r' = Some sch
   /\ param_groups <$> optimizer r' = Some [g]
   /\ series r' "lr" = series r "lr" ++ [pg_lr g])
  /\ (let r' := (step i xy true r).2 in
      let lr' := (b * lr_lambda sch (last_epoch sch + 1))%R in
      (step i xy true r).1 = Ok (step_loss r xy)
      /\ scheduler r'
         = Some (MkLambdaLR (lr_lambda sch) [b] (last_epoch sch + 1))
      /\ param_groups <$> optimizer r' = Some [set_lr lr' g]
      /\ series r' "lr" = series r "lr" ++ [lr']).
Proof.
  intros Ho Hg Hs Hb [names Hn] Hp. split; cbn zeta.
  - destruct (step_spec r i xy false o g [] sch b [] names pl Ho Hg Hs Hb Hn Hp)
      as [w ->].
    cbn [fst snd]. unfold series. proj_simpl. cbn [after_scheduler fst snd].
    split_and!; [done..| |].
    + unfold optimizer_step. cbn. by rewrite Hg.
    + by rewrite step_metrics_lr.
  - destruct (step_spec r i xy true o g [] sch b [] names pl Ho Hg Hs Hb Hn Hp)
      as [w ->].
    cbn [fst snd]. unfold series. proj_simpl.
    cbn [after_scheduler scheduler_step fst snd].
    split_and!; [done| | |].
    + by rewrite Hb.
    + unfold optimizer_step. cbn. by rewrite Hg, Hb.
    + by rewrite step_metrics_lr.
Qed.

(** X8: [step] before [run]: the optimizer does not exist yet, the first line
    raises and nothing has changed. With the attributes of [run] in place
    but no previous loss, a [step] of positive index raises too, but only
    at the last metric: by then the potential has been evaluated, the
    optimizer and the scheduler have stepped, the parameters have moved and
    the rate and the loss have been logged; the previous loss is still
    missing afterwards. *)
Theorem step_attribute_errors (r : runner) i xy lr_decay :
  (optimizer r = None ->
   step i xy lr_decay r = (Raise AttributeError, r))
  /\ (forall o g sch b,
        optimizer r = Some o -> param_groups o = [g] ->
        scheduler r = Some sch -> base_lrs sch = [b] ->
        is_Some (param_names r) -> i > 0 -> prev_loss r = None ->
        let r' := (step i xy lr_decay r).2 in
        (step i xy lr_decay r).1 = Raise AttributeError
        /\ model r' = (optimizer_step o (step_grads r xy)).2
        /\ trace r'
           = trace r ++ [EvPotential xy (temperature (cfg r))
                           (data_mult (cfg r));
                         EvOptStep i [g] (step_grads r xy)]
        /\ scheduler r'
           = Some (if lr_decay
                   then MkLambdaLR (lr_lambda sch) [b] (last_epoch sch + 1)
                   else sch)
        /\ series r' "lr" = series r "lr" ++ [logged_lr lr_decay sch g b]
        /\ series r' "loss" = series r "loss" ++ [step_loss r xy]
        /\ series r' "log_prob_accept" = series r "log_prob_accept"
        /\ prev_loss r' = None).
Proof.
  split.
  { intros Ho. unfold step. by rewrite bind_attr_none. }
  intros o g sch b Ho Hg Hs Hb [names Hn] Hi Hp.
  assert (exists w,
    step i xy lr_decay r
    = (Raise AttributeError,
       set_summary_writer w
         (set_metrics
            (step_metrics (step_loss r xy) None (logged_lr lr_decay sch g b)
               (sgld_advance (param_groups o) (step_grads r xy) (sgld_state o))
               (zip names (optimizer_step o (step_grads r xy)).2)
               (metrics r))
            (set_prev_loss None (step_core i xy lr_decay o sch r)))))
    as [w ->].
  { unfold step.
    rewrite (bind_attr_some _ _ _ _ Ho).
    rewrite !bind_gets, !bind_modify.
    unfold group0 at 1. rewrite Hg, bind_lift_ok.
    rewrite !bind_gets, !bind_modify, !bind_gets.
    cbn [model set_model log_event cfg].
    rewrite bind_modify.
    unfold step_core, step_grads, step_loss.
    set (ps := clamp_grads _ _).
    set (loss := potential_avg _ _ _ _).
    destruct (optimizer_step o ps) as [o' ps'] eqn:Eo.
    assert (Hgo' : param_groups o' = [g]).
    { unfold optimizer_step in Eo. injection Eo as <- _. cbn. by rewrite Hg. }
    assert (Hso' : sgld_state o' = sgld_advance [g] ps (sgld_state o)).
    { unfold optimizer_step in Eo. injection Eo as <- _. cbn. by rewrite Hg. }
    rewrite !bind_modify.
    match goal with
    | |- context [bind (if lr_decay then ?m else _) ?k ?r0] =>
        assert (Hsched : exists sch' o'',
                  after_scheduler lr_decay sch o' = (sch', o'')
                  /\ param_groups o'' = [set_lr (logged_lr lr_decay sch g b) g]
                  /\ sgld_state o'' = sgld_state o'
                  /\ bind (if lr_decay then m else ret tt) k r0
                     = k tt (set_optimizer (Some o'')
                               (set_scheduler (Some sch') r0)))
    end.
    { destruct lr_decay; cbn [after_scheduler logged_lr].
      - exists (scheduler_step sch o').1, (scheduler_step sch o').2.
        split; [by destruct (scheduler_step sch o')|].
        rewrite (bind_assoc (attr scheduler)).
        rewrite (bind_attr_some _ _ _ sch) by (cbn; exact Hs).
        unfold scheduler_step. cbn [fst snd param_groups sgld_state].
        rewrite (bind_assoc (modify _)), !bind_modify.
        rewrite Hgo', Hb. repeat split.
      - exists sch, o'. split; [reflexivity|]. rewrite Hgo'. repeat split.
        + by destruct g.
        + rewrite bind_ret. rewrite set_scheduler_id by (cbn; exact Hs).
          reflexivity. }
    destruct Hsched as (sch' & o'' & Es & Hgo'' & Hso'' & ->).
    rewrite (bind_attr_some _ _ _ names) by (cbn; exact Hn).
    rewrite (bind_attr_some _ _ _ o'') by reflexivity.
    rewrite bind_gets. cbn [model set_model set_optimizer set_scheduler].
    unfold bind at 1.
    rewrite (for_each_eff _ _ (log_param i (sgld_state o''))) by reflexivity.
    cbn [fst snd].
    match goal with |- context [fold_left _ _ ?r0] => set (r1 := r0) end.
    rewrite (runner_nf r1).
    destruct (fold_log_param_nf i (sgld_state o'') (zip names ps') r1
                (metrics r1) (summary_writer r1)) as [w1 ->].
    unfold group0. rewrite Hgo'', bind_lift_ok, !bind_add_scalar.
    cbn [pg_lr set_lr].
    destruct (add_scalar_nf "lr" (logged_lr lr_decay sch g b) i r1
                (fold_left (fun m x => log_param_metrics (sgld_state o'') x m)
                   (zip names ps') (metrics r1)) w1) as [w2 ->].
    match goal with
    | |- context [add_scalar_eff "loss" _ _
                    (set_summary_writer _ (set_metrics ?m _))] =>
        destruct (add_scalar_nf "loss" loss i r1 m w2) as [w3 ->]
    end.
    unfold step_metrics. rewrite Hso'', Hso'.
    rewrite decide_True by done.
    rewrite (bind_assoc (attr prev_loss)).
    rewrite bind_attr_none by (cbn; exact Hp).
    rewrite Es, Hg. exists w3. subst r1. proj_simpl. cbn [fst snd].
    clearbody ps loss. destruct r. cbn in Hp. rewrite Hp. reflexivity. }
  cbn zeta. cbn [fst snd]. unfold series. proj_simpl.
  split_and!; try done.
  - by rewrite Hg, <- app_assoc.
  - destruct lr_decay; cbn [after_scheduler scheduler_step fst]; [|done].
    by rewrite Hb.
  - by rewrite step_metrics_lr.
  - by rewrite step_metrics_loss.
  - by rewrite step_metrics_lpa_none.
Qed.

End StepProofs.

(** ** The metrics and the "lr" buffer over a whole [run] *)

(** ** Recording a sample *)

Section RecordLemmas.
Context {batch S : Type} `{GP : GradientProvider batch} `{SA : Sampler S}.

Abbreviation runner := (runner batch S).

Lemma set_samples_same (r : runner) : set_samples (_samples r) r = r.
Proof. by destruct r. Qed.

Lemma bind_after {A B} (m : M runner A) (k k' : A -> M runner B) r :
  (forall a r1, m r = (Ok a, r1) -> k a r1 = k' a r1) ->
  bind m k r = bind m k' r.
Proof.
  intros H. unfold bind. destruct (m r) as [[a|e] r1]; [by apply H|done].
Qed.

(** The loop of line 105 over the tracked parameters. *)
Lemma write_params_lookup N se k nn cc (ps : named_params) (r : runner) :
  k <> 0 -> 0 <= nn * cc + se / k < N -> NoDup (fst <$> ps) ->
  (forall np, np ∈ ps ->
     exists buf, _samples r !! (np.1 +:+ ".p") = Some buf
                 /\ Z.of_nat (length buf) = N) ->
  let body := fun np : string * param =>
    bind (lift (floordiv se k)) (fun q =>
      write_sample (np.1 +:+ ".p") (nn * cc + q) (p_value np.2)) in
  exists bufs,
    for_each ps body r = (Ok tt, set_samples bufs r)
    /\ (forall np, np ∈ ps ->
          exists buf, _samples r !! (np.1 +:+ ".p") = Some buf
            /\ bufs !! (np.1 +:+ ".p")
               = Some (<[Z.to_nat (nn * cc + se / k) := p_value np.2]> buf))
    /\ (forall key, (forall np, np ∈ ps -> key <> np.1 +:+ ".p") ->
          bufs !! key = _samples r !! key).
Proof.
  intros Hk Hidx Hnd Hbufs. cbn zeta.
  assert (Hdiv : floordiv se k = Ok (se / k)).
  { unfold floordiv. by rewrite decide_False. }
  rewrite Hdiv. clear Hdiv.
  revert r Hbufs. induction ps as [|np ps IH]; intros r Hbufs.
  - exists (_samples r). split_and!.
    + by rewrite set_samples_same.
    + intros np Hnp. by apply elem_of_nil in Hnp.
    + done.
  - rewrite fmap_cons in Hnd. apply NoDup_cons in Hnd as [Hfresh Hnd].
    destruct (Hbufs np ltac:(by left)) as (buf & Hlook & Hlen).
    assert (Hother : forall np', np' ∈ ps ->
              np.1 +:+ ".p" <> np'.1 +:+ ".p").
    { intros np' Hnp' Heq. apply string_app_inj_r in Heq.
      apply Hfresh. rewrite Heq. by apply list_elem_of_fmap_2. }
    set (buf' := <[Z.to_nat (nn * cc + se / k) := p_value np.2]> buf).
    set (r1 := set_samples (<[np.1 +:+ ".p" := buf']> (_samples r)) r).
    assert (Hw : write_sample (np.1 +:+ ".p") (nn * cc + se / k)
                   (p_value np.2) r = (Ok tt, r1)).
    { unfold write_sample. rewrite bind_gets, Hlook. unfold setitem.
      rewrite decide_True by lia. by rewrite bind_lift_ok. }
    destruct (IH Hnd r1) as (bufs & Hrest & Hin & Hout).
    { intros np' Hnp'. unfold r1. cbn [_samples set_samples].
      rewrite lookup_insert_ne by by apply Hother.
      apply Hbufs. by right. }
    exists bufs. split_and!.
    + unfold for_each. cbn [for_acc]. rewrite bind_assoc, bind_lift_ok.
      unfold bind at 1. rewrite Hw. unfold for_each in Hrest.
      by rewrite Hrest.
    + intros np' Hnp'. apply elem_of_cons in Hnp' as [->|Hnp'].
      * exists buf. split; [done|]. rewrite Hout by done.
        unfold r1. cbn [_samples set_samples]. by rewrite lookup_insert_eq.
      * destruct (Hin np' Hnp') as (b & Hb & Hb'). exists b. split; [|done].
        unfold r1 in Hb. cbn [_samples set_samples] in Hb.
        by rewrite lookup_insert_ne in Hb by by apply Hother.
    + intros key Hkey. rewrite Hout.
      * unfold r1. cbn [_samples set_samples].
        rewrite lookup_insert_ne; [done|].
        intros Heq. by apply (Hkey np ltac:(by left)).
      * intros np' Hnp'. apply Hkey. by right.
Qed.

End RecordLemmas.

Section LogProofs.
Context {batch S : Type} `{GP : GradientProvider batch} `{SA : Sampler S}.
Variable get_cosine_schedule : Z -> Z -> R.

Abbreviation runner := (runner batch S).

Lemma logged_lrs_succ (r0 : runner) lam k :
  0 <= k ->
  logged_lrs r0 lam (k + 1)
  = logged_lrs r0 lam k ++ [(learning_rate (cfg r0) * lam (k + 1)%Z)%R].
Proof.
  intros Hk. unfold logged_lrs. rewrite seqZ_app by lia.
  rewrite fmap_app. f_equal. rewrite seqZ_cons by lia. rewrite seqZ_nil by lia.
  cbn. do 3 f_equal. lia.
Qed.

Lemma metrics_after_eq (r0 : runner) lam k k' a a' r :
  k = k' -> a = a' -> metrics_after r0 lam k a r -> metrics_after r0 lam k' a' r.
Proof. by intros -> ->. Qed.

(** One [step] of [run]. *)
Lemma step_log (r0 : runner) lam N i c xy a r :
  0 <= c < cycles (cfg r0) -> 0 <= i < period r0 ->
  run_inv r0 lam N (c * period r0 + i)
    (phase_temperature r0 (i / batches r0)) r ->
  (i > 0 -> is_Some (prev_loss r)) ->
  metrics_after r0 lam (c * period r0 + i) (a + Z.max 0 (i - 1)) r ->
  exists loss r',
    step i xy true r = (Ok loss, r')
    /\ run_inv r0 lam N (c * period r0 + i + 1)
         (phase_temperature r0 (i / batches r0)) r'
    /\ is_Some (prev_loss r')
    /\ metrics_after r0 lam (c * period r0 + i + 1) (a + Z.max 0 i) r'
    /\ _samples r' = _samples r.
Proof.
  intros Hc Hi Hinv Hprev (Hlr & Hloss & Hlpa).
  pose proof (step_hoare r0 lam N i c xy Hc Hi r (conj Hinv Hprev)) as Hstep.
  destruct Hinv as (Hcfg & Hd & Hn & Hdl & Hlen & Hnames & Hpn & Hopt & Hsch
                    & Htr & Hbuf).
  destruct Hopt as (g & s & Ho & Hg & Ht).
  assert (exists pl, i > 0 -> prev_loss r = Some pl) as [pl Hpl].
  { destruct (decide (i > 0)) as [H|H].
    - destruct (Hprev H) as [pl Hpl]. by exists pl.
    - exists 0%R. intros; lia. }
  destruct (step_spec r i xy true (MkSGLD [g] s) g [] _ _ []
              (fst <$> model r0) pl Ho eq_refl Hsch eq_refl Hpn Hpl)
    as [w Hs].
  rewrite Hs in Hstep. rewrite Hs. destruct Hstep as [Hinv' Hprev'].
  eexists _, _. split; [reflexivity|]. split_and!; [done|done| |done].
  unfold metrics_after, series. proj_simpl. split_and!.
  - rewrite step_metrics_lr. fold (series r "lr"). rewrite Hlr.
    rewrite logged_lrs_succ by nia. by cbn.
  - rewrite step_metrics_loss, length_app. fold (series r "loss"). cbn. lia.
  - destruct (decide (i > 0)) as [Hi0|Hi0].
    + unfold step_metrics. rewrite mseries_append_eq.
      do 2 (rewrite mseries_append_ne by name_neq).
      rewrite fold_log_other.
      2:{ intros x _. repeat split; name_neq. }
      rewrite length_app. fold (series r "log_prob_accept"). cbn. lia.
    + rewrite step_metrics_lpa_none. fold (series r "log_prob_accept"). lia.
Qed.

(** The batches of one epoch. *)
Lemma run_batches_log (r0 : runner) lam N c e a s :
  0 <= c < cycles (cfg r0) -> 0 <= e < epochs_per_cycle (cfg r0) ->
  hoare
    (fun r => run_inv r0 lam N (c * period r0 + e * batches r0)
                (phase_temperature r0 e) r
              /\ (e * batches r0 > 0 -> is_Some (prev_loss r))
              /\ metrics_after r0 lam (c * period r0 + e * batches r0)
                   (a + Z.max 0 (e * batches r0 - 1)) r
              /\ _samples r = s)
    (run_batches (e * batches r0))
    (fun i r' => i = (e + 1) * batches r0
                 /\ run_inv r0 lam N (c * period r0 + (e + 1) * batches r0)
                      (phase_temperature r0 e) r'
                 /\ ((e + 1) * batches r0 > 0 -> is_Some (prev_loss r'))
                 /\ metrics_after r0 lam
                      (c * period r0 + (e + 1) * batches r0)
                      (a + Z.max 0 ((e + 1) * batches r0 - 1)) r'
                 /\ _samples r' = s)
    (fun _ _ => False).
Proof.
  intros Hc He r (Hinv & Hprev & Hm & Hs). unfold run_batches.
  rewrite bind_gets.
  assert (Hdl : dataloader r = dataloader r0) by apply Hinv.
  rewrite Hdl.
  pose (I := fun (n : nat) (acc : Z) (r : runner) =>
    acc = e * batches r0 + Z.of_nat n
    /\ run_inv r0 lam N (c * period r0 + (e * batches r0 + Z.of_nat n))
         (phase_temperature r0 e) r
    /\ (acc > 0 -> is_Some (prev_loss r))
    /\ metrics_after r0 lam (c * period r0 + (e * batches r0 + Z.of_nat n))
         (a + Z.max 0 (e * batches r0 + Z.of_nat n - 1)) r
    /\ _samples r = s).
  assert (HI : hoare (I 0%nat (e * batches r0))
                 (for_acc (dataloader r0)
                    (fun i xy => bind (step i xy true) (fun _ => ret (i + 1)))
                    (e * batches r0))
                 (I (length (dataloader r0))) (fun _ _ => False)).
  { apply hoare_for_acc. intros n xy acc Hxy.
    apply lookup_lt_Some in Hxy.
    assert (Hn : 0 <= Z.of_nat n < batches r0) by (unfold batches; lia).
    intros r1 (-> & Hinv1 & Hprev1 & Hm1 & Hs1).
    assert (Hi : 0 <= e * batches r0 + Z.of_nat n < period r0).
    { unfold period. nia. }
    apply (run_inv_eq r0 lam N _ (c * period r0
                                    + (e * batches r0 + Z.of_nat n)) _
             (phase_temperature r0
                ((e * batches r0 + Z.of_nat n) / batches r0))
             r1 eq_refl) in Hinv1;
      [|by rewrite batch_index_epoch by lia].
    destruct (step_log r0 lam N (e * batches r0 + Z.of_nat n) c xy a r1
                Hc Hi Hinv1 Hprev1 Hm1)
      as (loss & r2 & Hstep & Hinv2 & Hprev2 & Hm2 & Hs2).
    unfold bind. rewrite Hstep. unfold ret, I.
    rewrite batch_index_epoch in Hinv2 by lia. split_and!.
    - lia.
    - eapply run_inv_eq; [| reflexivity | exact Hinv2]. lia.
    - done.
    - eapply metrics_after_eq; [| | exact Hm2]; lia.
    - by rewrite Hs2. }
  specialize (HI r). unfold I in HI at 1.
  assert (Hpre : e * batches r0 = e * batches r0 + Z.of_nat 0
                 /\ run_inv r0 lam N
                      (c * period r0 + (e * batches r0 + Z.of_nat 0))
                      (phase_temperature r0 e) r
                 /\ (e * batches r0 > 0 -> is_Some (prev_loss r))
                 /\ metrics_after r0 lam
                      (c * period r0 + (e * batches r0 + Z.of_nat 0))
                      (a + Z.max 0 (e * batches r0 + Z.of_nat 0 - 1)) r
                 /\ _samples r = s).
  { split_and!; [lia | | done | | done].
    - eapply run_inv_eq; [| reflexivity | exact Hinv]. lia.
    - eapply metrics_after_eq; [| | exact Hm]; lia. }
  specialize (HI Hpre).
  destruct (for_acc _ _ _ r) as [[i|ex] r']; [|done].
  destruct HI as (-> & Hinv' & Hprev' & Hm' & Hs'). fold (batches r0) in *.
  split_and!.
  - lia.
  - eapply run_inv_eq; [| reflexivity | exact Hinv']. lia.
  - intros H. apply Hprev'. nia.
  - eapply metrics_after_eq; [| | exact Hm']; [lia|].
    f_equal. f_equal. lia.
  - done.
Qed.

(** What the other statements of an epoch leave alone. *)
Lemma set_phase_temperature_logs e m s :
  preserves (fun r : runner => metrics r = m /\ _samples r = s)
    (set_phase_temperature e).
Proof. unfold set_phase_temperature. repeat preserves_step; auto. Qed.

Lemma maybe_estimate_preconditioner_logs e m s :
  preserves (fun r : runner => metrics r = m /\ _samples r = s)
    (maybe_estimate_preconditioner e).
Proof. unfold maybe_estimate_preconditioner. repeat preserves_step; auto. Qed.

Lemma record_sample_metrics c e m :
  preserves (fun r : runner => metrics r = m) (record_sample c e).
Proof.
  unfold record_sample, write_sample. repeat preserves_step; auto.
Qed.

Lemma write_p_keeps_lr buf n idx v :
  preserves (fun r : runner => _samples r !! "lr" = Some buf)
    (write_sample (n +:+ ".p") idx v).
Proof.
  intros r Hr. unfold write_sample. rewrite bind_gets.
  destruct (_samples r !! (n +:+ ".p")) as [b|]; [|exact Hr].
  destruct (setitem b idx v) as [b'|]; [|exact Hr].
  rewrite bind_lift_ok. unfold modify. cbn [snd _samples set_samples].
  rewrite lookup_insert_ne; [exact Hr|].
  intros H. by apply (key_p_not_lr n).
Qed.

(** The slots of a regular configuration. *)
Lemma regular_quotient (r0 : runner) e :
  slots_regular r0 -> 0 <= e < epochs_per_cycle (cfg r0) -> records r0 e ->
  0 <= sampling_epoch r0 e / skip (cfg r0) < num_samples r0
  /\ sampling_epoch r0 e
     = sampling_epoch r0 e / skip (cfg r0) * skip (cfg r0).
Proof.
  intros (Hk & [z Hz] & Hn & Hd) He [Hse Hmod].
  assert (Hlt : sampling_epoch r0 e < sample_epochs (cfg r0)).
  { unfold sampling_epoch. lia. }
  assert (Hnz : num_samples r0 = z).
  { rewrite Hn, Hz. by rewrite Z.div_mul by lia. }
  pose proof (Z.div_mod (sampling_epoch r0 e) (skip (cfg r0)) ltac:(lia))
    as Hdm.
  rewrite Hmod in Hdm.
  set (q := sampling_epoch r0 e / skip (cfg r0)) in *.
  split; [|lia]. nia.
Qed.

Lemma regular_index_range (r0 : runner) c e :
  slots_regular r0 -> 0 <= c -> 0 <= e < epochs_per_cycle (cfg r0) ->
  records r0 e ->
  num_samples r0 * c <= sample_index r0 c e < num_samples r0 * (c + 1).
Proof.
  intros Hreg Hc He Hrec.
  destruct (regular_quotient r0 e Hreg He Hrec) as [Hq _].
  unfold sample_index. nia.
Qed.

Lemma regular_index_inj (r0 : runner) c e c' e' :
  slots_regular r0 -> 0 <= c -> 0 <= c' ->
  0 <= e < epochs_per_cycle (cfg r0) -> 0 <= e' < epochs_per_cycle (cfg r0) ->
  records r0 e -> records r0 e' ->
  sample_index r0 c e = sample_index r0 c' e' -> c = c' /\ e = e'.
Proof.
  intros Hreg Hc Hc' He He' Hrec Hrec' Heq.
  destruct (regular_quotient r0 e Hreg He Hrec) as [Hq Hse].
  destruct (regular_quotient r0 e' Hreg He' Hrec') as [Hq' Hse'].
  unfold sample_index in Heq.
  set (q := sampling_epoch r0 e / skip (cfg r0)) in *.
  set (q' := sampling_epoch r0 e' / skip (cfg r0)) in *.
  assert (c = c') as <- by nia.
  split; [done|]. assert (q = q') as Hqq by lia.
  rewrite Hqq in Hse. unfold sampling_epoch in Hse, Hse'. lia.
Qed.

(** What [record_sample] does to the "lr" buffer. *)
Lemma record_sample_lr (r0 : runner) lam N k t c e r r' :
  run_inv r0 lam N k t r -> skip (cfg r0) <> 0 ->
  record_sample c e r = (Ok tt, r') ->
  exists buf,
    _samples r !! "lr" = Some buf /\ Z.of_nat (length buf) = N
    /\ ((~ records r0 e /\ _samples r' = _samples r)
        \/ (records r0 e /\ - N <= sample_index r0 c e < N
            /\ (0 <= sample_index r0 c e ->
                _samples r' !! "lr"
                = Some (<[Z.to_nat (sample_index r0 c e)
                          := [(learning_rate (cfg r0) * lam k)%R]]> buf)))).
Proof.
  intros Hinv Hskip Hrun.
  pose proof (record_sample_spec r0 lam N k t c e r Hinv Hskip) as Hspec.
  rewrite Hrun in Hspec. destruct Hspec as (_ & _ & Hwok).
  pose proof Hinv as (Hcfg & Hd & Hn & Hdl & Hlen & Hnames & Hpn & Hopt & Hsch
                      & Htr & Hbuf).
  destruct Hopt as (g & s & Ho & Hlr & Ht).
  assert (Hlr_key : "lr" ∈ sample_keys r0).
  { unfold sample_keys. apply elem_of_app. right. by left. }
  destruct (Hbuf "lr" Hlr_key) as (buf & Hlook & Hlenb).
  exists buf. split_and!; [done..|].
  revert Hrun. unfold record_sample. rewrite !bind_gets, Hd, Hn, Hcfg.
  fold (sampling_epoch r0 e).
  destruct (decide (0 <= sampling_epoch r0 e)) as [Hse|Hse].
  2:{ intros [= <-]. left. split; [|done]. intros [? _]. lia. }
  unfold pymod. rewrite decide_False by done. rewrite bind_lift_ok.
  destruct (decide (sampling_epoch r0 e mod skip (cfg r0) = 0)) as [Hm|Hm].
  2:{ intros [= <-]. left. split; [|done]. intros [_ ?]. lia. }
  assert (Hrec : records r0 e) by done.
  specialize (Hwok Hrec). intros Hrun. right. do 2 (split; [done|]).
  intros Hpos. revert Hrun. rewrite bind_gets.
  assert (Hkeys : forall np, np ∈ model r -> np.1 +:+ ".p" ∈ sample_keys r0).
  { intros np Hnp. unfold sample_keys. apply elem_of_app. left.
    apply (list_elem_of_fmap_2 (fun n => n +:+ ".p")).
    rewrite <- Hnames. by apply list_elem_of_fmap_2. }
  pose proof (write_params_spec r0 N (sampling_epoch r0 e) (skip (cfg r0))
                (num_samples r0) c (model r) r Hbuf Hskip Hkeys) as Hps.
  cbn zeta in Hps. fold (sample_index r0 c e) in Hps.
  rewrite decide_True in Hps by done.
  destruct Hps as (bufs & Hps & Hbuf').
  assert (Hkeep : _samples (set_samples bufs r) !! "lr" = Some buf).
  { change (set_samples bufs r) with ((Ok tt, set_samples bufs r).2).
    rewrite <- Hps. revert Hlook.
    apply (preserves_for_each (fun r => _samples r !! "lr" = Some buf)).
    intros np. apply preserves_bind; [apply preserves_lift|].
    intros q. apply write_p_keeps_lr. }
  unfold bind at 1. rewrite Hps.
  rewrite (bind_attr_some _ _ _ (MkSGLD [g] s)) by exact Ho.
  cbn [group0 param_groups]. rewrite bind_lift_ok.
  unfold floordiv. rewrite decide_False by done. rewrite bind_lift_ok.
  fold (sample_index r0 c e).
  unfold write_sample. rewrite bind_gets, Hkeep.
  unfold setitem. rewrite decide_True by lia. rewrite bind_lift_ok.
  unfold modify. intros [= <-]. cbn [_samples set_samples].
  by rewrite lookup_insert_eq, Hlr.
Qed.

(** What [record_sample] does to the parameter buffers. *)
Lemma record_sample_params (r0 : runner) lam N k t c e r r' :
  run_inv r0 lam N k t r -> skip (cfg r0) <> 0 ->
  NoDup (fst <$> model r0) -> records r0 e ->
  0 <= sample_index r0 c e < N ->
  record_sample c e r = (Ok tt, r') ->
  forall name p, (name, p) ∈ model r' ->
    exists buf, _samples r' !! (name +:+ ".p") = Some buf
      /\ buf !! Z.to_nat (sample_index r0 c e) = Some (p_value p).
Proof.
  intros Hinv Hskip Hnd [Hse Hmod] Hidx.
  pose proof Hinv as (Hcfg & Hd & Hn & Hdl & Hlen & Hnames & Hpn & Hopt & Hsch
                      & Htr & Hbuf).
  destruct Hopt as (g & s & Ho & Hlr & Ht).
  assert (Hlr_key : "lr" ∈ sample_keys r0).
  { unfold sample_keys. apply elem_of_app. right. by left. }
  assert (Hbufs : forall np, np ∈ model r ->
            exists buf, _samples r !! (np.1 +:+ ".p") = Some buf
                        /\ Z.of_nat (length buf) = N).
  { intros np Hnp. apply Hbuf. unfold sample_keys. apply elem_of_app. left.
    apply (list_elem_of_fmap_2 (fun n => n +:+ ".p")).
    rewrite <- Hnames. by apply list_elem_of_fmap_2. }
  unfold record_sample. rewrite !bind_gets, Hd, Hn, Hcfg.
  fold (sampling_epoch r0 e). rewrite decide_True by done.
  unfold pymod. rewrite decide_False by done. rewrite bind_lift_ok.
  rewrite decide_True by done. rewrite bind_gets.
  destruct (write_params_lookup N (sampling_epoch r0 e) (skip (cfg r0))
              (num_samples r0) c (model r) r Hskip Hidx
              ltac:(by rewrite Hnames) Hbufs)
    as (bufs & Hfor & Hin & Hout).
  unfold bind at 1. rewrite Hfor.
  rewrite (bind_attr_some _ _ _ (MkSGLD [g] s)) by exact Ho.
  cbn [group0 param_groups]. rewrite bind_lift_ok.
  unfold floordiv. rewrite decide_False by done. rewrite bind_lift_ok.
  fold (sample_index r0 c e).
  destruct (Hbuf "lr" Hlr_key) as (buf_lr & Hlook & Hlen_lr).
  unfold write_sample. rewrite bind_gets. cbn [_samples set_samples].
  rewrite Hout by (intros np _; apply key_p_not_lr). rewrite Hlook.
  unfold setitem. rewrite decide_True by lia. rewrite bind_lift_ok.
  unfold modify. intros [= <-]. cbn [model _samples set_samples].
  intros name p Hp. destruct (Hin (name, p) Hp) as (b & Hb & Hb').
  destruct (Hbufs (name, p) Hp) as (b0 & Hb0 & Hlen0).
  cbn [fst snd] in *. rewrite Hb in Hb0. injection Hb0 as <-.
  eexists. split.
  - rewrite lookup_insert_ne; [exact Hb'|]. apply key_p_not_lr.
  - apply list_lookup_insert_eq. unfold tensor, sample_index in *. lia.
Qed.

Lemma lr_buffer_record (r0 : runner) lam N c e bufs bufs' buf :
  lr_buffer_ok r0 lam c e bufs -> 0 <= c ->
  0 <= e < epochs_per_cycle (cfg r0) ->
  bufs !! "lr" = Some buf -> Z.of_nat (length buf) = N ->
  (~ records r0 e /\ bufs' = bufs)
  \/ (records r0 e /\ - N <= sample_index r0 c e < N
      /\ (0 <= sample_index r0 c e ->
          bufs' !! "lr"
          = Some (<[Z.to_nat (sample_index r0 c e)
                    := [lr_after_epoch r0 lam c e]]> buf))) ->
  lr_buffer_ok r0 lam c (e + 1) bufs'.
Proof.
  intros Hok Hc He Hlook Hlen Hcase Hreg.
  destruct (Hok Hreg) as (buf0 & Hl0 & Hall).
  rewrite Hlook in Hl0. injection Hl0 as <-.
  destruct Hcase as [[Hnrec ->]|(Hrec & Hin & Hw)].
  - exists buf. split; [done|]. intros c' e' Hc' He' Hbefore Hrec'.
    apply Hall; try done.
    destruct Hbefore as [?|[-> ?]]; [by left|right].
    split; [done|]. destruct (decide (e' = e)) as [->|]; [done|lia].
  - pose proof (regular_index_range r0 c e Hreg Hc He Hrec) as Hrange.
    destruct (regular_quotient r0 e Hreg He Hrec) as [Hq _].
    assert (Hpos : 0 <= sample_index r0 c e).
    { assert (0 <= num_samples r0 * c) by (apply Z.mul_nonneg_nonneg; lia).
      lia. }
    eexists. split; [by apply Hw|].
    intros c' e' Hc' He' Hbefore Hrec'.
    destruct (decide (c' = c /\ e' = e)) as [[-> ->]|Hne].
    + apply list_lookup_insert_eq. unfold tensor in *. lia.
    + pose proof (regular_index_range r0 c' e' Hreg Hc' He' Hrec') as Hrange'.
      destruct (regular_quotient r0 e' Hreg He' Hrec') as [Hq' _].
      rewrite list_lookup_insert_ne.
      * apply Hall; try done.
        destruct Hbefore as [?|[-> ?]]; [by left|right].
        split; [done|]. destruct (decide (e' = e)) as [->|]; [|lia].
        by destruct Hne.
      * intros Heq. apply Hne.
        assert (sample_index r0 c e = sample_index r0 c' e') as Hidx by nia.
        by destruct (regular_index_inj r0 c e c' e' Hreg Hc Hc' He He' Hrec
                       Hrec' Hidx) as [-> ->].
Qed.

(** One epoch. *)
Lemma run_epoch_log (r0 : runner) lam N c e a :
  skip (cfg r0) <> 0 ->
  0 <= c < cycles (cfg r0) -> 0 <= e < epochs_per_cycle (cfg r0) ->
  hoare
    (fun r => (exists t, run_inv r0 lam N (c * period r0 + e * batches r0) t r)
              /\ (e * batches r0 > 0 -> is_Some (prev_loss r))
              /\ metrics_after r0 lam (c * period r0 + e * batches r0)
                   (a + Z.max 0 (e * batches r0 - 1)) r
              /\ lr_buffer_ok r0 lam c e (_samples r))
    (run_epoch c (e * batches r0) e)
    (fun i r' =>
       i = (e + 1) * batches r0
       /\ (exists t, run_inv r0 lam N (c * period r0 + (e + 1) * batches r0)
                       t r')
       /\ ((e + 1) * batches r0 > 0 -> is_Some (prev_loss r'))
       /\ metrics_after r0 lam (c * period r0 + (e + 1) * batches r0)
            (a + Z.max 0 ((e + 1) * batches r0 - 1)) r'
       /\ lr_buffer_ok r0 lam c (e + 1) (_samples r')
       /\ snapshot_ok r0 c e r')
    (fun _ _ => True).
Proof.
  intros Hskip Hc He r ([t Hinv] & Hprev & Hm & Hw). unfold run_epoch.
  destruct (set_phase_temperature_spec r0 lam N _ t e r Hinv)
    as (r1 & Hset & Hinv1 & Hprev1).
  pose proof (set_phase_temperature_logs e (metrics r) (_samples r) r
                (conj eq_refl eq_refl)) as [Hm1 Hs1].
  rewrite Hset in Hm1, Hs1. cbn [snd] in Hm1, Hs1.
  unfold bind at 1. rewrite Hset.
  pose proof (run_batches_log r0 lam N c e a (_samples r) Hc He r1) as Hb.
  unfold bind at 1.
  assert (Hpre1 : run_inv r0 lam N (c * period r0 + e * batches r0)
                    (phase_temperature r0 e) r1
                  /\ (e * batches r0 > 0 -> is_Some (prev_loss r1))
                  /\ metrics_after r0 lam (c * period r0 + e * batches r0)
                       (a + Z.max 0 (e * batches r0 - 1)) r1
                  /\ _samples r1 = _samples r).
  { split_and!; [done|by rewrite Hprev1| |done].
    unfold metrics_after, series in *. by rewrite Hm1. }
  specialize (Hb Hpre1).
  destruct (run_batches (e * batches r0) r1) as [[i|ex] r2]; [|done].
  destruct Hb as (-> & Hinv2 & Hprev2 & Hm2 & Hs2).
  pose proof (maybe_estimate_preconditioner_spec r0 lam N _ _ e r2 Hinv2) as Hp.
  pose proof (maybe_estimate_preconditioner_logs e (metrics r2) (_samples r2)
                r2 (conj eq_refl eq_refl)) as [Hm3 Hs3].
  unfold bind at 1.
  destruct (maybe_estimate_preconditioner e r2) as [[[]|ex] r3]; [|done].
  cbn [snd] in Hm3, Hs3. destruct Hp as [Hinv3 Hprev3].
  pose proof (record_sample_metrics c e (metrics r3) r3 eq_refl) as Hm4.
  pose proof (record_sample_lr r0 lam N
                (c * period r0 + (e + 1) * batches r0)
                (phase_temperature r0 e) c e r3) as Hlr.
  unfold bind at 1.
  destruct (record_sample c e r3) as [[[]|ex] r4] eqn:Hrec; [|done].
  cbn [snd] in Hm4. cbv beta in Hm4.
  pose proof (record_sample_spec r0 lam N _ _ c e r3 Hinv3 Hskip) as Hr.
  rewrite Hrec in Hr. destruct Hr as (Hinv4 & Hprev4 & _).
  destruct (Hlr r4 Hinv3 Hskip eq_refl) as (buf & Hlook & Hlen & Hcase).
  unfold ret. split_and!.
  - done.
  - by eexists.
  - by rewrite Hprev4, Hprev3.
  - unfold metrics_after, series in *. by rewrite Hm4, Hm3.
  - rewrite <- Hs2, <- Hs3 in Hw.
    apply (lr_buffer_record r0 lam N c e (_samples r3) (_samples r4) buf);
      first [done | lia].
  - intros Hreg Hnd Hrecords.
    pose proof (regular_index_range r0 c e Hreg ltac:(lia) He Hrecords)
      as Hrange.
    destruct (regular_quotient r0 e Hreg He Hrecords) as [Hq _].
    destruct Hcase as [[? _]|(_ & Hin & _)]; [done|].
    apply (record_sample_params r0 lam N _ _ c e r3 r4 Hinv3 Hskip Hnd
             Hrecords); [|done].
    split; [|lia].
    assert (0 <= num_samples r0 * c) by (apply Z.mul_nonneg_nonneg; lia).
    lia.
Qed.

(** One cycle. *)
Lemma run_cycle_log (r0 : runner) lam N c a :
  skip (cfg r0) <> 0 -> 0 <= c < cycles (cfg r0) ->
  hoare
    (fun r => (exists t, run_inv r0 lam N (c * steps_per_cycle r0) t r)
              /\ metrics_after r0 lam (c * steps_per_cycle r0) a r
              /\ lr_buffer_ok r0 lam c 0 (_samples r))
    (run_cycle c)
    (fun _ r' =>
       (exists t, run_inv r0 lam N ((c + 1) * steps_per_cycle r0) t r')
       /\ metrics_after r0 lam ((c + 1) * steps_per_cycle r0)
            (a + Z.max 0 (steps_per_cycle r0 - 1)) r'
       /\ lr_buffer_ok r0 lam (c + 1) 0 (_samples r')
       /\ (0 < epochs_per_cycle (cfg r0) ->
           snapshot_ok r0 c (epochs_per_cycle (cfg r0) - 1) r'))
    (fun _ _ => True).
Proof.
  intros Hskip Hc r ([t Hinv] & Hm & Hw). unfold run_cycle. rewrite bind_gets.
  assert (Hcfg : cfg r = cfg r0) by apply Hinv. rewrite Hcfg.
  set (E := epochs_per_cycle (cfg r0)).
  destruct (decide (E <= 0)) as [HE|HE].
  { unfold range. rewrite seqZ_nil by done. cbn [for_acc].
    rewrite !bind_ret. unfold ret.
    assert (HT : steps_per_cycle r0 = 0).
    { unfold steps_per_cycle. fold E. lia. }
    rewrite HT in *. split_and!.
    - exists t. eapply run_inv_eq; [| reflexivity | exact Hinv]. lia.
    - eapply metrics_after_eq; [| | exact Hm]; lia.
    - intros Hreg. destruct (Hw Hreg) as (buf & Hlook & _).
      exists buf. split; [done|]. intros c' e' _ He'. fold E in He'. lia.
    - lia. }
  assert (HT : steps_per_cycle r0 = period r0).
  { unfold steps_per_cycle, period. fold E. f_equal. lia. }
  rewrite HT in *.
  pose (I := fun (n : nat) (acc : Z) (r : runner) =>
    acc = Z.of_nat n * batches r0
    /\ (exists t, run_inv r0 lam N (c * period r0 + Z.of_nat n * batches r0)
                    t r)
    /\ (Z.of_nat n * batches r0 > 0 -> is_Some (prev_loss r))
    /\ metrics_after r0 lam (c * period r0 + Z.of_nat n * batches r0)
         (a + Z.max 0 (Z.of_nat n * batches r0 - 1)) r
    /\ lr_buffer_ok r0 lam c (Z.of_nat n) (_samples r)
    /\ (0 < Z.of_nat n -> snapshot_ok r0 c (Z.of_nat n - 1) r)).
  assert (HI : hoare (I 0%nat 0) (for_acc (range E) (run_epoch c) 0)
                 (I (length (range E))) (fun _ _ => True)).
  { apply hoare_for_acc. intros n e acc Hlook.
    apply lookup_seqZ in Hlook as [-> Hn]. rewrite Z.add_0_l.
    intros r1 (-> & Hinv1 & Hprev1 & Hm1 & Hw1 & _).
    pose proof (run_epoch_log r0 lam N c (Z.of_nat n) a Hskip Hc
                  ltac:(fold E; lia) r1
                  (conj Hinv1 (conj Hprev1 (conj Hm1 Hw1)))) as Hep.
    destruct (run_epoch c _ (Z.of_nat n) r1) as [[i|ex] r2]; [|done].
    destruct Hep as (-> & Hinv2 & Hprev2 & Hm2 & Hw2 & Hsnap2). unfold I.
    replace (Z.of_nat (Datatypes.S n)) with (Z.of_nat n + 1) by lia.
    split_and!; try done.
    intros _. by replace (Z.of_nat n + 1 - 1) with (Z.of_nat n) by lia. }
  specialize (HI r). unfold I in HI at 1.
  assert (Hpre : 0 = Z.of_nat 0 * batches r0
                 /\ (exists t, run_inv r0 lam N
                                 (c * period r0 + Z.of_nat 0 * batches r0) t r)
                 /\ (Z.of_nat 0 * batches r0 > 0 -> is_Some (prev_loss r))
                 /\ metrics_after r0 lam
                      (c * period r0 + Z.of_nat 0 * batches r0)
                      (a + Z.max 0 (Z.of_nat 0 * batches r0 - 1)) r
                 /\ lr_buffer_ok r0 lam c (Z.of_nat 0) (_samples r)
                 /\ (0 < Z.of_nat 0 -> snapshot_ok r0 c (Z.of_nat 0 - 1) r)).
  { split_and!; [lia| |lia| |done|lia].
    - exists t. eapply run_inv_eq; [| reflexivity | exact Hinv]. lia.
    - eapply metrics_after_eq; [| | exact Hm]; lia. }
  specialize (HI Hpre). unfold bind.
  destruct (for_acc (range E) (run_epoch c) 0 r) as [[i|ex] r']; [|done].
  destruct HI as (_ & [t' Hinv'] & _ & Hm' & Hw' & Hsnap'). unfold ret.
  unfold range in *. rewrite length_seqZ in *.
  assert (HEB : Z.of_nat (Z.to_nat E) * batches r0 = period r0).
  { unfold period. fold E. lia. }
  split_and!.
  - exists t'. eapply run_inv_eq; [| reflexivity | exact Hinv']. lia.
  - eapply metrics_after_eq; [| | exact Hm']; [lia|]. by rewrite HEB.
  - intros Hreg. destruct (Hw' Hreg) as (buf & Hlook & Hall).
    exists buf. split; [done|]. intros c' e' Hc' He' Hbefore Hrec.
    apply Hall; try done. fold E in He'. lia.
  - intros _. replace (E - 1) with (Z.of_nat (Z.to_nat E) - 1) by lia.
    apply Hsnap'. lia.
Qed.

(** The whole of [run], when it returns. *)
Lemma run_log (r0 : runner) N :
  let lam := get_cosine_schedule (period r0) in
  let C := Z.max 0 (cycles (cfg r0)) in
  constructed r0 lam N -> metrics r0 = ∅ ->
  match run get_cosine_schedule r0 with
  | (Ok _, r') =>
      metrics_after r0 lam (C * steps_per_cycle r0)
        (C * Z.max 0 (steps_per_cycle r0 - 1)) r'
      /\ lr_buffer_ok r0 lam C 0 (_samples r')
      /\ (0 < cycles (cfg r0) -> 0 < epochs_per_cycle (cfg r0) ->
          snapshot_ok r0 (cycles (cfg r0) - 1)
            (epochs_per_cycle (cfg r0) - 1) r')
  | (Raise _, _) => True
  end.
Proof.
  intros lam C (Hbuf & Hskip & Htr) Hmet. unfold run. rewrite bind_gets.
  destruct (model r0) as [|np0 ps0] eqn:Hmodel.
  { cbn [unzip_named]. by rewrite bind_lift_raise. }
  cbn [unzip_named]. rewrite <- Hmodel. rewrite bind_lift_ok, bind_modify.
  rewrite !bind_gets. proj_simpl. rewrite bind_modify, bind_gets. proj_simpl.
  unfold LambdaLR_new. cbn [param_groups sgld_state fmap list_fmap pg_lr].
  rewrite !bind_modify. fold (batches r0). fold (period r0). fold lam.
  match goal with |- context [for_each _ _ ?r] => set (r1 := r) end.
  assert (Hinv1 : run_inv r0 lam N (0 * steps_per_cycle r0)
                    (temperature (cfg r0)) r1).
  { unfold run_inv, r1. proj_simpl. split_and!; try done.
    eexists _, _. split; [reflexivity|]. by cbn. }
  assert (Hm1 : metrics_after r0 lam (0 * steps_per_cycle r0)
                  (0 * Z.max 0 (steps_per_cycle r0 - 1)) r1).
  { unfold metrics_after, series, mseries, r1. proj_simpl. rewrite Hmet.
    by rewrite !lookup_empty. }
  assert (Hw1 : lr_buffer_ok r0 lam 0 0 (_samples r1)).
  { intros _. destruct (Hbuf "lr") as (buf & Hlook & _).
    { unfold sample_keys. apply elem_of_app. right. by left. }
    exists buf. split; [exact Hlook|]. intros c' e' ? ? ?. lia. }
  clearbody r1.
  pose (I := fun (n : nat) (_ : unit) (r : runner) =>
    (exists t, run_inv r0 lam N (Z.of_nat n * steps_per_cycle r0) t r)
    /\ metrics_after r0 lam (Z.of_nat n * steps_per_cycle r0)
         (Z.of_nat n * Z.max 0 (steps_per_cycle r0 - 1)) r
    /\ lr_buffer_ok r0 lam (Z.of_nat n) 0 (_samples r)
    /\ (0 < Z.of_nat n -> 0 < epochs_per_cycle (cfg r0) ->
        snapshot_ok r0 (Z.of_nat n - 1) (epochs_per_cycle (cfg r0) - 1) r)).
  assert (HI : hoare (I 0%nat tt)
                 (for_each (range (cycles (cfg r0))) run_cycle)
                 (I (length (range (cycles (cfg r0))))) (fun _ _ => True)).
  { unfold for_each. apply hoare_for_acc. intros n c [] Hlook.
    apply lookup_seqZ in Hlook as [-> Hn]. rewrite Z.add_0_l.
    intros r2 (Hinv2 & Hm2 & Hw2 & _).
    pose proof (run_cycle_log r0 lam N (Z.of_nat n)
                  (Z.of_nat n * Z.max 0 (steps_per_cycle r0 - 1))
                  Hskip ltac:(lia) r2 (conj Hinv2 (conj Hm2 Hw2))) as Hcy.
    destruct (run_cycle (Z.of_nat n) r2) as [[[]|ex] r3]; [|done].
    destruct Hcy as (Hinv3 & Hm3 & Hw3 & Hsnap3). unfold I.
    replace (Z.of_nat (Datatypes.S n)) with (Z.of_nat n + 1) by lia.
    split_and!; [done| |done|].
    - eapply metrics_after_eq; [| | exact Hm3]; lia.
    - intros _ HE.
      replace (Z.of_nat n + 1 - 1) with (Z.of_nat n) by lia. by apply Hsnap3. }
  assert (Hpre : I 0%nat tt r1).
  { unfold I. split_and!; [by eexists|done|done|lia]. }
  specialize (HI r1 Hpre).
  destruct (for_each _ run_cycle r1) as [[[]|ex] r']; [|done].
  destruct HI as (_ & Hm & Hw & Hsnap).
  unfold range in Hm, Hw, Hsnap. rewrite length_seqZ in Hm, Hw, Hsnap.
  split_and!.
  - by replace (Z.of_nat (Z.to_nat (cycles (cfg r0)))) with C in Hm
      by (unfold C; lia).
  - by replace (Z.of_nat (Z.to_nat (cycles (cfg r0)))) with C in Hw
      by (unfold C; lia).
  - intros Hcy HE.
    replace (cycles (cfg r0) - 1)
      with (Z.of_nat (Z.to_nat (cycles (cfg r0))) - 1) by lia.
    apply Hsnap; lia.
Qed.

Lemma init_constructed (ps : named_params) (dl : list batch) len c sw
    (r0 : runner) lam :
  __init__ ps dl len c sw = Ok r0 ->
  constructed r0 lam (num_samples r0 * cycles c).
Proof.
  intros Hinit.
  destruct (init_spec ps dl len c sw r0 Hinit)
    as (Hcfg & Hd & Hn & Hdl & Hlen & Hmodel & Hmet & Htr & Hprev & Hskip
        & HN & Hbuf).
  split_and!; [done|by rewrite Hcfg|by rewrite Htr].
Qed.

(** X9: when [run] returns, the metric "lr" holds, step after step over all
    the cycles, the base rate times the multiplier at the count of scheduler
    steps taken, the first entry being the rate after one scheduler step;
    "loss" has one entry per step, and "log_prob_accept" one entry per step
    except the first step of each cycle. *)
Theorem run_metrics_series (ps : named_params) (dl : list batch) len c sw
    (r0 : runner) :
  __init__ ps dl len c sw = Ok r0 ->
  (run get_cosine_schedule r0).1 = Ok tt ->
  let r' := (run get_cosine_schedule r0).2 in
  let lam :=
    get_cosine_schedule (Z.of_nat (length dl) * epochs_per_cycle c) in
  let per_cycle := Z.of_nat (length dl) * Z.max 0 (epochs_per_cycle c) in
  let total := Z.max 0 (cycles c) * per_cycle in
  series r' "lr"
  = (fun j => (learning_rate c * lam j)%R) <$> seqZ 1 total
  /\ Z.of_nat (length (series r' "loss")) = total
  /\ Z.of_nat (length (series r' "log_prob_accept"))
     = Z.max 0 (cycles c) * Z.max 0 (per_cycle - 1).
Proof.
  intros Hinit Hret.
  pose proof (init_constructed ps dl len c sw r0
                (get_cosine_schedule (period r0)) Hinit) as Hcons.
  destruct (init_spec ps dl len c sw r0 Hinit)
    as (Hcfg & Hd & Hn & Hdl & Hlen & Hmodel & Hmet & _).
  pose proof (run_log r0 (num_samples r0 * cycles c) Hcons Hmet) as Hlog.
  cbn zeta in *.
  destruct (run get_cosine_schedule r0) as [[[]|ex] r']; [|done].
  destruct Hlog as [(Hlr & Hloss & Hlpa) _]. cbn [snd].
  unfold steps_per_cycle, period, batches, logged_lrs in *.
  rewrite Hcfg, Hdl in *. done.
Qed.

(** X10: in a configuration with a positive [skip] that divides
    [sample_epochs] and with no more sampling epochs than epochs, [run] returns and fills
    the whole "lr" buffer: the slot [q] of the cycle [cy] holds the rate in
    force at the end of the sampling epoch of offset [q * skip], which is
    the base rate times the multiplier at the count of all the scheduler
    steps taken until then. *)
Theorem run_records_learning_rates (ps : named_params) (dl : list batch) len
    c sw (r0 : runner) :
  __init__ ps dl len c sw = Ok r0 ->
  ps <> [] -> precond_update c <> Some 0 ->
  0 < skip c -> (skip c | sample_epochs c) ->
  sample_epochs c <= epochs_per_cycle c ->
  let r' := (run get_cosine_schedule r0).2 in
  let B := Z.of_nat (length dl) in
  let E := epochs_per_cycle c in
  let n := sample_epochs c / skip c in
  let lam := get_cosine_schedule (B * E) in
  (run get_cosine_schedule r0).1 = Ok tt
  /\ exists buf,
       get_samples r' !! "lr" = Some buf
       /\ Z.of_nat (length buf) = n * cycles c
       /\ forall cy q, 0 <= cy < cycles c -> 0 <= q < n ->
            buf !! Z.to_nat (n * cy + q)
            = Some [(learning_rate c
                     * lam (cy * (B * E)
                            + (E - sample_epochs c + q * skip c + 1) * B)%Z)%R].
Proof.
  intros Hinit Hps Hpu Hk Hdiv HsE.
  pose proof (run_returns_when_skip_divides get_cosine_schedule ps dl len c sw
                r0 Hinit Hps Hpu Hk Hdiv) as Hret.
  pose proof (init_constructed ps dl len c sw r0
                (get_cosine_schedule (period r0)) Hinit) as Hcons.
  destruct (init_spec ps dl len c sw r0 Hinit)
    as (Hcfg & Hd & Hn & Hdl & Hlen & Hmodel & Hmet & _).
  pose proof (run_log r0 (num_samples r0 * cycles c) Hcons Hmet) as Hlog.
  pose proof (run_spec get_cosine_schedule r0 (num_samples r0 * cycles c)
                Hcons) as Hspec.
  cbn zeta in *. split; [exact Hret|].
  destruct (run get_cosine_schedule r0) as [[[]|ex] r']; [|done].
  destruct Hlog as (_ & Hbuf & _). destruct Hspec as [(k & t & Hinv) _].
  cbn [snd]. unfold get_samples.
  assert (Hreg : slots_regular r0).
  { unfold slots_regular. by rewrite Hcfg. }
  destruct (Hbuf Hreg) as (buf & Hlook & Hall).
  exists buf. split; [exact Hlook|]. split.
  - destruct Hinv as (_ & _ & _ & _ & _ & _ & _ & _ & _ & _ & Hb).
    destruct (Hb "lr") as (buf' & Hlook' & Hlen').
    { unfold sample_keys. apply elem_of_app. right. by left. }
    rewrite Hlook in Hlook'. injection Hlook' as <-. by rewrite Hlen', Hn.
  - intros cy q Hcy Hq.
    set (e := epochs_per_cycle c - sample_epochs c + q * skip c).
    destruct Hdiv as [z Hz].
    assert (Hnz : sample_epochs c / skip c = z).
    { rewrite Hz. by rewrite Z.div_mul by lia. }
    assert (Hse : sampling_epoch r0 e = q * skip c).
    { unfold sampling_epoch, e. rewrite Hd, Hcfg. lia. }
    assert (He : 0 <= e < epochs_per_cycle (cfg r0)).
    { rewrite Hcfg. unfold e. nia. }
    assert (Hrec : records r0 e).
    { unfold records. rewrite Hse, Hcfg. split; [nia|].
      by rewrite Z.mod_mul by lia. }
    assert (Hbefore : cy < Z.max 0 (cycles (cfg r0))
                      \/ (cy = Z.max 0 (cycles (cfg r0)) /\ e < 0)).
    { rewrite Hcfg. lia. }
    specialize (Hall cy e ltac:(lia) He Hbefore Hrec).
    unfold sample_index, lr_after_epoch, period, batches in Hall.
    rewrite Hse, Hcfg, Hn, Hdl in Hall. rewrite Z.div_mul in Hall by lia.
    exact Hall.
Qed.

(** X11: with [skip=1], the last epoch of the last cycle records: when [run]
    has returned, the last slot of the buffer of every tracked parameter
    holds the value that the parameter has now. *)
Theorem run_last_sample_is_final_model (ps : named_params) (dl : list batch)
    len c sw (r0 : runner) :
  __init__ ps dl len c sw = Ok r0 ->
  ps <> [] -> NoDup (fst <$> ps) -> precond_update c <> Some 0 ->
  skip c = 1 -> 1 <= sample_epochs c <= epochs_per_cycle c ->
  1 <= cycles c ->
  let r' := (run get_cosine_schedule r0).2 in
  (run get_cosine_schedule r0).1 = Ok tt
  /\ forall name p, (name, p) ∈ model r' ->
       exists buf,
         get_samples r' !! (name +:+ ".p") = Some buf
         /\ Z.of_nat (length buf) = sample_epochs c * cycles c
         /\ last buf = Some (p_value p).
Proof.
  intros Hinit Hps Hnd Hpu Hk Hs Hcy.
  assert (Hdiv : (skip c | sample_epochs c)).
  { rewrite Hk. exists (sample_epochs c). lia. }
  pose proof (run_returns_when_skip_divides get_cosine_schedule ps dl len c sw
                r0 Hinit Hps Hpu ltac:(lia) Hdiv) as Hret.
  pose proof (init_constructed ps dl len c sw r0
                (get_cosine_schedule (period r0)) Hinit) as Hcons.
  destruct (init_spec ps dl len c sw r0 Hinit)
    as (Hcfg & Hd & Hn & Hdl & Hlen & Hmodel & Hmet & _).
  pose proof (run_log r0 (num_samples r0 * cycles c) Hcons Hmet) as Hlog.
  pose proof (run_spec get_cosine_schedule r0 (num_samples r0 * cycles c)
                Hcons) as Hspec.
  cbn zeta in *. split; [exact Hret|].
  destruct (run get_cosine_schedule r0) as [[[]|ex] r']; [|done].
  destruct Hlog as (_ & _ & Hsnap). destruct Hspec as [(k & t & Hinv) _].
  cbn [snd]. unfold get_samples.
  assert (Hreg : slots_regular r0).
  { unfold slots_regular. rewrite Hcfg. split_and!; [lia|done..]. }
  rewrite Hcfg in Hsnap.
  assert (Hn1 : num_samples r0 = sample_epochs c).
  { rewrite Hn, Hk. apply Z.div_1_r. }
  assert (Hse : sampling_epoch r0 (epochs_per_cycle c - 1)
                = sample_epochs c - 1).
  { unfold sampling_epoch. rewrite Hd, Hcfg. lia. }
  assert (Hrec : records r0 (epochs_per_cycle c - 1)).
  { unfold records. rewrite Hse, Hcfg, Hk. split; [lia|apply Z.mod_1_r]. }
  assert (Hidx : sample_index r0 (cycles c - 1) (epochs_per_cycle c - 1)
                 = sample_epochs c * cycles c - 1).
  { unfold sample_index. rewrite Hse, Hcfg, Hk, Hn1, Z.div_1_r. lia. }
  intros name p Hp.
  destruct (Hsnap ltac:(lia) ltac:(lia) Hreg ltac:(by rewrite Hmodel) Hrec
              name p Hp) as (buf & Hlook & Hslot).
  exists buf. split; [exact Hlook|].
  assert (Hlenb : Z.of_nat (length buf) = sample_epochs c * cycles c).
  { destruct Hinv as (_ & _ & _ & _ & _ & Hnames & _ & _ & _ & _ & Hb).
    destruct (Hb (name +:+ ".p")) as (buf' & Hlook' & Hlen').
    { unfold sample_keys. apply elem_of_app. left.
      apply (list_elem_of_fmap_2 (fun n => n +:+ ".p")).
      rewrite <- Hnames. by apply (list_elem_of_fmap_2 fst _ (name, p)). }
    rewrite Hlook in Hlook'. injection Hlook' as <-.
    by rewrite Hlen', Hn1. }
  split; [exact Hlenb|].
  rewrite last_lookup. rewrite <- Hslot, Hidx. f_equal.
  unfold tensor in *. lia.
Qed.

(** *** How [run] ends *)

(** An index at which [run] writes is never negative. *)
Lemma init_index_nonneg (ps : named_params) (dl : list batch) len c sw
    (r0 : runner) cy ep :
  __init__ ps dl len c sw = Ok r0 ->
  0 <= cy < cycles c -> 0 <= ep < epochs_per_cycle c -> records r0 ep ->
  0 <= sample_index r0 cy ep.
Proof.
  intros Hinit Hcy Hep [Hse Hmod].
  destruct (init_spec ps dl len c sw r0 Hinit)
    as (Hcfg & Hd & Hn & _ & _ & _ & _ & _ & _ & Hskip & HN & _).
  unfold sample_index. unfold sampling_epoch in *.
  rewrite Hcfg, Hd, Hn in *.
  assert (Hs : 1 <= sample_epochs c) by lia.
  destruct (decide (0 < skip c)) as [Hk|Hk].
  - assert (0 <= sample_epochs c / skip c) by (apply Z.div_pos; lia).
    assert (0 <= (ep - (epochs_per_cycle c - warmup_epochs c
                        - sample_epochs c + warmup_epochs c)) / skip c)
      by (apply Z.div_pos; lia).
    nia.
  - exfalso.
    pose proof (Z.div_mod (sample_epochs c) (skip c) Hskip) as Hdm.
    pose proof (Z.mod_neg_bound (sample_epochs c) (skip c) ltac:(lia)) as Hb.
    assert (sample_epochs c / skip c < 0) by nia.
    nia.
Qed.

(** X12: on a runner that [__init__] has built, [run] raises a [ValueError]
    exactly when the model has no tracked parameter, and then the runner is
    untouched; a [ZeroDivisionError] only when [precond_update] is 0; an
    [IndexError] only when some epoch records a sample whose index is past
    the end of the buffer (an index is never negative, so that a write never
    wraps around to the end of the buffer); and nothing else. When there
    are parameters and [precond_update] is not 0, it returns exactly when
    every recorded sample has an index of the buffer, and raises the
    [IndexError] otherwise. *)
Theorem run_outcome (ps : named_params) (dl : list batch) len c sw
    (r0 : runner) :
  __init__ ps dl len c sw = Ok r0 ->
  let N := num_samples r0 * cycles c in
  let out := (run get_cosine_schedule r0).1 in
  (ps = [] -> run get_cosine_schedule r0 = (Raise ValueError, r0))
  /\ (out = Raise ValueError -> ps = [])
  /\ (out = Raise ZeroDivisionError -> precond_update c = Some 0)
  /\ (out = Raise IndexError ->
      exists cy ep, 0 <= cy < cycles c /\ 0 <= ep < epochs_per_cycle c
                    /\ records r0 ep /\ N <= sample_index r0 cy ep)
  /\ (forall cy ep, 0 <= cy < cycles c -> 0 <= ep < epochs_per_cycle c ->
        records r0 ep -> 0 <= sample_index r0 cy ep)
  /\ (forall e, out = Raise e ->
        e = ValueError \/ e = ZeroDivisionError \/ e = IndexError)
  /\ (ps <> [] -> precond_update c <> Some 0 ->
      (out = Ok tt <-> writes_ok r0 N (cycles c))
      /\ (out = Ok tt \/ out = Raise IndexError)).
Proof.
  intros Hinit. cbn zeta.
  pose proof (init_constructed ps dl len c sw r0
                (get_cosine_schedule (period r0)) Hinit) as Hcons.
  destruct (init_spec ps dl len c sw r0 Hinit)
    as (Hcfg & Hd & Hn & Hdl & Hlen & Hmodel & Hmet & _).
  pose proof (run_spec get_cosine_schedule r0 (num_samples r0 * cycles c)
                Hcons) as Hspec.
  cbn zeta in Hspec. unfold run_exn, exn_cause in Hspec.
  rewrite Hcfg, Hmodel in Hspec.
  assert (Hcause : forall e,
            (run get_cosine_schedule r0).1 = Raise e ->
            (e = ValueError /\ ps = [])
            \/ (e = ZeroDivisionError /\ precond_update c = Some 0)
            \/ (e = IndexError
                /\ exists cy ep, 0 <= cy < cycles c
                     /\ 0 <= ep < epochs_per_cycle c
                     /\ ~ write_ok r0 (num_samples r0 * cycles c) cy ep)).
  { intros e He.
    destruct (run get_cosine_schedule r0) as [[[]|ex] r']; [done|].
    injection He as ->. apply Hspec. }
  split_and!.
  - intros ->. unfold run. rewrite bind_gets, Hmodel.
    cbn [unzip_named]. by rewrite bind_lift_raise.
  - intros He. by destruct (Hcause _ He) as [[_ ?]|[[? _]|[? _]]].
  - intros He. by destruct (Hcause _ He) as [[? _]|[[_ ?]|[? _]]].
  - intros He.
    destruct (Hcause _ He) as [[? _]|[[? _]|[_ (cy & ep & Hcy & Hep & Hw)]]];
      [done..|].
    assert (Hrec : records r0 ep).
    { unfold records.
      destruct (decide (0 <= sampling_epoch r0 ep)) as [|H1];
        [|exfalso; apply Hw; intros [? _]; lia].
      destruct (decide (sampling_epoch r0 ep mod skip (cfg r0) = 0))
        as [|H2]; [done|].
      exfalso. apply Hw. by intros [_ ?]. }
    exists cy, ep. do 3 (split; [done|]).
    destruct (decide (num_samples r0 * cycles c <= sample_index r0 cy ep))
      as [|Hnn]; [done|].
    exfalso. apply Hw. intros _.
    pose proof (init_index_nonneg ps dl len c sw r0 cy ep Hinit Hcy Hep Hrec).
    lia.
  - intros cy ep. by apply (init_index_nonneg ps dl len c sw r0).
  - intros e He.
    destruct (Hcause _ He) as [[? _]|[[? _]|[? _]]]; auto.
  - intros Hps Hpu.
    assert (Hiff : (run get_cosine_schedule r0).1 = Ok tt
                   <-> writes_ok r0 (num_samples r0 * cycles c) (cycles c)).
    { split.
      - intros He.
        destruct (run get_cosine_schedule r0) as [[[]|ex] r']; [|done].
        apply Hspec.
      - by apply (run_returns get_cosine_schedule ps dl len c sw r0). }
    split; [exact Hiff|].
    destruct (run get_cosine_schedule r0).1 as [[]|e] eqn:He; [by left|].
    right. by destruct (Hcause _ eq_refl) as [[_ ?]|[[_ ?]|[-> _]]].
Qed.

Lemma run_cycle_precond_zero (r0 : runner) lam N t r :
  precond_update (cfg r0) = Some 0 ->
  0 < cycles (cfg r0) -> 0 < epochs_per_cycle (cfg r0) ->
  run_inv r0 lam N 0 t r -> metrics_after r0 lam 0 0 r ->
  exists r',
    run_cycle 0 r = (Raise ZeroDivisionError, r')
    /\ _samples r' = _samples r
    /\ metrics_after r0 lam (batches r0) (Z.max 0 (batches r0 - 1)) r'.
Proof.
  intros Hpu Hcy HE Hinv Hm.
  assert (Hcfg : cfg r = cfg r0) by apply Hinv.
  destruct (set_phase_temperature_spec r0 lam N 0 t 0 r Hinv)
    as (r1 & Hset & Hinv1 & Hprev1).
  pose proof (set_phase_temperature_logs 0 (metrics r) (_samples r) r
                (conj eq_refl eq_refl)) as [Hm1 Hs1].
  rewrite Hset in Hm1, Hs1. cbn [snd] in Hm1, Hs1.
  pose proof (run_batches_log r0 lam N 0 0 0 (_samples r)
                ltac:(lia) ltac:(lia) r1) as Hb.
  assert (Hpre1 : run_inv r0 lam N (0 * period r0 + 0 * batches r0)
                    (phase_temperature r0 0) r1
                  /\ (0 * batches r0 > 0 -> is_Some (prev_loss r1))
                  /\ metrics_after r0 lam (0 * period r0 + 0 * batches r0)
                       (0 + Z.max 0 (0 * batches r0 - 1)) r1
                  /\ _samples r1 = _samples r).
  { split_and!; [done|lia| |done].
    unfold metrics_after, series in *. by rewrite Hm1. }
  specialize (Hb Hpre1).
  change (0 * batches r0) with 0 in Hb.
  destruct (run_batches 0 r1) as [[i|ex] r2] eqn:Hrun; [|done].
  destruct Hb as (-> & Hinv2 & _ & Hm2 & Hs2).
  assert (Hcfg2 : cfg r2 = cfg r0) by apply Hinv2.
  exists r2. split_and!; [|done|].
  - unfold run_cycle. rewrite bind_gets, Hcfg.
    unfold range. rewrite seqZ_cons by lia. cbn [for_acc].
    unfold bind at 1. unfold bind at 1. unfold run_epoch.
    unfold bind at 1. rewrite Hset.
    unfold bind at 1. rewrite Hrun.
    unfold bind at 1. unfold maybe_estimate_preconditioner.
    rewrite bind_gets, Hcfg2, Hpu. unfold pymod.
    rewrite decide_True by done. by rewrite bind_lift_raise.
  - eapply metrics_after_eq; [| | exact Hm2]; lia.
Qed.

(** X13: with [precond_update=0] (which is not [None]) and a tracked parameter,
    a cycle and an epoch to run, [run] raises a [ZeroDivisionError] at the
    end of the first epoch: the batches of that epoch have been stepped
    through and logged, and no sample has been recorded. *)
Theorem run_precond_update_zero (ps : named_params) (dl : list batch) len c
    sw (r0 : runner) :
  __init__ ps dl len c sw = Ok r0 ->
  ps <> [] -> precond_update c = Some 0 ->
  0 < cycles c -> 0 < epochs_per_cycle c ->
  let r' := (run get_cosine_schedule r0).2 in
  let lam :=
    get_cosine_schedule (Z.of_nat (length dl) * epochs_per_cycle c) in
  (run get_cosine_schedule r0).1 = Raise ZeroDivisionError
  /\ get_samples r' = get_samples r0
  /\ series r' "lr"
     = (fun j => (learning_rate c * lam j)%R)
       <$> seqZ 1 (Z.of_nat (length dl))
  /\ length (series r' "loss") = length dl.
Proof.
  intros Hinit Hps Hpu Hcy HE. cbn zeta.
  pose proof (init_constructed ps dl len c sw r0
                (get_cosine_schedule (period r0)) Hinit)
    as (Hbuf & Hskip & Htr).
  destruct (init_spec ps dl len c sw r0 Hinit)
    as (Hcfg & Hd & Hn & Hdl & Hlen & Hmodel & Hmet & _).
  set (lam := get_cosine_schedule (period r0)) in *.
  assert (exists r2,
            run get_cosine_schedule r0 = (Raise ZeroDivisionError, r2)
            /\ _samples r2 = _samples r0
            /\ metrics_after r0 lam (batches r0) (Z.max 0 (batches r0 - 1)) r2)
    as (r2 & -> & Hs2 & Hlr & Hloss & _).
  { unfold run. rewrite bind_gets.
    destruct (model r0) as [|np0 ps0] eqn:Hmodel0;
      [by rewrite Hmodel in Hps|].
    cbn [unzip_named]. rewrite <- Hmodel0. rewrite bind_lift_ok, bind_modify.
    rewrite !bind_gets. proj_simpl. rewrite bind_modify, bind_gets.
    proj_simpl.
    unfold LambdaLR_new. cbn [param_groups sgld_state fmap list_fmap pg_lr].
    rewrite !bind_modify. fold (batches r0). fold (period r0). fold lam.
    match goal with |- context [for_each _ _ ?r] => set (r1 := r) end.
    assert (Hinv1 : run_inv r0 lam (num_samples r0 * cycles c) 0
                      (temperature (cfg r0)) r1).
    { unfold run_inv, r1. proj_simpl. split_and!; try done.
      eexists _, _. split; [reflexivity|]. by cbn. }
    assert (Hm1 : metrics_after r0 lam 0 0 r1).
    { unfold metrics_after, series, mseries, r1. proj_simpl. rewrite Hmet.
      by rewrite !lookup_empty. }
    assert (Hs1 : _samples r1 = _samples r0) by done.
    clearbody r1.
    destruct (run_cycle_precond_zero r0 lam _ _ r1
                ltac:(by rewrite Hcfg) ltac:(by rewrite Hcfg)
                ltac:(by rewrite Hcfg) Hinv1 Hm1)
      as (r2 & Hrun & Hs2 & Hm2).
    exists r2. split_and!; [|by rewrite Hs2|done].
    rewrite Hcfg. unfold range. rewrite seqZ_cons by lia.
    unfold for_each. cbn [for_acc]. unfold bind at 1. by rewrite Hrun. }
  cbn [fst snd]. unfold get_samples. split_and!.
  - done.
  - done.
  - rewrite Hlr. unfold logged_lrs, lam, period, batches.
    by rewrite Hcfg, Hdl.
  - unfold batches in Hloss. rewrite Hdl in Hloss. lia.
Qed.

End LogProofs.


(** ** Recording a sample, as a whole *)

Section RecordProofs.
Context {batch S : Type} `{GP : GradientProvider batch} `{SA : Sampler S}.

Abbreviation runner := (runner batch S).

(** X14: lines 103-108 of [run], on a runner with an optimizer,
    parameters of distinct names and buffers of [N] slots. An epoch outside the sampling phase or
    off the [skip] grid changes nothing. Otherwise, when the index is one
    of the buffer, the slot of that index receives the current value of
    every tracked parameter and the current rate of group 0, and nothing
    else changes, in the buffers or in the runner; when the index is not
    one of the buffer, an [IndexError] is raised before anything has been
    written. *)
Theorem record_sample_snapshots (r : runner) cycle epoch N o g gs :
  optimizer r = Some o -> param_groups o = g :: gs ->
  skip (cfg r) <> 0 -> NoDup (fst <$> model r) -> buffers_ok r N r ->
  let idx := sample_index r cycle epoch in
  (~ records r epoch -> record_sample cycle epoch r = (Ok tt, r))
  /\ (records r epoch -> 0 <= idx < N ->
      exists bufs,
        record_sample cycle epoch r = (Ok tt, set_samples bufs r)
        /\ (forall name p, (name, p) ∈ model r ->
              exists buf, _samples r !! (name +:+ ".p") = Some buf
                /\ bufs !! (name +:+ ".p")
                   = Some (<[Z.to_nat idx := p_value p]> buf))
        /\ (exists buf, _samples r !! "lr" = Some buf
              /\ bufs !! "lr" = Some (<[Z.to_nat idx := [pg_lr g]]> buf))
        /\ (forall key, key ∉ sample_keys r ->
              bufs !! key = _samples r !! key))
  /\ (records r epoch -> ~ (- N <= idx < N) ->
      record_sample cycle epoch r = (Raise IndexError, r)).
Proof.
  intros Ho Hg Hskip Hnd Hbuf. cbn zeta.
  assert (Hlr_key : "lr" ∈ sample_keys r).
  { unfold sample_keys. apply elem_of_app. right. by left. }
  assert (Hkeys : forall np, np ∈ model r -> np.1 +:+ ".p" ∈ sample_keys r).
  { intros np Hnp. unfold sample_keys. apply elem_of_app. left.
    apply (list_elem_of_fmap_2 (fun n => n +:+ ".p")).
    by apply list_elem_of_fmap_2. }
  assert (Hdiv : floordiv (sampling_epoch r epoch) (skip (cfg r))
                 = Ok (sampling_epoch r epoch / skip (cfg r))).
  { unfold floordiv. by rewrite decide_False. }
  assert (Hrecording : records r epoch ->
            record_sample cycle epoch r
            = bind (for_each (model r) (fun np =>
                      bind (lift (floordiv (sampling_epoch r epoch)
                                    (skip (cfg r))))
                        (fun q => write_sample (np.1 +:+ ".p")
                                    (num_samples r * cycle + q)
                                    (p_value np.2))))
                (fun _ => write_sample "lr" (sample_index r cycle epoch)
                            [pg_lr g]) r).
  { intros [Hse Hmod]. unfold record_sample. rewrite !bind_gets.
    fold (sampling_epoch r epoch). rewrite decide_True by done.
    unfold pymod. rewrite decide_False by done. rewrite bind_lift_ok.
    rewrite decide_True by done. rewrite bind_gets.
    apply bind_after. intros [] r1 Hfor.
    assert (Ho1 : optimizer r1 = Some o).
    { change r1 with ((Ok tt, r1).2). rewrite <- Hfor. revert Ho.
      apply (preserves_for_each (fun r => optimizer r = Some o)).
      intros np. unfold write_sample.
      repeat first [ apply preserves_bind; [|intros]
                   | apply preserves_lift | apply preserves_gets
                   | apply preserves_raise ].
      destruct (_ !! _); [|apply preserves_raise].
      apply preserves_bind; [apply preserves_lift|intros].
      by apply preserves_modify. }
    rewrite (bind_attr_some _ _ _ o) by exact Ho1.
    unfold group0. rewrite Hg, bind_lift_ok, Hdiv, bind_lift_ok.
    reflexivity. }
  split_and!.
  - intros Hnrec. unfold record_sample. rewrite !bind_gets.
    fold (sampling_epoch r epoch).
    destruct (decide (0 <= sampling_epoch r epoch)) as [Hse|Hse]; [|done].
    unfold pymod. rewrite decide_False by done. rewrite bind_lift_ok.
    destruct (decide (sampling_epoch r epoch mod skip (cfg r) = 0));
      [|done].
    by destruct Hnrec.
  - intros Hrec Hidx. rewrite (Hrecording Hrec).
    destruct (write_params_lookup N (sampling_epoch r epoch) (skip (cfg r))
                (num_samples r) cycle (model r) r Hskip Hidx Hnd)
      as (bufs & Hfor & Hin & Hout).
    { intros np Hnp. by apply Hbuf, Hkeys. }
    destruct (Hbuf "lr" Hlr_key) as (buf & Hlook & Hlen).
    assert (Hlook1 : bufs !! "lr" = Some buf).
    { rewrite Hout; [done|]. intros np _. apply key_p_not_lr. }
    exists (<["lr" := <[Z.to_nat (sample_index r cycle epoch)
                        := [pg_lr g]]> buf]> bufs).
    split_and!.
    + unfold bind at 1. rewrite Hfor. unfold write_sample.
      rewrite bind_gets. cbn [_samples set_samples]. rewrite Hlook1.
      unfold setitem. rewrite decide_True by lia.
      by rewrite bind_lift_ok.
    + intros name p Hp. destruct (Hin (name, p) Hp) as (b & Hb & Hb').
      exists b. split; [done|].
      rewrite lookup_insert_ne; [done|]. apply key_p_not_lr.
    + exists buf. split; [done|]. by rewrite lookup_insert_eq.
    + intros key Hkey. rewrite lookup_insert_ne.
      * apply Hout. intros np Hnp ->. by apply Hkey, Hkeys.
      * intros <-. by apply Hkey.
  - intros Hrec Hidx. rewrite (Hrecording Hrec).
    pose proof (write_params_spec r N (sampling_epoch r epoch) (skip (cfg r))
                  (num_samples r) cycle (model r) r Hbuf Hskip Hkeys) as Hps.
    cbn zeta in Hps. fold (sample_index r cycle epoch) in Hps.
    rewrite decide_False in Hps by done.
    destruct (model r) as [|np ps] eqn:Hmodel.
    + unfold for_each. cbn [for_acc]. rewrite bind_ret.
      pose proof (write_sample_spec r N "lr" (sample_index r cycle epoch)
                    [pg_lr g] r Hbuf Hlr_key) as Hw.
      by rewrite decide_False in Hw by done.
    + unfold bind at 1. by rewrite Hps.
Qed.

End RecordProofs.

(** ** The summary writer and the metrics *)

Section WriterProofs.
Context {batch S : Type} `{GP : GradientProvider batch} `{SA : Sampler S}.
Variable get_cosine_schedule : Z -> Z -> R.

Abbreviation runner := (runner batch S).

Lemma add_scalar_eff_writer n v s (r : runner) :
  writer_agrees r -> writer_agrees (add_scalar_eff n v s r).
Proof.
  intros Hr w. unfold add_scalar_eff. cbn.
  destruct (summary_writer r) as [w0|] eqn:Hw; cbn; [|by rewrite Hw].
  intros [= <-] name. pose proof (Hr w0 Hw name) as Hn.
  unfold writer_values in *. rewrite filter_app, fmap_app, Hn.
  fold (mseries (metrics r) name).
  fold (mseries (append_metric n v (metrics r)) name).
  destruct (decide (n = name)) as [->|Hne].
  - rewrite mseries_append_eq. f_equal.
    rewrite filter_cons_True by done. done.
  - rewrite mseries_append_ne by done.
    rewrite filter_cons_False by done. cbn. apply app_nil_r.
Qed.

Lemma write_sample_writer key idx v :
  preserves (writer_agrees (batch:=batch) (S:=S)) (write_sample key idx v).
Proof.
  unfold write_sample. repeat preserves_step; auto.
Qed.

(** X15: [step] and [run] keep the summary writer and the metrics in step: if
    the writer has so far received, under every name, the values of the
    metric of that name in the same order, it has afterwards too, from any
    state and whether they return or raise. This is the case of a runner
    that [__init__] has just built on a writer that has received nothing,
    and so of that runner after [run]. *)
Theorem writer_follows_metrics (ps : named_params) (dl : list batch) len c
    (r0 r : runner) i xy lr_decay :
  (__init__ ps dl len c (Some []) = Ok r0 ->
   writer_agrees r0 /\ writer_agrees (run get_cosine_schedule r0).2)
  /\ (writer_agrees r ->
      writer_agrees (step i xy lr_decay r).2
      /\ writer_agrees (run get_cosine_schedule r).2).
Proof.
  assert (Hrun : forall r : runner,
            writer_agrees r -> writer_agrees (run get_cosine_schedule r).2).
  { intros r1 Hr1.
    apply (run_preserves get_cosine_schedule
             (writer_agrees (batch:=batch) (S:=S)));
      first [done | apply add_scalar_eff_writer | apply write_sample_writer]. }
  split.
  - intros Hinit.
    assert (Hr0 : writer_agrees r0).
    { unfold __init__ in Hinit.
      destruct (floordiv _ _); [|done].
      destruct (alloc_samples _ _); [|done].
      destruct (torch_zeros _ _); [|done].
      injection Hinit as <-. intros w [= <-] name. cbn.
      by rewrite lookup_empty. }
    split; [exact Hr0|by apply Hrun].
  - intros Hr. split; [|by apply Hrun].
    apply (step_preserves (writer_agrees (batch:=batch) (S:=S)));
      first [done | apply add_scalar_eff_writer].
Qed.

End WriterProofs.

(** ** The gradients that [optimizer.step()] finds *)

Section ClampProofs.
Context {batch S : Type} `{GP : GradientProvider batch} `{SA : Sampler S}.
Variable get_cosine_schedule : Z -> Z -> R.

Abbreviation runner := (runner batch S).

(** [backward] and then [clamp_grads], parameter by parameter and element
    by element. *)
Lemma clamp_backward_elementwise gmax xy T dm (ps : named_params) :
  clamp_grads gmax (backward xy T dm ps)
  = (fun np =>
       (np.1, Param (p_value np.2)
                ((fun x => Rmin (Rmax x (- gmax)) gmax)
                 <$> potential_grad ps xy T dm np.1)))
    <$> ps.
Proof.
  unfold clamp_grads, backward, clamp. rewrite <- list_fmap_compose.
  apply list_fmap_ext. intros k [n p] _. reflexivity.
Qed.

Lemma clamped_element (gmax x : R) :
  let y := Rmin (Rmax x (- gmax)) gmax in
  (Rabs y <= Rabs gmax)%R
  /\ ((0 <= gmax)%R -> (- gmax <= y <= gmax)%R)
  /\ ((gmax < 0)%R -> y = gmax).
Proof.
  cbn zeta. unfold Rmin, Rmax.
  repeat destruct (Rle_dec _ _); split_and!;
    first [ intros; lra
          | unfold Rabs; repeat destruct (Rcase_abs _); lra ].
Qed.

(** What the rest of [step] leaves alone once the optimizer has stepped. *)
Lemma add_scalar_eff_trace_model n v s (r : runner) tr m :
  trace r = tr /\ model r = m ->
  trace (add_scalar_eff n v s r) = tr /\ model (add_scalar_eff n v s r) = m.
Proof.
  unfold add_scalar_eff. cbn. by destruct (summary_writer r).
Qed.

(** C8, as the code has it: [step] clamps with [clamp_(min=-grad_max,
    max=grad_max)] and validates nothing. On any runner with an optimizer
    and a first group, and whatever happens later in the call,
    [optimizer.step()] is reached once, after the potential has been
    evaluated at the configured temperature, and the gradient it finds for
    every tracked parameter is the raw gradient of that potential on the
    current parameters with every element [x] replaced by
    [min(max(x, -grad_max), grad_max)]; the values that the parameters
    have afterwards are those that the sampler computes from these
    gradients. On every optimizer step of [run] the gradient found is such
    an element-wise clamped raw gradient, so that every element has an
    absolute value of at most [|grad_max|]; it lies in
    [[-grad_max, grad_max]] when [grad_max] is not negative, and is
    [grad_max] itself when [grad_max] is negative, the interval being empty
    then. *)
Theorem gradients_clamped_elementwise :
  (forall (r : runner) i xy lr_decay o g gs,
      optimizer r = Some o -> param_groups o = g :: gs ->
      let T := temperature (cfg r) in
      let dm := data_mult (cfg r) in
      let gmax := grad_max (cfg r) in
      let found :=
        (fun np =>
           (np.1, Param (p_value np.2)
                    ((fun x => Rmin (Rmax x (- gmax)) gmax)
                     <$> potential_grad (model r) xy T dm np.1)))
        <$> model r in
      trace (step i xy lr_decay r).2
      = trace r ++ [EvPotential xy T dm; EvOptStep i (param_groups o) found]
      /\ model (step i xy lr_decay r).2 = (optimizer_step o found).2)
  /\ (forall (ps : named_params) (dl : list batch) len c sw (r0 : runner),
        __init__ ps dl len c sw = Ok r0 ->
        forall i groups params,
          EvOptStep i groups params ∈ trace (run get_cosine_schedule r0).2 ->
          exists xy ps0,
            fst <$> ps0 = fst <$> ps
            /\ params
               = (fun np =>
                    (np.1, Param (p_value np.2)
                             ((fun x => Rmin (Rmax x (- grad_max c))
                                          (grad_max c))
                              <$> potential_grad ps0 xy (temperature c)
                                    (data_mult c) np.1)))
                 <$> ps0
            /\ forall name p x, (name, p) ∈ params -> x ∈ p_grad p ->
                 (Rabs x <= Rabs (grad_max c))%R
                 /\ ((0 <= grad_max c)%R ->
                     (- grad_max c <= x <= grad_max c)%R)
                 /\ ((grad_max c < 0)%R -> x = grad_max c)).
Proof.
  split.
  - intros r i xy lr_decay o g gs Ho Hg. cbn zeta.
    rewrite <- clamp_backward_elementwise.
    set (found := clamp_grads _ _).
    assert (exists r',
              (step i xy lr_decay r).2 = r'
              /\ trace r'
                 = trace r ++ [EvPotential xy (temperature (cfg r))
                                 (data_mult (cfg r));
                               EvOptStep i (param_groups o) found]
              /\ model r' = (optimizer_step o found).2)
      as (r' & -> & Htr & Hmodel); [|by split].
    unfold step.
    rewrite (bind_attr_some _ _ _ _ Ho).
    rewrite !bind_gets, !bind_modify.
    unfold group0 at 1. rewrite Hg, bind_lift_ok.
    rewrite !bind_gets, !bind_modify, !bind_gets.
    cbn [model set_model log_event cfg].
    rewrite bind_modify. fold found.
    destruct (optimizer_step o found) as [o' ps'] eqn:Eo.
    rewrite !bind_modify.
    eexists. split; [reflexivity|].
    match goal with
    | |- trace (?m ?r1).2 = _ /\ _ =>
        assert (Hrest : preserves
                          (fun r' : runner =>
                             trace r' = trace r1 /\ model r' = model r1) m)
    end.
    { repeat preserves_step;
        first [ intros ? ?; by apply add_scalar_eff_trace_model
              | by intros ? [? ?] ]. }
    match goal with
    | |- trace (?m ?r1).2 = _ /\ _ =>
        destruct (Hrest r1 (conj eq_refl eq_refl)) as [-> ->]
    end.
    proj_simpl. split; [by rewrite <- app_assoc|reflexivity].
  - intros ps dl len c sw r0 Hinit i groups params Hev.
    pose proof (init_spec _ _ _ _ _ _ Hinit) as (Hc & _ & _ & _ & _ & Hm & _).
    apply (run_event_ok get_cosine_schedule _ _ _ _ _ _ _ Hinit) in Hev
      as [_ (xy & ps0 & Hnames & ->)].
    rewrite Hc, Hm in *. exists xy, ps0. split; [exact Hnames|].
    rewrite clamp_backward_elementwise. split; [reflexivity|].
    intros name p x Hp Hx.
    apply list_elem_of_fmap_1 in Hp as (np & [= -> ->] & _).
    cbn [p_grad] in Hx.
    apply list_elem_of_fmap_1 in Hx as (y & -> & _).
    apply clamped_element.
Qed.

End ClampProofs.

(** ** The further properties on the concrete runner *)

Lemma init_buffers_zero_witness :
  let c := default_config 3 1 1 in
  toy_init c = Ok (toy_runner c)
  /\ NoDup (fst <$> toy_params)
  /\ get_samples (toy_runner c) !! "w.p" = Some [[0%R]]
  /\ get_samples (toy_runner c) !! "lr" = Some [[0%R]]
  /\ metrics (toy_runner c) = ∅.
Proof.
  cbn zeta.
  assert (Hinit : toy_init (default_config 3 1 1)
                  = Ok (toy_runner (default_config 3 1 1)))
    by (vm_compute; reflexivity).
  assert (Hnd : NoDup (fst <$> toy_params)) by apply NoDup_singleton.
  destruct (init_buffers_zero toy_params [tt] 1 (default_config 3 1 1) None
              (toy_runner (default_config 3 1 1)) Hinit Hnd)
    as (Hp & Hlr & _ & Hm).
  split_and!; [exact Hinit | exact Hnd | | exact Hlr | exact Hm].
  apply (Hp "w" (Param [1%R] [])). by left.
Defined.

Lemma step_lr_decay_switch_witness :
  let r := toy_running (default_config 4 1 1) in
  (step 1 tt false r).1 = Ok 7%R
  /\ scheduler (step 1 tt false r).2 = scheduler r
  /\ series (step 1 tt false r).2 "lr" = [(1 / 100)%R]
  /\ last_epoch <$> scheduler (step 1 tt true r).2 = Some 2
  /\ series (step 1 tt true r).2 "lr" = [(1 / 100 * cosine_schedule 4 2)%R].
Proof.
  cbn zeta.
  destruct (step_lr_decay_switch (toy_running (default_config 4 1 1)) 1 tt
              _ _ _ _ 7%R eq_refl eq_refl eq_refl eq_refl
              ltac:(by eexists) ltac:(intros _; reflexivity))
    as [(Hret & Hsch & _ & Hlr) (_ & Hsch' & _ & Hlr')].
  split_and!.
  - exact Hret.
  - exact Hsch.
  - exact Hlr.
  - by rewrite Hsch'.
  - exact Hlr'.
Defined.

Lemma step_attribute_errors_witness :
  let c := default_config 4 1 1 in
  step 0 tt true (toy_runner c) = (Raise AttributeError, toy_runner c)
  /\ (let r := set_prev_loss None (toy_running c) in
      (step 1 tt true r).1 = Raise AttributeError
      /\ series (step 1 tt true r).2 "loss" = [7%R]
      /\ prev_loss (step 1 tt true r).2 = None).
Proof.
  cbn zeta. split.
  - apply (proj1 (step_attribute_errors (toy_runner (default_config 4 1 1))
                    0 tt true)).
    reflexivity.
  - destruct (proj2 (step_attribute_errors
                       (set_prev_loss None
                          (toy_running (default_config 4 1 1)))
                       1 tt true)
                _ _ _ _ eq_refl eq_refl eq_refl eq_refl
                ltac:(by eexists) ltac:(lia) eq_refl)
      as (Hret & _ & _ & _ & _ & Hloss & _ & Hprev).
    split_and!; [exact Hret | exact Hloss | exact Hprev].
Defined.

Lemma run_metrics_series_witness :
  let c := default_config 3 1 1 in
  let r' := (run cosine_schedule (toy_runner c)).2 in
  toy_init c = Ok (toy_runner c)
  /\ (run cosine_schedule (toy_runner c)).1 = Ok tt
  /\ series r' "lr"
     = [(1 / 100 * cosine_schedule 3 1)%R; (1 / 100 * cosine_schedule 3 2)%R;
        (1 / 100 * cosine_schedule 3 3)%R]
  /\ length (series r' "loss") = 3%nat
  /\ length (series r' "log_prob_accept") = 2%nat.
Proof.
  cbn zeta.
  assert (Hinit : toy_init (default_config 3 1 1)
                  = Ok (toy_runner (default_config 3 1 1)))
    by (vm_compute; reflexivity).
  assert (Hret : (run cosine_schedule (toy_runner (default_config 3 1 1))).1
                 = Ok tt)
    by (vm_compute; reflexivity).
  destruct (run_metrics_series cosine_schedule toy_params [tt] 1
              (default_config 3 1 1) None _ Hinit Hret)
    as (Hlr & Hloss & Hlpa).
  split_and!; [exact Hinit | exact Hret | exact Hlr | |].
  - apply Nat2Z.inj. exact Hloss.
  - apply Nat2Z.inj. exact Hlpa.
Defined.

Lemma run_records_learning_rates_witness :
  let c := default_config 3 1 1 in
  let r' := (run cosine_schedule (toy_runner c)).2 in
  toy_init c = Ok (toy_runner c)
  /\ (skip c | sample_epochs c)
  /\ (run cosine_schedule (toy_runner c)).1 = Ok tt
  /\ exists buf,
       get_samples r' !! "lr" = Some buf
       /\ length buf = 1%nat
       /\ buf !! 0%nat = Some [(1 / 100 * cosine_schedule 3 3)%R].
Proof.
  cbn zeta.
  assert (Hinit : toy_init (default_config 3 1 1)
                  = Ok (toy_runner (default_config 3 1 1)))
    by (vm_compute; reflexivity).
  assert (Hps : toy_params <> []) by discriminate.
  assert (Hpu : precond_update (default_config 3 1 1) <> Some 0)
    by discriminate.
  assert (Hk : 0 < skip (default_config 3 1 1)) by reflexivity.
  assert (Hdiv : (skip (default_config 3 1 1)
                  | sample_epochs (default_config 3 1 1)))
    by (exists 1; reflexivity).
  assert (HsE : sample_epochs (default_config 3 1 1)
                <= epochs_per_cycle (default_config 3 1 1))
    by (cbn; lia).
  pose proof (run_records_learning_rates cosine_schedule toy_params [tt] 1
                (default_config 3 1 1) None _ Hinit Hps Hpu Hk Hdiv HsE)
    as H.
  cbn zeta in H. destruct H as (Hret & buf & Hlook & Hlen & Hslots).
  split; [exact Hinit|]. split; [exact Hdiv|]. split; [exact Hret|].
  exists buf. split; [exact Hlook|]. split.
  - apply Nat2Z.inj. exact Hlen.
  - assert (Hcy : 0 <= 0 < cycles (default_config 3 1 1)) by (cbn; lia).
    assert (Hq : 0 <= 0 < sample_epochs (default_config 3 1 1)
                          / skip (default_config 3 1 1))
      by (split; [apply Z.le_refl|reflexivity]).
    exact (Hslots 0 0 Hcy Hq).
Defined.

Lemma run_last_sample_is_final_model_witness :
  let c := default_config 3 1 1 in
  let r' := (run cosine_schedule (toy_runner c)).2 in
  toy_init c = Ok (toy_runner c)
  /\ (run cosine_schedule (toy_runner c)).1 = Ok tt
  /\ forall name p, (name, p) ∈ model r' ->
       exists buf, get_samples r' !! (name +:+ ".p") = Some buf
                   /\ last buf = Some (p_value p).
Proof.
  cbn zeta.
  assert (Hinit : toy_init (default_config 3 1 1)
                  = Ok (toy_runner (default_config 3 1 1)))
    by (vm_compute; reflexivity).
  assert (Hps : toy_params <> []) by discriminate.
  assert (Hnd : NoDup (fst <$> toy_params)) by apply NoDup_singleton.
  assert (Hpu : precond_update (default_config 3 1 1) <> Some 0)
    by discriminate.
  assert (Hk : skip (default_config 3 1 1) = 1) by reflexivity.
  assert (Hs : 1 <= sample_epochs (default_config 3 1 1)
               <= epochs_per_cycle (default_config 3 1 1))
    by (cbn; lia).
  assert (Hcy : 1 <= cycles (default_config 3 1 1)) by (cbn; lia).
  pose proof (run_last_sample_is_final_model cosine_schedule toy_params [tt]
                1 (default_config 3 1 1) None _ Hinit Hps Hnd Hpu Hk Hs Hcy)
    as H.
  cbn zeta in H. destruct H as (Hret & Hlast).
  split; [exact Hinit|]. split; [exact Hret|].
  intros name p Hp. destruct (Hlast name p Hp) as (buf & Hlook & _ & Hl).
  exists buf. split; [exact Hlook|exact Hl].
Defined.

Lemma run_outcome_witness :
  let c := default_config 3 1 1 in
  let out := (run cosine_schedule (toy_runner c)).1 in
  toy_init c = Ok (toy_runner c)
  /\ (out = Ok tt \/ out = Raise IndexError)
  /\ (forall e, out = Raise e ->
        e = ValueError \/ e = ZeroDivisionError \/ e = IndexError).
Proof.
  cbn zeta.
  assert (Hinit : toy_init (default_config 3 1 1)
                  = Ok (toy_runner (default_config 3 1 1)))
    by (vm_compute; reflexivity).
  destruct (run_outcome cosine_schedule toy_params [tt] 1
              (default_config 3 1 1) None _ Hinit)
    as (_ & _ & _ & _ & _ & Hexn & Hret).
  split_and!; [exact Hinit | | exact Hexn].
  apply Hret; discriminate.
Defined.

Lemma run_precond_update_zero_witness :
  let c := with_precond_update (Some 0) (default_config 3 1 1) in
  let r' := (run cosine_schedule (toy_runner c)).2 in
  toy_init c = Ok (toy_runner c)
  /\ (run cosine_schedule (toy_runner c)).1 = Raise ZeroDivisionError
  /\ get_samples r' = get_samples (toy_runner c)
  /\ length (series r' "loss") = 1%nat.
Proof.
  cbn zeta.
  assert (Hinit : toy_init (with_precond_update (Some 0)
                              (default_config 3 1 1))
                  = Ok (toy_runner (with_precond_update (Some 0)
                                      (default_config 3 1 1))))
    by (vm_compute; reflexivity).
  destruct (run_precond_update_zero cosine_schedule toy_params [tt] 1
              (with_precond_update (Some 0) (default_config 3 1 1)) None _
              Hinit ltac:(discriminate) ltac:(reflexivity)
              ltac:(cbn; lia) ltac:(cbn; lia))
    as (Hret & Hs & _ & Hloss).
  split_and!; [exact Hinit | exact Hret | exact Hs | exact Hloss].
Defined.

Lemma record_sample_snapshots_witness :
  let r := toy_running (default_config 4 1 1) in
  buffers_ok r 1 r
  /\ record_sample 0 2 r = (Ok tt, r)
  /\ exists bufs,
       record_sample 0 3 r = (Ok tt, set_samples bufs r)
       /\ bufs !! "w.p" = Some [[1%R]]
       /\ bufs !! "lr" = Some [[(1 / 100)%R]].
Proof.
  cbn zeta.
  assert (Hbuf : buffers_ok (toy_running (default_config 4 1 1)) 1
                   (toy_running (default_config 4 1 1))).
  { intros key Hkey. unfold sample_keys in Hkey. cbn in Hkey.
    apply elem_of_cons in Hkey as [->|Hkey].
    - eexists. split; [vm_compute; reflexivity|reflexivity].
    - apply list_elem_of_singleton in Hkey as ->.
      eexists. split; [vm_compute; reflexivity|reflexivity]. }
  destruct (record_sample_snapshots (toy_running (default_config 4 1 1))
              0 2 1 _ _ [] eq_refl eq_refl ltac:(discriminate)
              ltac:(apply NoDup_singleton) Hbuf)
    as (Hno & _ & _).
  destruct (record_sample_snapshots (toy_running (default_config 4 1 1))
              0 3 1 _ _ [] eq_refl eq_refl ltac:(discriminate)
              ltac:(apply NoDup_singleton) Hbuf)
    as (_ & Hyes & _).
  split_and!; [exact Hbuf | |].
  - apply Hno. intros [Hse _]. vm_compute in Hse. by apply Hse.
  - destruct Hyes as (bufs & Hrec & Hp & (buf & Hlook & Hlr) & _).
    { split; [vm_compute; by intros ?|reflexivity]. }
    { vm_compute. split; [by intros ?|reflexivity]. }
    exists bufs. split_and!; [exact Hrec | |].
    + destruct (Hp "w" (Param [1%R] []) ltac:(by left)) as (b & Hb & Hb').
      vm_compute in Hb. injection Hb as <-. exact Hb'.
    + vm_compute in Hlook. injection Hlook as <-. exact Hlr.
Defined.

Lemma writer_follows_metrics_witness :
  let c := default_config 3 1 1 in
  let r0 := set_summary_writer (Some []) (toy_runner c) in
  __init__ toy_params [tt] 1 c (Some []) = Ok r0
  /\ writer_agrees (run cosine_schedule r0).2.
Proof.
  cbn zeta.
  assert (Hinit : __init__ toy_params [tt] 1 (default_config 3 1 1) (Some [])
                  = Ok (set_summary_writer (Some [])
                          (toy_runner (default_config 3 1 1))))
    by (vm_compute; reflexivity).
  split; [exact Hinit|].
  apply (proj1 (writer_follows_metrics cosine_schedule toy_params [tt] 1
                  (default_config 3 1 1) _
                  (toy_runner (default_config 3 1 1)) 0 tt true)).
  exact Hinit.
Defined.

(** ** The clamped gradients on the concrete runner *)

Lemma gradients_clamped_elementwise_witness :
  let c := with_grad_max 1 (default_config 3 1 1) in
  let tr := trace (run cosine_schedule (toy_runner c)).2 in
  toy_init c = Ok (toy_runner c)
  /\ (exists g ps,
        EvOptStep 0 [g] ps ∈ tr
        /\ forall name p x, (name, p) ∈ ps -> x ∈ p_grad p ->
             (- 1 <= x <= 1)%R)
  /\ exists g,
       trace (step 1 tt true (toy_running c)).2
       = [EvPotential tt 1 1;
          EvOptStep 1 [g]
            [("w", Param [1%R] [Rmin (Rmax 5 (- grad_max c)) (grad_max c)])]].
Proof.
  cbn zeta.
  assert (Hinit : toy_init (with_grad_max 1 (default_config 3 1 1))
                  = Ok (toy_runner (with_grad_max 1 (default_config 3 1 1))))
    by (vm_compute; reflexivity).
  assert (Hg : (0 <= grad_max (with_grad_max 1 (default_config 3 1 1)))%R)
    by (cbn; lra).
  split; [exact Hinit|]. split.
  - pose_event (trace (run cosine_schedule
                         (toy_runner
                            (with_grad_max 1 (default_config 3 1 1)))).2)
      1%nat g ps Hev.
    destruct (proj2 (gradients_clamped_elementwise cosine_schedule)
                toy_params [tt] 1 _ None _ Hinit 0 [g] ps Hev)
      as (xy & ps0 & _ & _ & Hb).
    exists g, ps. split; [exact Hev|].
    intros name p x Hp Hx. destruct (Hb name p x Hp Hx) as (_ & Hin & _).
    exact (Hin Hg).
  - destruct (proj1 (gradients_clamped_elementwise cosine_schedule)
                (toy_running (with_grad_max 1 (default_config 3 1 1)))
                1 tt true _ _ [] eq_refl eq_refl)
      as [Htr _].
    eexists. exact Htr.
Defined.

(** C8 without a condition on [grad_max]: construction accepts a negative
    [grad_max], [run] returns, and the gradient that the first
    [optimizer.step()] finds has an element outside [[-grad_max,
    grad_max]], which is empty. *)
Lemma negative_grad_max_escapes_the_interval :
  let c := with_grad_max (-1) (default_config 3 1 1) in
  let tr := trace (run cosine_schedule (toy_runner c)).2 in
  toy_init c = Ok (toy_runner c)
  /\ (run cosine_schedule (toy_runner c)).1 = Ok tt
  /\ exists g ps p x,
       EvOptStep 0 [g] ps ∈ tr /\ ("w", p) ∈ ps /\ x ∈ p_grad p
       /\ x = grad_max c
       /\ ~ (- grad_max c <= x <= grad_max c)%R.
Proof.
  cbn zeta.
  assert (Hinit : toy_init (with_grad_max (-1) (default_config 3 1 1))
                  = Ok (toy_runner
                          (with_grad_max (-1) (default_config 3 1 1))))
    by (vm_compute; reflexivity).
  assert (Hret : (run cosine_schedule
                    (toy_runner
                       (with_grad_max (-1) (default_config 3 1 1)))).1
                 = Ok tt)
    by (vm_compute; reflexivity).
  split; [exact Hinit|]. split; [exact Hret|].
  pose_event (trace (run cosine_schedule
                       (toy_runner
                          (with_grad_max (-1) (default_config 3 1 1)))).2)
    1%nat g ps Hev.
  pose proof (run_event_ok cosine_schedule toy_params [tt] 1 _ None _ _
                Hinit Hev) as [_ (xy & ps0 & Hn & Hps)].
  destruct ps0 as [|[n0 p0] [|np1 ps1]]; [discriminate Hn| |discriminate Hn].
  injection Hn as Hn0.
  assert (Hx : Rmin (Rmax 5 (- (-1))) (-1) = (-1)%R).
  { unfold Rmin, Rmax. repeat destruct (Rle_dec _ _); lra. }
  exists g, ps, (Param (p_value p0) [Rmin (Rmax 5 (- (-1))) (-1)]),
    (Rmin (Rmax 5 (- (-1))) (-1)).
  split; [exact Hev|]. split; [|split; [|split]].
  - rewrite Hps, Hn0. apply list_elem_of_here.
  - apply list_elem_of_here.
  - exact Hx.
  - rewrite Hx. cbn. intros [H1 H2]. lra.
Defined.
